(** * Relative date resolver of the restaurant-reservation caller

    Shallow embedding of [parseReservationDate]
    (src/skills/restaurant-reservations/vapi-caller.mjs, lines 5-65) and
    of the parts of the JavaScript runtime it calls: [Date], string
    lower-casing and trimming, the five regular expressions and
    [parseInt].

    Conventions of the model.
    - A JavaScript string is a [string]: a list of code units below 256
      (the Latin-1 part of UTF-16).
    - A [Date] built at local midnight is identified with the number of
      its calendar day, counted from 1970-01-01 (day 0), following the
      day arithmetic of ECMA-262 (Day, DayFromYear, YearFromTime,
      MonthFromTime, DateFromTime, WeekDay, MakeDay).  Time of day, time
      zone offsets and the range limit of [Date] (100,000,000 days on
      either side of the epoch) are outside the model.
    - The clock is the parameter [now]: the day number read by
      [new Date()] on line 6. *)

From Stdlib Require Import ZArith Lia Bool List String Ascii.
From Stdlib Require Import Numbers.DecimalString.
Import ListNotations.

Open Scope Z_scope.

(** ** Calendar arithmetic of ECMA-262 (section "Date objects") *)

Module Calendar.

(** DaysInYear(y), with the floored modulo of the standard. *)
Definition DaysInYear (y : Z) : Z :=
  if negb (y mod 4 =? 0) then 365
  else if negb (y mod 100 =? 0) then 366
  else if negb (y mod 400 =? 0) then 365
  else 366.

(** DayFromYear(y): day number of January 1st of year [y]. *)
Definition DayFromYear (y : Z) : Z :=
  365 * (y - 1970) + (y - 1969) / 4 - (y - 1901) / 100 + (y - 1601) / 400.

(** YearFromTime: the largest [y] with [DayFromYear y <= d].  The standard
    gives the specification only; this computes it from an estimate that
    is corrected by at most one year, see [YearFromDay_spec]. *)
Definition YearFromDay (d : Z) : Z :=
  let y := 1970 + (400 * d) / 146097 in
  if d <? DayFromYear y then y - 1
  else if DayFromYear (y + 1) <=? d then y + 1
  else y.

(** InLeapYear, as 0 or 1. *)
Definition InLeapYear (d : Z) : Z :=
  if DaysInYear (YearFromDay d) =? 366 then 1 else 0.

Definition DayWithinYear (d : Z) : Z := d - DayFromYear (YearFromDay d).

(** MonthFromTime: the table of the standard. *)
Definition MonthFromDay (d : Z) : Z :=
  let w := DayWithinYear d in
  let l := InLeapYear d in
  if w <? 31 then 0
  else if w <? 59 + l then 1
  else if w <? 90 + l then 2
  else if w <? 120 + l then 3
  else if w <? 151 + l then 4
  else if w <? 181 + l then 5
  else if w <? 212 + l then 6
  else if w <? 243 + l then 7
  else if w <? 273 + l then 8
  else if w <? 304 + l then 9
  else if w <? 334 + l then 10
  else 11.

(** Number of days of the year before the first day of month [m]
    (0 = January), [l] being 1 in a leap year. *)
Definition DaysBeforeMonth (l m : Z) : Z :=
  match m with
  | 0 => 0
  | 1 => 31
  | 2 => 59 + l
  | 3 => 90 + l
  | 4 => 120 + l
  | 5 => 151 + l
  | 6 => 181 + l
  | 7 => 212 + l
  | 8 => 243 + l
  | 9 => 273 + l
  | 10 => 304 + l
  | _ => 334 + l
  end.

(** DateFromTime: day of the month, 1-based. *)
Definition DateFromDay (d : Z) : Z :=
  DayWithinYear d + 1 - DaysBeforeMonth (InLeapYear d) (MonthFromDay d).

(** WeekDay: 0 = Sunday; 1970-01-01 was a Thursday. *)
Definition WeekDay (d : Z) : Z := (d + 4) mod 7.

(** MakeDay(year, month, date): months outside 0..11 carry into the
    year, and the date is added as a plain number of days. *)
Definition MakeDay (year month date : Z) : Z :=
  let ym := year + month / 12 in
  let mn := month mod 12 in
  let l := if DaysInYear ym =? 366 then 1 else 0 in
  DayFromYear ym + DaysBeforeMonth l mn + date - 1.

End Calendar.

Import Calendar.

(** ** Strings of the JavaScript runtime *)

Open Scope string_scope.

Module JSString.

Definition code (c : ascii) : N := N_of_ascii c.

(** WhiteSpace and LineTerminator code units below 256: TAB, LF, VT, FF,
    CR, SPACE and NO-BREAK SPACE.  Both [trim] and the class [\s] use
    this set. *)
Definition isWhiteSpace (c : ascii) : bool :=
  let n := code c in
  ((9 <=? n) && (n <=? 13) || (n =? 32) || (n =? 160))%N.

(** [\d] *)
Definition isDigit (c : ascii) : bool :=
  let n := code c in ((48 <=? n) && (n <=? 57))%N.

(** Lower-case mapping of one code unit: A-Z, and the Latin-1 capitals
    U+00C0-U+00DE except the multiplication sign U+00D7. *)
Definition lowerChar (c : ascii) : ascii :=
  let n := code c in
  if ((65 <=? n) && (n <=? 90) || (192 <=? n) && (n <=? 222) && negb (n =? 215))%N
  then ascii_of_N (n + 32) else c.

Fixpoint toLowerCase (s : string) : string :=
  match s with
  | EmptyString => EmptyString
  | String c r => String (lowerChar c) (toLowerCase r)
  end.

Fixpoint trimStart (s : string) : string :=
  match s with
  | EmptyString => EmptyString
  | String c r => if isWhiteSpace c then trimStart r else s
  end.

Fixpoint trimEnd (s : string) : string :=
  match s with
  | EmptyString => EmptyString
  | String c r =>
      match trimEnd r with
      | EmptyString => if isWhiteSpace c then EmptyString else String c EmptyString
      | r' => String c r'
      end
  end.

Definition trim (s : string) : string := trimEnd (trimStart s).

(** A string made of white space only. *)
Fixpoint blank (s : string) : bool :=
  match s with
  | EmptyString => true
  | String c r => isWhiteSpace c && blank r
  end.

(** [a.indexOf(x)] on an array of strings: -1 when absent. *)
Fixpoint indexOf (a : list string) (x : string) : Z :=
  match a with
  | [] => -1
  | y :: r => if String.eqb y x then 0
              else let i := indexOf r x in if (i <? 0)%Z then -1 else i + 1
  end.

End JSString.

Import JSString.

(** ** Regular expressions

    The fragment of ECMAScript regular expressions that the five
    patterns of the source use, with the backtracking matcher of the
    standard written in continuation-passing style: a continuation
    receives the text just matched, the rest of the input and the
    captures made so far, and the first successful path in priority
    order wins. *)

Module Regex.

Inductive re : Type :=
| Lit (w : string)              (* a literal word *)
| OneOf (p : ascii -> bool)     (* one character of a class *)
| Plus (p : ascii -> bool)      (* [p+], greedy *)
| Upto2 (p : ascii -> bool)     (* [p{1,2}], greedy *)
| Alt (a b : re)                (* [a|b] *)
| Cat (a b : re)                (* [ab] *)
| Opt (a : re)                  (* [a?], greedy *)
| Cap (i : nat) (a : re)        (* capture group number [i] *)
| Eos                           (* [$] *)
| Never.                        (* the empty alternation *)

(** Captures: group number and captured text, the latest first. *)
Definition captures := list (nat * string).

Fixpoint group (m : captures) (i : nat) : option string :=
  match m with
  | [] => None
  | (j, t) :: r => if Nat.eqb i j then Some t else group r i
  end.

(** Canonicalize of the standard under the [i] flag, for code units
    below 256: a-z go to A-Z.  (The other Latin-1 letters have an upper
    case outside ASCII, so against the ASCII-only patterns of the source
    they compare as themselves.) *)
Definition canonicalize (c : ascii) : ascii :=
  let n := code c in
  if ((97 <=? n) && (n <=? 122))%N then ascii_of_N (n - 32) else c.

Definition sameChar (ic : bool) (a c : ascii) : bool :=
  if ic then Ascii.eqb (canonicalize a) (canonicalize c) else Ascii.eqb a c.

(** Matches the literal [w] at the head of [s]; gives the matched text
    and the rest. *)
Fixpoint eat (ic : bool) (w s : string) : option (string * string) :=
  match w with
  | EmptyString => Some (EmptyString, s)
  | String a w' =>
      match s with
      | EmptyString => None
      | String c s' =>
          if sameChar ic a c then
            match eat ic w' s' with
            | Some (t, rest) => Some (String c t, rest)
            | None => None
            end
          else None
      end
  end.

Section Matcher.
Context {A : Type}.

(** [p*], greedy: take one more character first, stop here second. *)
Fixpoint star (p : ascii -> bool) (s : string) (k : string -> string -> option A)
    : option A :=
  match s with
  | EmptyString => k EmptyString s
  | String c s' =>
      if p c then
        match star p s' (fun t rest => k (String c t) rest) with
        | Some r => Some r
        | None => k EmptyString s
        end
      else k EmptyString s
  end.

Definition plus (p : ascii -> bool) (s : string) (k : string -> string -> option A)
    : option A :=
  match s with
  | EmptyString => None
  | String c s' => if p c then star p s' (fun t rest => k (String c t) rest) else None
  end.

Definition upto2 (p : ascii -> bool) (s : string) (k : string -> string -> option A)
    : option A :=
  match s with
  | EmptyString => None
  | String c s' =>
      if p c then
        match s' with
        | String c2 s'' =>
            if p c2 then
              match k (String c (String c2 EmptyString)) s'' with
              | Some r => Some r
              | None => k (String c EmptyString) s'
              end
            else k (String c EmptyString) s'
        | EmptyString => k (String c EmptyString) s'
        end
      else None
  end.
End Matcher.

Fixpoint run (ic : bool) (r : re) (s : string) (m : captures)
    (k : string -> string -> captures -> option captures) {struct r}
    : option captures :=
  match r with
  | Lit w => match eat ic w s with Some (t, rest) => k t rest m | None => None end
  | OneOf p =>
      match s with
      | String c s' => if p c then k (String c EmptyString) s' m else None
      | EmptyString => None
      end
  | Plus p => plus p s (fun t rest => k t rest m)
  | Upto2 p => upto2 p s (fun t rest => k t rest m)
  | Alt a b =>
      match run ic a s m k with
      | Some c => Some c
      | None => run ic b s m k
      end
  | Cat a b =>
      run ic a s m (fun t1 s1 m1 =>
        run ic b s1 m1 (fun t2 s2 m2 => k (t1 ++ t2) s2 m2))
  | Opt a =>
      match run ic a s m k with
      | Some c => Some c
      | None => k EmptyString s m
      end
  | Cap i a => run ic a s m (fun t rest m' => k t rest ((i, t) :: m'))
  | Eos => match s with EmptyString => k EmptyString s m | _ => None end
  | Never => None
  end.

(** [w1|w2|...] *)
Definition words (ws : list string) : re :=
  fold_right (fun w r => Alt (Lit w) r) Never ws.

(** A pattern: [fromStart] is a leading [^], [ignoreCase] the [i] flag. *)
Record regexp : Type := mkRegexp {
  fromStart : bool;
  body : re;
  ignoreCase : bool
}.

(** The continuation of a whole pattern: the match is complete. *)
Definition accept : string -> string -> captures -> option captures :=
  fun _ _ m => Some m.

Definition matchAt (R : regexp) (s : string) : option captures :=
  run (ignoreCase R) (body R) s [] accept.

(** Leftmost match: every start position in turn. *)
Fixpoint search (R : regexp) (s : string) : option captures :=
  match matchAt R s with
  | Some m => Some m
  | None =>
      match s with
      | EmptyString => None
      | String _ s' => search R s'
      end
  end.

(** [s.match(R)] for a pattern without the [g] flag; [None] is null. *)
Definition exec (R : regexp) (s : string) : option captures :=
  if fromStart R then matchAt R s else search R s.

(** [R.test(s)] *)
Definition test (R : regexp) (s : string) : bool :=
  match exec R s with Some _ => true | None => false end.

End Regex.

Import Regex.

(** ** Numbers and Date objects *)

Module JS.

(** A number that is an integer or NaN. *)
Inductive num : Type := Num (z : Z) | NaN.

Definition add (a b : num) : num :=
  match a, b with Num x, Num y => Num (x + y) | _, _ => NaN end.

Definition sub (a b : num) : num :=
  match a, b with Num x, Num y => Num (x - y) | _, _ => NaN end.

(** [a <= b]: false when either side is NaN. *)
Definition le (a b : num) : bool :=
  match a, b with Num x, Num y => (x <=? y)%Z | _, _ => false end.

(** [a < b]: false when either side is NaN. *)
Definition less (a b : num) : bool :=
  match a, b with Num x, Num y => (x <? y)%Z | _, _ => false end.

(** A Date object: the day it holds, or an Invalid Date. *)
Inductive JSDate : Type := DateAt (day : Z) | InvalidDate.

(** [new Date(year, month, day)]: a year from 0 to 99 stands for
    1900 + year; any NaN argument gives an Invalid Date. *)
Definition newDate (year month day : num) : JSDate :=
  match year, month, day with
  | Num y, Num m, Num d =>
      let yr := if (0 <=? y)%Z && (y <=? 99)%Z then 1900 + y else y in
      DateAt (MakeDay yr m d)
  | _, _, _ => InvalidDate
  end.

Definition getFullYear (t : JSDate) : num :=
  match t with DateAt d => Num (YearFromDay d) | InvalidDate => NaN end.

Definition getMonth (t : JSDate) : num :=
  match t with DateAt d => Num (MonthFromDay d) | InvalidDate => NaN end.

Definition getDate (t : JSDate) : num :=
  match t with DateAt d => Num (DateFromDay d) | InvalidDate => NaN end.

Definition getDay (t : JSDate) : num :=
  match t with DateAt d => Num (WeekDay d) | InvalidDate => NaN end.

(** [t.setDate(n)]; the model returns the updated object. *)
Definition setDate (t : JSDate) (n : num) : JSDate :=
  match t, n with
  | DateAt d, Num k => DateAt (MakeDay (YearFromDay d) (MonthFromDay d) k)
  | _, _ => InvalidDate
  end.

(** [t.setFullYear(y)]: an Invalid Date is first reset to day 0. *)
Definition setFullYear (t : JSDate) (y : num) : JSDate :=
  match y with
  | NaN => InvalidDate
  | Num yr =>
      let d := match t with DateAt d => d | InvalidDate => 0 end in
      DateAt (MakeDay yr (MonthFromDay d) (DateFromDay d))
  end.

(** [a < b] on two Date objects: false when either is invalid. *)
Definition lt (a b : JSDate) : bool :=
  match a, b with DateAt x, DateAt y => (x <? y)%Z | _, _ => false end.

Definition digitValue (c : ascii) : Z := Z.of_N (code c) - 48.

Fixpoint leadingDigits (s : string) (acc : Z) : Z :=
  match s with
  | String c r => if isDigit c then leadingDigits r (10 * acc + digitValue c) else acc
  | EmptyString => acc
  end.

(** [parseInt(x)] where [x] is a capture group: undefined gives NaN, a
    text that starts with a decimal digit gives the value of its leading
    digits.  The source applies it to the text of a [\d{1,2}] group only;
    the leading blanks, sign and [0x] prefix that the real function also
    accepts are not modelled (NaN here). *)
Definition parseInt (x : option string) : num :=
  match x with
  | Some (String c r) => if isDigit c then Num (leadingDigits (String c r) 0) else NaN
  | _ => NaN
  end.

(** [!!x] for a capture group: undefined and the empty text are falsy. *)
Definition truthy (x : option string) : bool :=
  match x with Some (String _ _) => true | _ => false end.

(** [a[i]] on an array of strings: undefined unless [i] is an index. *)
Definition item (a : list string) (i : num) : option string :=
  match i with
  | Num z => if (z <? 0)%Z then None else nth_error a (Z.to_nat z)
  | NaN => None
  end.

(** [x || y] on strings that may be undefined. *)
Definition orElse (x y : option string) : option string :=
  match x with Some (String _ _) => x | _ => y end.

(** String conversion in a concatenation. *)
Definition showNum (n : num) : string :=
  match n with Num z => NilZero.string_of_int (Z.to_int z) | NaN => "NaN" end.

Definition showStr (x : option string) : string :=
  match x with Some s => s | None => "undefined" end.

(** [o[key]] on an object literal with numeric values: a missing key is
    undefined, NaN as a number.  (Properties inherited from
    [Object.prototype] are not modelled; the source looks up the text of
    a month group only.) *)
Fixpoint property (o : list (string * Z)) (key : string) : num :=
  match o with
  | [] => NaN
  | (k, v) :: r => if String.eqb k key then Num v else property r key
  end.

(** Result of a call: a value, or a TypeError thrown by reading a
    property of null or undefined. *)
Inductive outcome (A : Type) : Type :=
| Returned (a : A)
| Threw.
Arguments Returned {A} a.
Arguments Threw {A}.

Definition bind {A B : Type} (x : outcome A) (f : A -> outcome B) : outcome B :=
  match x with Returned a => f a | Threw => Threw end.

(** Reading through a value that may be null or undefined. *)
Definition deref {A : Type} (x : option A) : outcome A :=
  match x with Some a => Returned a | None => Threw end.

End JS.

Import JS.

Notation "x <- c ;; k" := (bind c (fun x => k))
  (at level 61, c at next level, right associativity).

(** ** The source: vapi-caller.mjs, lines 5-65 *)

Record ResolvedDate : Type := mkResolved {
  original : string;
  formatted : string;
  date : option JSDate;        (* [None] is null *)
  dayOfWeek : option string;   (* [None] is null or undefined *)
  isValid : bool
}.

Definition weekdayWords : list string :=
  ["sunday"; "monday"; "tuesday"; "wednesday"; "thursday"; "friday"; "saturday"].

Definition monthWords : list string :=
  ["january"; "february"; "march"; "april"; "may"; "june"; "july"; "august";
   "september"; "october"; "november"; "december"; "jan"; "feb"; "mar"; "apr";
   "jun"; "jul"; "aug"; "sep"; "sept"; "oct"; "nov"; "dec"].

(** Line 19: [/^(next\s+)?(sunday|...|saturday)$/i] *)
Definition reNextWeekdayTest : regexp :=
  mkRegexp true
    (Cat (Opt (Cap 1 (Cat (Lit "next") (Plus isWhiteSpace))))
         (Cat (Cap 2 (words weekdayWords)) Eos))
    true.

(** Line 21: [/(next\s+)?(sunday|...|saturday)/i] *)
Definition reNextWeekday : regexp :=
  mkRegexp false
    (Cat (Opt (Cap 1 (Cat (Lit "next") (Plus isWhiteSpace))))
         (Cap 2 (words weekdayWords)))
    true.

(** Line 30: [/^this\s+(sunday|...|saturday)$/i] *)
Definition reThisWeekdayTest : regexp :=
  mkRegexp true
    (Cat (Lit "this") (Cat (Plus isWhiteSpace)
         (Cat (Cap 1 (words weekdayWords)) Eos)))
    true.

(** Line 32: [/this\s+(sunday|...|saturday)/i] *)
Definition reThisWeekday : regexp :=
  mkRegexp false
    (Cat (Lit "this") (Cat (Plus isWhiteSpace) (Cap 1 (words weekdayWords))))
    true.

(** Line 41: [/^(january|...|dec)\s+(\d{1,2})(st|nd|rd|th)?$/i] *)
Definition reMonthDay : regexp :=
  mkRegexp true
    (Cat (Cap 1 (words monthWords)) (Cat (Plus isWhiteSpace)
         (Cat (Cap 2 (Upto2 isDigit))
              (Cat (Opt (Cap 3 (words ["st"; "nd"; "rd"; "th"]))) Eos))))
    true.

Definition isSlashOrDash (c : ascii) : bool :=
  Ascii.eqb c "/"%char || Ascii.eqb c "-"%char.

(** Line 48: [/^(\d{1,2})[\/\-](\d{1,2})$/] *)
Definition reNumeric : regexp :=
  mkRegexp true
    (Cat (Cap 1 (Upto2 isDigit)) (Cat (OneOf isSlashOrDash)
         (Cat (Cap 2 (Upto2 isDigit)) Eos)))
    false.

Definition days : list string :=
  ["sunday"; "monday"; "tuesday"; "wednesday"; "thursday"; "friday"; "saturday"].

Definition months : list (string * Z) :=
  [("january", 0); ("jan", 0); ("february", 1); ("feb", 1); ("march", 2);
   ("mar", 2); ("april", 3); ("apr", 3); ("may", 4); ("june", 5); ("jun", 5);
   ("july", 6); ("jul", 6); ("august", 7); ("aug", 7); ("september", 8);
   ("sep", 8); ("sept", 8); ("october", 9); ("oct", 9); ("november", 10);
   ("nov", 10); ("december", 11); ("dec", 11)]%Z.

Definition dayNames : list string :=
  ["Sunday"; "Monday"; "Tuesday"; "Wednesday"; "Thursday"; "Friday"; "Saturday"].

Definition monthNames : list string :=
  ["January"; "February"; "March"; "April"; "May"; "June"; "July"; "August";
   "September"; "October"; "November"; "December"].

(** Line 62: [n + (s[(v-20)%10] || s[v] || s[0])] with [v = n % 100];
    [%] is the truncating remainder. *)
Definition getOrdinal (n : num) : string :=
  let s := ["th"; "st"; "nd"; "rd"] in
  let rem (a : num) (b : Z) :=
    match a with Num x => Num (Z.rem x b) | NaN => NaN end in
  let v := rem n 100%Z in
  showNum n ++
  showStr (orElse (orElse (item s (rem (sub v (Num 20)) 10%Z)) (item s v))
                  (item s (Num 0))).

(** Lines 19-29, after the test of line 19 has passed. *)
Definition nextWeekdayBranch (today : JSDate) (input : string) : outcome JSDate :=
  match_ <- deref (exec reNextWeekday input) ;;
  g2 <- deref (group match_ 2) ;;
  let targetDay := Num (indexOf days (toLowerCase g2)) in
  let isNext := truthy (group match_ 1) in
  let targetDate := today in
  let currentDay := getDay targetDate in
  let daysToAdd := sub targetDay currentDay in
  let daysToAdd := if le daysToAdd (Num 0) || isNext
                   then add daysToAdd (Num 7) else daysToAdd in
  let daysToAdd := if isNext && le daysToAdd (Num 7)
                   then add daysToAdd (Num 7) else daysToAdd in
  Returned (setDate targetDate (add (getDate targetDate) daysToAdd)).

(** Lines 30-38, after the test of line 30 has passed. *)
Definition thisWeekdayBranch (today : JSDate) (input : string) : outcome JSDate :=
  match_ <- deref (exec reThisWeekday input) ;;
  g1 <- deref (group match_ 1) ;;
  let targetDay := Num (indexOf days (toLowerCase g1)) in
  let targetDate := today in
  let currentDay := getDay targetDate in
  let daysToAdd := sub targetDay currentDay in
  let daysToAdd := if less daysToAdd (Num 0)
                   then add daysToAdd (Num 7) else daysToAdd in
  Returned (setDate targetDate (add (getDate targetDate) daysToAdd)).

(** Lines 46 and 53: [if (targetDate < today) targetDate.setFullYear(...)] *)
Definition rollForward (today targetDate : JSDate) : JSDate :=
  if lt targetDate today
  then setFullYear targetDate (add (getFullYear targetDate) (Num 1))
  else targetDate.

(** Lines 40-54: the two date shapes, tried one after the other; the
    second assignment, when made, replaces the first. *)
Definition monthDayBranch (now today : JSDate) (input : string)
    : outcome (option JSDate) :=
  let targetDate := None in
  let monthDayMatch := exec reMonthDay input in
  targetDate <-
    match monthDayMatch with
    | Some m =>
        g1 <- deref (group m 1) ;;
        let month := property months (toLowerCase g1) in
        let day := parseInt (group m 2) in
        let targetDate := newDate (getFullYear now) month day in
        Returned (Some (rollForward today targetDate))
    | None => Returned targetDate
    end ;;
  let numericMatch := exec reNumeric input in
  match numericMatch with
  | Some m =>
      let month := sub (parseInt (group m 1)) (Num 1) in
      let day := parseInt (group m 2) in
      let targetDate := newDate (getFullYear now) month day in
      Returned (Some (rollForward today targetDate))
  | None => Returned targetDate
  end.

(** Lines 56-64. *)
Definition describe (dateInput : string) (targetDate : option JSDate) : ResolvedDate :=
  match targetDate with
  | None => mkResolved dateInput dateInput None None false
  | Some targetDate =>
      let dayOfWeek := item dayNames (getDay targetDate) in
      let month := item monthNames (getMonth targetDate) in
      let dayNum := getDate targetDate in
      let formatted :=
        showStr dayOfWeek ++ ", " ++ showStr month ++ " " ++ getOrdinal dayNum in
      mkResolved dateInput formatted (Some targetDate) dayOfWeek true
  end.

(** [today] of line 7, from the clock reading [now]. *)
Definition todayOf (now : JSDate) : JSDate :=
  newDate (getFullYear now) (getMonth now) (getDate now).

(** Lines 11-55: the chain of phrase classes, the first that matches
    deciding [targetDate] ([None] is the initial null). *)
Definition targetOf (now today : JSDate) (input : string) : outcome (option JSDate) :=
  if input =? "today" then Returned (Some today)
  else if input =? "tomorrow" then
    Returned (Some (setDate today (add (getDate today) (Num 1))))
  else if input =? "day after tomorrow" then
    Returned (Some (setDate today (add (getDate today) (Num 2))))
  else if test reNextWeekdayTest input then
    t <- nextWeekdayBranch today input ;; Returned (Some t)
  else if test reThisWeekdayTest input then
    t <- thisWeekdayBranch today input ;; Returned (Some t)
  else monthDayBranch now today input.

Definition parseReservationDate (clock : Z) (dateInput : string)
    : outcome ResolvedDate :=
  let now := DateAt clock in
  let today := todayOf now in
  let input := trim (toLowerCase dateInput) in
  targetDate <- targetOf now today input ;;
  Returned (describe dateInput targetDate).

(** The reference day: the day number held by [today]. *)
Definition referenceDay (clock : Z) : Z :=
  let y := YearFromDay clock in
  MakeDay (if (0 <=? y)%Z && (y <=? 99)%Z then 1900 + y else y)
          (MonthFromDay clock) (DateFromDay clock).

(** Day number of a civil date, for stating examples: month 1..12. *)
Definition civil (y m d : Z) : Z := MakeDay y (m - 1) d.

(** ** Vocabulary of the statements *)

(** Length of month [m] (0 = January), [l] being 1 in a leap year. *)
Definition DaysInMonth (l m : Z) : Z :=
  match m with
  | 1 => 28 + l
  | 3 | 5 | 8 | 10 => 30
  | _ => 31
  end.

Definition leapFlag (y : Z) : Z := if (DaysInYear y =? 366)%Z then 1 else 0.

(** Two strings that differ in letter case only, position by position. *)
Fixpoint caseVariant (s t : string) : bool :=
  match s, t with
  | EmptyString, EmptyString => true
  | String a s', String b t' => Ascii.eqb (lowerChar a) (lowerChar b) && caseVariant s' t'
  | _, _ => false
  end.

(** A continuation that completes the match whatever it is given. *)
Definition accepting (k : string -> string -> captures -> option captures) : Prop :=
  forall t s m, k t s m = Some m.

(** Lines 26-28 on integers. *)
Definition daysAhead (isNext : bool) (targetDay currentDay : Z) : Z :=
  let daysToAdd := targetDay - currentDay in
  let daysToAdd := if (daysToAdd <=? 0)%Z || isNext then daysToAdd + 7 else daysToAdd in
  if isNext && (daysToAdd <=? 7)%Z then daysToAdd + 7 else daysToAdd.

(** Lines 36-37 on integers. *)
Definition daysAheadThis (targetDay currentDay : Z) : Z :=
  let daysToAdd := targetDay - currentDay in
  if (daysToAdd <? 0)%Z then daysToAdd + 7 else daysToAdd.

Definition isDateAt (t : JSDate) : bool :=
  match t with DateAt _ => true | InvalidDate => false end.

(** An input that one of the phrase classes of lines 11-54 takes. *)
Definition recognized (input : string) : bool :=
  (input =? "today") || (input =? "tomorrow") || (input =? "day after tomorrow")
  || test reNextWeekdayTest input || test reThisWeekdayTest input
  || test reMonthDay input || test reNumeric input.

(** The fallback record of line 56. *)
Definition fallback (dateInput : string) : ResolvedDate :=
  mkResolved dateInput dateInput None None false.

(** The English rule as the specification words it: "th" for 11 to 13,
    otherwise by the last digit, "st", "nd", "rd" for 1, 2, 3 and "th"
    for the rest. *)
Definition englishSuffix (n : Z) : string :=
  if (11 <=? n mod 100)%Z && (n mod 100 <=? 13)%Z then "th"
  else match n mod 10 with
       | 1 => "st"
       | 2 => "nd"
       | 3 => "rd"
       | _ => "th"
       end.

Definition decimal (n : Z) : string := NilZero.string_of_int (Z.to_int n).

(** The full English names, as the specification means them: weekday 0
    is Sunday, month 0 is January. *)
Definition englishDay (t : Z) : string :=
  match t with
  | 0 => "Sunday"
  | 1 => "Monday"
  | 2 => "Tuesday"
  | 3 => "Wednesday"
  | 4 => "Thursday"
  | 5 => "Friday"
  | 6 => "Saturday"
  | _ => ""
  end.

Definition englishMonth (m : Z) : string :=
  match m with
  | 0 => "January"
  | 1 => "February"
  | 2 => "March"
  | 3 => "April"
  | 4 => "May"
  | 5 => "June"
  | 6 => "July"
  | 7 => "August"
  | 8 => "September"
  | 9 => "October"
  | 10 => "November"
  | 11 => "December"
  | _ => ""
  end.

Definition ordinalChecked (n : Z) : bool :=
  getOrdinal (Num n) =? decimal n ++ englishSuffix n.

(** [s] is the word [word] in any letter case, with blank padding. *)
Definition oneWord (word s : string) : Prop :=
  exists pre a post,
    s = pre ++ a ++ post /\ blank pre = true /\ blank post = true /\
    caseVariant a word = true.

(** [s] is [first], white space, then [second], in any letter case and
    with blank padding. *)
Definition twoWords (first second s : string) : Prop :=
  exists pre a gap b post,
    s = pre ++ a ++ gap ++ b ++ post /\ blank pre = true /\ blank post = true /\
    blank gap = true /\ gap <> "" /\
    caseVariant a first = true /\ caseVariant b second = true.

(** A weekday number with its lower-case word, as in [days]. *)
Definition dayWord (t : Z) (w : string) : Prop :=
  0 <= t <= 6 /\ nth_error days (Z.to_nat t) = Some w.

Definition startsSolid (s : string) : Prop :=
  match s with
  | String c _ => isWhiteSpace c = false
  | EmptyString => True
  end.

(** The record of a phrase that resolves [k] days after the reference
    day. *)
Definition resolvesAhead (clock : Z) (s : string) (k : Z) : Prop :=
  exists r, parseReservationDate clock s = Returned r /\ isValid r = true /\
            date r = Some (DateAt (referenceDay clock + k)).

(** A text of one or two decimal digits, as [\d{1,2}] takes it. *)
Definition digits12 (ds : string) : bool :=
  match ds with
  | String a EmptyString => isDigit a
  | String a (String b EmptyString) => isDigit a && isDigit b
  | _ => false
  end.

(** The number a digit text denotes. *)
Definition numeral (ds : string) : Z := leadingDigits ds 0.

Definition startsNonDigit (s : string) : Prop :=
  match s with
  | String c _ => isDigit c = false
  | EmptyString => True
  end.

(** The ordinal suffixes that the pattern accepts after the day. *)
Definition suffixWords : list string := [""; "st"; "nd"; "rd"; "th"].

Definition suffixCapture (suf : string) : captures :=
  match suf with
  | EmptyString => []
  | _ => [(3%nat, suf)]
  end.

(** Month number [i] (0 = January) with one of its lower-case words. *)
Definition monthWord (i : Z) (mw : string) : Prop :=
  In mw monthWords /\ property months mw = Num i.

(** [s] is a month word, white space, a day of one or two digits and an
    optional ordinal suffix, in any letter case and with blank padding. *)
Definition monthDayPhrase (mw ds suf s : string) : Prop :=
  exists pre a gap sf post,
    s = pre ++ a ++ gap ++ ds ++ sf ++ post /\
    blank pre = true /\ blank post = true /\ blank gap = true /\ gap <> "" /\
    caseVariant a mw = true /\ caseVariant sf suf = true.

(** [s] is month digits, a slash or a dash, and day digits, with blank
    padding. *)
Definition numericPhrase (ms : string) (sep : ascii) (ds s : string) : Prop :=
  exists pre post,
    s = pre ++ ms ++ String sep ds ++ post /\ blank pre = true /\ blank post = true.

(** [datePhrase m d s]: the input [s] names month [m] (0 = January, as
    [Date] counts) and day [d] in one of the two shapes. *)
Inductive datePhrase : Z -> Z -> string -> Prop :=
| MonthNamePhrase i mw ds suf s :
    monthWord i mw -> digits12 ds = true -> In suf suffixWords ->
    monthDayPhrase mw ds suf s -> datePhrase i (numeral ds) s
| NumericPhrase ms sep ds s :
    digits12 ms = true -> isSlashOrDash sep = true -> digits12 ds = true ->
    numericPhrase ms sep ds s -> datePhrase (numeral ms - 1) (numeral ds) s.

(** The date of lines 45 and 52: month [m] and day [d] of the reference
    day's year, as [Date] builds it. *)
Definition targetDay (clock m d : Z) : Z :=
  MakeDay (YearFromDay (referenceDay clock)) m d.

(** Lines 46 and 53 on day numbers. *)
Definition rolledDay (today t : Z) : Z :=
  if (t <? today)%Z
  then MakeDay (YearFromDay t + 1) (MonthFromDay t) (DateFromDay t)
  else t.

(** The reading of the month-and-day rule under which the result always
    falls on the named month and day, in the reference day's year or the
    next one. *)
Definition sameMonthDay (clock m d : Z) (s : string) : Prop :=
  exists r t,
    parseReservationDate clock s = Returned r /\ date r = Some (DateAt t) /\
    MonthFromDay t = m /\ DateFromDay t = d /\
    (YearFromDay t = YearFromDay (referenceDay clock) \/
     YearFromDay t = YearFromDay (referenceDay clock) + 1).

(** ** The rest of the repository: shared runtime pieces *)

(** Result of a call that may throw an [Error] with a message. *)
Inductive completion (A : Type) : Type :=
| Normal (a : A)
| Throws (message : string).
Arguments Normal {A} a.
Arguments Throws {A} message.

Definition andThen {A B : Type} (x : completion A) (f : A -> completion B)
    : completion B :=
  match x with Normal a => f a | Throws e => Throws e end.

(** [s.replace(/[^...]/g, '')] for a class of single characters: the
    characters of the class [p] are kept, the others removed. *)
Fixpoint keep (p : ascii -> bool) (s : string) : string :=
  match s with
  | EmptyString => EmptyString
  | String c r => if p c then String c (keep p r) else keep p r
  end.

(** [s.startsWith(t)] *)
Fixpoint startsWith (s t : string) {struct t} : bool :=
  match t with
  | EmptyString => true
  | String b t' =>
      match s with
      | EmptyString => false
      | String a s' => Ascii.eqb a b && startsWith s' t'
      end
  end.

(** [s.length], in code units. *)
Definition len (s : string) : Z := Z.of_nat (String.length s).

(** Every character of [s] satisfies [p]. *)
Fixpoint allOf (p : ascii -> bool) (s : string) : bool :=
  match s with
  | EmptyString => true
  | String c r => p c && allOf p r
  end.

(** Number of occurrences of the character [x] in [s]. *)
Fixpoint count (x : ascii) (s : string) : nat :=
  match s with
  | EmptyString => O
  | String c r => if Ascii.eqb c x then S (count x r) else count x r
  end.

(** The end of the text, [$]. *)
Definition isEmptyText (r : string) : bool :=
  match r with EmptyString => true | _ => false end.

(** [p{0,n}], greedy, in the style of [Regex.star]: one more character
    first, stop here second. *)
Fixpoint upTo (p : ascii -> bool) (n : nat) (s : string) (k : string -> bool) : bool :=
  match n with
  | O => k s
  | S n' =>
      match s with
      | String c s' => if p c then upTo p n' s' k || k s else k s
      | EmptyString => k s
      end
  end.

Definition isNonZeroDigit (c : ascii) : bool :=
  let n := code c in ((49 <=? n) && (n <=? 57))%N.

(** index.ts line 173: [/^\+[1-9]\d{1,14}$/] as a test. *)
Definition matchesE164 (s : string) : bool :=
  match s with
  | String plus (String first (String second rest)) =>
      Ascii.eqb plus "+"%char && isNonZeroDigit first && isDigit second &&
      upTo isDigit 13 rest isEmptyText
  | _ => false
  end.

(** ** restaurant-lookup.mjs *)

Module Lookup.

Definition isDigitOrPlus (c : ascii) : bool := isDigit c || Ascii.eqb c "+"%char.

(** Lines 72-88.  [None] is an undefined or null argument. *)
Definition formatPhoneForCalling (phoneNumber : option string) : completion string :=
  match phoneNumber with
  | Some (String c r) =>
      let phoneNumber := String c r in
      let cleaned := keep isDigitOrPlus phoneNumber in
      if negb (startsWith cleaned "+") then
        if (len cleaned =? 10)%Z then Normal ("+1" ++ cleaned)
        else if (len cleaned =? 11)%Z && startsWith cleaned "1" then Normal ("+" ++ cleaned)
        else Throws ("Invalid phone number format: " ++ phoneNumber)
      else Normal cleaned
  | _ => Throws "No phone number provided"
  end.

End Lookup.

(** ** src/prompts.ts of the introduction agent *)

Module Prompts.

(** [s.replace(/^1/, "")] *)
Definition dropLeadingOne (s : string) : string :=
  match s with
  | String c r => if Ascii.eqb c "1"%char then r else s
  | EmptyString => s
  end.

(** [s.split("")]: the code units, one by one. *)
Fixpoint splitChars (s : string) : list string :=
  match s with
  | EmptyString => []
  | String c r => String c EmptyString :: splitChars r
  end.

(** [a.join(sep)] *)
Fixpoint join (sep : string) (a : list string) : string :=
  match a with
  | [] => EmptyString
  | [x] => x
  | x :: r => x ++ sep ++ join sep r
  end.

(** Lines 46-50. *)
Definition formatPhoneForSpeech (phone : string) : string :=
  let digits := dropLeadingOne (keep isDigit phone) in
  join ", " (splitChars digits).

(** [s.replace(x, by)] for a one-character text [x]: the first
    occurrence only. *)
Fixpoint replaceFirst (x : ascii) (by_ : string) (s : string) : string :=
  match s with
  | EmptyString => EmptyString
  | String c r => if Ascii.eqb c x then by_ ++ r else String c (replaceFirst x by_ r)
  end.

(** [s.replace(/\x/g, by)] for one literal character: every occurrence. *)
Fixpoint replaceAll (x : ascii) (by_ : string) (s : string) : string :=
  match s with
  | EmptyString => EmptyString
  | String c r =>
      if Ascii.eqb c x then by_ ++ replaceAll x by_ r else String c (replaceAll x by_ r)
  end.

(** Lines 55-59. *)
Definition formatEmailForSpeech (email : string) : string :=
  replaceAll "."%char " dot " (replaceFirst "@"%char " at " email).

End Prompts.

(** ** src/config.ts and the constructor of src/vapi-client.ts *)

Module Config.

(** The fields of the configuration that the modelled code reads; an
    optional string is [None] when absent. *)
Record IntroductionAgentConfig : Type := mkConfig {
  enabled : bool;
  vapiApiKey : option string;
  vapiPhoneNumberId : option string;
  defaultToNumber : option string
}.

(** The two variables of [process.env] that the code reads. *)
Record Env : Type := mkEnv {
  VAPI_API_KEY : option string;
  VAPI_PHONE_NUMBER_ID : option string
}.

Record Validation : Type := mkValidation {
  valid : bool;
  errors : list string
}.

Definition DEFAULT_VAPI_PHONE_NUMBER_ID : string :=
  "d230eeda-e422-4f76-b901-a0a6a3fc1cd5".

(** config.ts lines 69-91. *)
Definition validateConfig (env : Env) (config : IntroductionAgentConfig) : Validation :=
  let errors := [] in
  let vapiKey := orElse (vapiApiKey config) (VAPI_API_KEY env) in
  let errors :=
    if negb (truthy vapiKey)
    then (errors ++ ["Missing vapiApiKey or VAPI_API_KEY env var"])%list
    else errors in
  mkValidation (Nat.eqb (List.length errors) 0) errors.

(** config.ts lines 96-102. *)
Definition getVapiApiKey (env : Env) (config : IntroductionAgentConfig)
    : completion string :=
  match orElse (vapiApiKey config) (VAPI_API_KEY env) with
  | Some (String c r) => Normal (String c r)
  | _ => Throws "VAPI API key not configured"
  end.

(** config.ts lines 107-109: the last operand of the [||] chain is a
    non-empty literal, so the value is a string. *)
Definition getPhoneNumberId (env : Env) (config : IntroductionAgentConfig) : string :=
  match orElse (vapiPhoneNumberId config) (VAPI_PHONE_NUMBER_ID env) with
  | Some (String c r) => String c r
  | _ => DEFAULT_VAPI_PHONE_NUMBER_ID
  end.

Record VapiClient : Type := mkClient {
  apiKey : string;
  phoneNumberId : string;
  config : IntroductionAgentConfig
}.

(** vapi-client.ts, the constructor of [VapiClient]. *)
Definition newVapiClient (env : Env) (config : IntroductionAgentConfig)
    : completion VapiClient :=
  andThen (getVapiApiKey env config) (fun apiKey =>
  Normal (mkClient apiKey (getPhoneNumberId env config) config)).

End Config.

(** ** index.ts of the introduction agent *)

Module Plugin.
Import Config.

Record InitiateCallParams : Type := mkParams {
  toNumber : string;
  recipientName : option string;
  customFirstMessage : option string
}.

Record InitiateCallResult : Type := mkResult {
  success : bool;
  callId : option string;
  status : option string;
  error : option string
}.

(** Lines 146-157.  The environment is the one [validation] was computed
    in; the memoised [client] is then the one the constructor gives. *)
Definition getClient (env : Env) (config : IntroductionAgentConfig)
    (validation : Validation) : completion VapiClient :=
  if negb (enabled config) then Throws "Introduction agent is disabled"
  else if negb (valid validation) then Throws (Prompts.join "; " (errors validation))
  else newVapiClient env config.

(** Lines 162-194.  [dial] stands for [vapiClient.initiateCall], the
    request to the calling platform; the log line is not modelled. *)
Definition initiateIntroductionCall (env : Env) (config : IntroductionAgentConfig)
    (dial : VapiClient -> InitiateCallParams -> InitiateCallResult)
    (to recipient customMessage : option string) : completion InitiateCallResult :=
  let validation := validateConfig env config in
  match orElse to (defaultToNumber config) with
  | Some (String c r) =>
      let toNumber := String c r in
      if negb (matchesE164 toNumber)
      then Throws "Phone number must be in E.164 format (e.g., +15551234567)"
      else
        andThen (getClient env config validation) (fun vapiClient =>
        Normal (dial vapiClient (mkParams toNumber recipient customMessage)))
  | _ => Throws "Phone number is required (no default configured)"
  end.

(** What a handler answers: [respond(ok, payload)] of the gateway, or
    the JSON payload of a tool. *)
Inductive Payload : Type :=
| Initiated (callId status : option string) (message : string)
| Failed (error : option string).

(** A parameter of a request: [typeof x === "string" ? x.trim() : undefined]. *)
Definition trimmed (x : option string) : option string :=
  match x with Some s => Some (trim s) | None => None end.

(** Lines 205-252: the gateway method "introduction.call".  The
    parameters are given as strings or [None] for any other value. *)
Definition gatewayCall (env : Env) (config : IntroductionAgentConfig)
    (dial : VapiClient -> InitiateCallParams -> InitiateCallResult)
    (to recipient customMessage : option string) : bool * Payload :=
  if negb (enabled config) then (false, Failed (Some "Introduction agent is disabled"))
  else
    match initiateIntroductionCall env config dial
            (trimmed to) (trimmed recipient) (trimmed customMessage) with
    | Normal result =>
        if success result
        then (true, Initiated (callId result) (status result)
                      "Introduction call initiated. Bella is calling now!")
        else (false, Failed (error result))
    | Throws message => (false, Failed (Some message))
    end.

(** Lines 286-325: the tool "introduction_call"; the payload of its
    JSON answer, without the tip line and without the [success: false]
    entry that goes with the error of a failed call. *)
Definition toolCall (env : Env) (config : IntroductionAgentConfig)
    (dial : VapiClient -> InitiateCallParams -> InitiateCallResult)
    (to recipient customMessage : option string) : Payload :=
  match initiateIntroductionCall env config dial to recipient customMessage with
  | Normal result =>
      if success result
      then Initiated (callId result) (status result)
             "Introduction call initiated! Bella is calling now to introduce itself."
      else Failed (error result)
  | Throws message => Failed (Some message)
  end.

End Plugin.

(** ** make-reservation.mjs: the command line of [main] *)

Module Cli.

(** The object [options]: the latest assignment of a key comes first.
    A value is [None] when the flag was the last argument. *)
Definition Options := list (string * option string).

(** The property names that every object inherits from
    [Object.prototype]. *)
Definition inherited : list string :=
  ["constructor"; "hasOwnProperty"; "isPrototypeOf"; "propertyIsEnumerable";
   "toLocaleString"; "toString"; "valueOf"; "__proto__"; "__defineGetter__";
   "__defineSetter__"; "__lookupGetter__"; "__lookupSetter__"].

Definition isInherited (key : string) : bool := existsb (String.eqb key) inherited.

(** [options[key]] for a key that is not inherited: undefined when the
    key is absent or was given no value.  ([main] reads eight fixed
    keys, none of them inherited; an assignment to an inherited name
    changes no other key.) *)
Fixpoint get (options : Options) (key : string) : option string :=
  match options with
  | [] => None
  | (k, v) :: r => if String.eqb k key then v else get r key
  end.

(** [s.substring(2)] *)
Definition substring2 (s : string) : string :=
  match s with
  | String _ (String _ r) => r
  | _ => EmptyString
  end.

(** Lines 197-205: the loop over the arguments. *)
Fixpoint parseArgs (args : list string) (options : Options) : Options :=
  match args with
  | [] => options
  | a :: rest =>
      if startsWith a "--" then
        let key := substring2 a in
        match rest with
        | [] => (key, None) :: options
        | value :: rest' => parseArgs rest' ((key, Some value) :: options)
        end
      else parseArgs rest options
  end.

Definition required : list string :=
  ["restaurant"; "date"; "time"; "party"; "name"; "phone"].

Definition isHexDigit (c : ascii) : bool :=
  let n := code c in
  (isDigit c || (65 <=? n) && (n <=? 70) || (97 <=? n) && (n <=? 102))%N.

Definition hexValue (c : ascii) : Z :=
  let n := Z.of_N (code c) in
  if isDigit c then n - 48 else if (n <=? 70)%Z then n - 55 else n - 87.

Fixpoint leadingHex (s : string) (acc : Z) : Z :=
  match s with
  | String c r => if isHexDigit c then leadingHex r (16 * acc + hexValue c) else acc
  | EmptyString => acc
  end.

(** The Number that [parseInt] returns.  A double holds every integer
    of magnitude up to 2^53 exactly; above that the result is the
    double, or the infinity, to which the host rounds the value of the
    digits (after the 20th decimal digit it may round as it sees fit),
    and the model records the sign only. *)
Inductive Parsed : Type :=
| Integer (z : Z)
| NegativeZero
| Beyond (negative : bool)
| NotANumber.

(** The Number for the value [mathInt] of a non-empty run of digits. *)
Definition toParsed (negative : bool) (mathInt : Z) : Parsed :=
  if (mathInt =? 0)%Z then (if negative then NegativeZero else Integer 0)
  else if (mathInt <=? 2 ^ 53)%Z then Integer (if negative then - mathInt else mathInt)
  else Beyond negative.

(** [parseInt(x)] without a radix, on a text or undefined: leading white
    space is skipped, a sign is read, a prefix [0x] or [0X] selects base
    16, and the digits up to the first other character give the value;
    NaN when there is no digit. *)
Definition parseIntText (x : option string) : Parsed :=
  match x with
  | None => NotANumber
  | Some s =>
      let s := trimStart s in
      let negative := startsWith s "-" in
      let s := if startsWith s "+" || startsWith s "-" then
                 match s with String _ r => r | EmptyString => s end
               else s in
      if startsWith s "0x" || startsWith s "0X" then
        match substring2 s with
        | String c r =>
            if isHexDigit c then toParsed negative (leadingHex (String c r) 0)
            else NotANumber
        | EmptyString => NotANumber
        end
      else
        match s with
        | String c r =>
            if isDigit c then toParsed negative (leadingDigits (String c r) 0)
            else NotANumber
        | EmptyString => NotANumber
        end
  end.

(** The argument of [makeReservation], lines 231-239. *)
Record Reservation : Type := mkReservation {
  restaurantName : option string;
  location : string;
  date : option string;
  time : option string;
  partySize : Parsed;
  customerName : option string;
  customerPhone : option string
}.

(** What [main] goes on to do with its arguments. *)
Inductive Action : Type :=
| ShowHelp                                (* lines 163-193, exit 0 *)
| CheckStatus (callId : string)           (* lines 208-218 *)
| ReportMissing (missing : list string)   (* lines 224-228, exit 1 *)
| Reserve (request : Reservation).        (* lines 230-239 *)

(** Lines 160-239 of [main], up to the call it makes. *)
Definition main (args : list string) : Action :=
  match args with
  | [] => ShowHelp
  | first :: _ =>
      if String.eqb first "--help" then ShowHelp
      else
        let options := parseArgs args [] in
        match get options "status" with
        | Some (String c r) => CheckStatus (String c r)
        | _ =>
            let missing := filter (fun key => negb (truthy (get options key))) required in
            if (0 <? Z.of_nat (List.length missing))%Z then ReportMissing missing
            else
              Reserve (mkReservation
                (get options "restaurant")
                (match get options "location" with
                 | Some (String c r) => String c r
                 | _ => "near me"
                 end)
                (get options "date")
                (get options "time")
                (parseIntText (get options "party"))
                (get options "name")
                (get options "phone"))
        end
  end.

End Cli.

(** Arguments as the user writes them: a flag with its value, or a word
    that is not a flag. *)
Inductive Item : Type :=
| Pair (key value : string)
| Word (w : string).

Definition render (items : list Item) : list string :=
  flat_map (fun it =>
    match it with
    | Pair key value => ["--" ++ key; value]
    | Word w => [w]
    end) items.

Definition plainWord (it : Item) : Prop :=
  match it with
  | Pair _ _ => True
  | Word w => startsWith w "--" = false
  end.

(** The value of the last pair with key [key], if any. *)
Fixpoint lastValue (key : string) (items : list Item) : option string :=
  match items with
  | [] => None
  | Pair k v :: r =>
      match lastValue key r with
      | Some x => Some x
      | None => if String.eqb k key then Some v else None
      end
  | Word _ :: r => lastValue key r
  end.

(** ** vapi-caller.mjs: what [makeReservationCall] tells about the date *)

Module Caller.

Definition dayOfWeekOf (r : ResolvedDate) : option string := dayOfWeek r.

(** The date entries of [reservationDetails], line 126. *)
Record DateDetails : Type := mkDateDetails {
  date : string;              (* [dateForCall], also the "Date:" line of the prompt *)
  originalDate : string;
  dayOfWeek : option string
}.

(** Lines 69-70 and the date fields of line 126. *)
Definition dateDetails (clock : Z) (date : string) : outcome DateDetails :=
  parsedDate <- parseReservationDate clock date ;;
  let dateForCall := if isValid parsedDate then formatted parsedDate else date in
  Returned (mkDateDetails dateForCall date (dayOfWeekOf parsedDate)).

End Caller.

(** ** make-reservation.mjs: [makeReservation] *)

Module Orchestrator.
Import Lookup.

(** What [findRestaurant] found, as far as [makeReservation] acts on it;
    the address, rating and website are passed on untouched. *)
Record Restaurant : Type := mkRestaurant {
  name : option string;
  phoneNumber : option string
}.

(** What [makeReservationCall] answers. *)
Record CallResult : Type := mkCallResult {
  callId : option string;
  status : option string
}.

(** The parts of the result that depend on the phone number and on the
    call: [restaurant.phone], [call.phoneNumber], [call.callId] and
    [call.status]. *)
Record Made : Type := mkMade {
  restaurantPhone : option string;
  dialled : string;
  madeCallId : option string;
  madeStatus : option string
}.

(** Lines 32-122.  [found] is the outcome of the lookup and [call] that
    of the call request, by phone number and restaurant name, for the
    date, time and party of the request; both [catch] clauses log and
    throw the error again. *)
Definition makeReservation (found : completion Restaurant)
    (call : string -> option string -> completion CallResult) : completion Made :=
  andThen found (fun restaurant =>
  if negb (truthy (phoneNumber restaurant))
  then Throws "Restaurant phone number not available"
  else
    andThen (formatPhoneForCalling (phoneNumber restaurant)) (fun formattedPhone =>
    andThen (call formattedPhone (name restaurant)) (fun callResult =>
    Normal (mkMade (phoneNumber restaurant) formattedPhone
              (callId callResult) (status callResult))))).

End Orchestrator.

(** ** The calendar *)

Lemma DaysInYear_cases y :
  (DaysInYear y = 366 /\ y mod 4 = 0 /\ (y mod 100 <> 0 \/ y mod 400 = 0)) \/
  (DaysInYear y = 365 /\ (y mod 4 <> 0 \/ (y mod 100 = 0 /\ y mod 400 <> 0))).
Proof.
  unfold DaysInYear.
  destruct (Z.eqb_spec (y mod 4) 0); destruct (Z.eqb_spec (y mod 100) 0);
  destruct (Z.eqb_spec (y mod 400) 0); cbn [negb]; tauto.
Qed.

Lemma DayFromYear_succ y : DayFromYear (y + 1) = DayFromYear y + DaysInYear y.
Proof.
  destruct (DaysInYear_cases y) as [(E & H)|(E & H)]; rewrite E; clear E;
  unfold DayFromYear; Z.div_mod_to_equations; lia.
Qed.

Lemma YearFromDay_spec d :
  DayFromYear (YearFromDay d) <= d < DayFromYear (YearFromDay d + 1).
Proof.
  unfold YearFromDay.
  set (y := 1970 + 400 * d / 146097).
  destruct (Z.ltb_spec d (DayFromYear y)) as [H1|H1].
  - replace (y - 1 + 1) with y by lia. split; [|exact H1].
    subst y. unfold DayFromYear in *. Z.div_mod_to_equations. lia.
  - destruct (Z.leb_spec (DayFromYear (y + 1)) d) as [H2|H2].
    + split; [exact H2|].
      subst y. unfold DayFromYear in *. Z.div_mod_to_equations. lia.
    + lia.
Qed.

Lemma DayFromYear_mono a b : a <= b -> DayFromYear a <= DayFromYear b.
Proof. unfold DayFromYear. intros H. Z.div_mod_to_equations. lia. Qed.

Lemma YearFromDay_unique y d :
  DayFromYear y <= d < DayFromYear (y + 1) -> YearFromDay d = y.
Proof.
  intros [Hlo Hhi].
  destruct (YearFromDay_spec d) as [Slo Shi].
  destruct (Z.lt_trichotomy (YearFromDay d) y) as [Hlt|[Heq|Hgt]]; [exfalso|exact Heq|exfalso].
  - pose proof (DayFromYear_mono (YearFromDay d + 1) y ltac:(lia)). lia.
  - pose proof (DayFromYear_mono (y + 1) (YearFromDay d) ltac:(lia)). lia.
Qed.

Lemma InLeapYear_cases d :
  (InLeapYear d = 1 /\ DaysInYear (YearFromDay d) = 366) \/
  (InLeapYear d = 0 /\ DaysInYear (YearFromDay d) = 365).
Proof.
  unfold InLeapYear.
  destruct (DaysInYear_cases (YearFromDay d)) as [(E & _)|(E & _)]; rewrite E; simpl; auto.
Qed.

Lemma DayWithinYear_range d :
  0 <= DayWithinYear d < 365 + InLeapYear d.
Proof.
  unfold DayWithinYear.
  pose proof (YearFromDay_spec d) as S.
  rewrite DayFromYear_succ in S.
  destruct (InLeapYear_cases d) as [(E & F)|(E & F)]; rewrite E; lia.
Qed.

(** Splits the table of [MonthFromDay] into its twelve rows. *)
Ltac month_rows :=
  repeat match goal with
         | |- context [(?a <? ?b)%Z] => destruct (Z.ltb_spec a b)
         end.

Lemma MonthFromDay_range d : 0 <= MonthFromDay d <= 11.
Proof. unfold MonthFromDay. month_rows; lia. Qed.

Lemma DateFromDay_range d : 1 <= DateFromDay d <= 31.
Proof.
  unfold DateFromDay, MonthFromDay.
  pose proof (DayWithinYear_range d) as W.
  destruct (InLeapYear_cases d) as [(E & _)|(E & _)]; rewrite E in *;
    month_rows; cbn [DaysBeforeMonth]; lia.
Qed.

Lemma WeekDay_range d : 0 <= WeekDay d <= 6.
Proof. unfold WeekDay. pose proof (Z.mod_pos_bound (d + 4) 7). lia. Qed.

(** Days to civil date and back: rebuilding a day from its own year,
    month and date, with [k] extra days, moves it by [k] days. *)
Lemma MakeDay_fields d k :
  MakeDay (YearFromDay d) (MonthFromDay d) (DateFromDay d + k) = d + k.
Proof.
  pose proof (MonthFromDay_range d) as M.
  unfold MakeDay.
  rewrite (Z.div_small (MonthFromDay d) 12), (Z.mod_small (MonthFromDay d) 12) by lia.
  rewrite Z.add_0_r. fold (InLeapYear d).
  unfold DateFromDay, DayWithinYear. lia.
Qed.

Lemma leapFlag_cases y :
  (leapFlag y = 1 /\ DaysInYear y = 366) \/ (leapFlag y = 0 /\ DaysInYear y = 365).
Proof.
  unfold leapFlag.
  destruct (DaysInYear_cases y) as [(E & _)|(E & _)]; rewrite E; simpl; auto.
Qed.

Lemma MakeDay_in_year y m dt :
  0 <= m <= 11 -> MakeDay y m dt = DayFromYear y + DaysBeforeMonth (leapFlag y) m + dt - 1.
Proof.
  intros M. unfold MakeDay.
  rewrite (Z.div_small m 12), (Z.mod_small m 12) by lia.
  rewrite Z.add_0_r. reflexivity.
Qed.

(** Twelve cases for a month number known to lie in 0..11. *)
Ltac month_cases m H :=
  assert (m = 0 \/ m = 1 \/ m = 2 \/ m = 3 \/ m = 4 \/ m = 5 \/ m = 6 \/
          m = 7 \/ m = 8 \/ m = 9 \/ m = 10 \/ m = 11) as H by lia;
  repeat destruct H as [H|H]; subst m.

(** A date of at most 31 in a month 0..11 stays within the year. *)
Lemma YearFromDay_MakeDay y m dt :
  0 <= m <= 11 -> 1 <= dt <= 31 -> YearFromDay (MakeDay y m dt) = y.
Proof.
  intros M D. rewrite MakeDay_in_year by exact M.
  apply YearFromDay_unique. rewrite DayFromYear_succ.
  destruct (leapFlag_cases y) as [(E & F)|(E & F)]; rewrite E, F;
    month_cases m Hm; cbn [DaysBeforeMonth]; lia.
Qed.

(** Civil date to days and back, for a real calendar date. *)
Lemma civil_of_MakeDay y m dt :
  0 <= m <= 11 -> 1 <= dt <= DaysInMonth (leapFlag y) m ->
  YearFromDay (MakeDay y m dt) = y /\
  MonthFromDay (MakeDay y m dt) = m /\
  DateFromDay (MakeDay y m dt) = dt.
Proof.
  intros M D.
  assert (Y : YearFromDay (MakeDay y m dt) = y).
  { apply YearFromDay_MakeDay; [exact M|].
    destruct (leapFlag_cases y) as [(E & _)|(E & _)]; rewrite E in D;
      month_cases m Hm; cbn [DaysInMonth] in D; lia. }
  split; [exact Y|].
  assert (Mo : MonthFromDay (MakeDay y m dt) = m).
  { unfold MonthFromDay, DayWithinYear, InLeapYear. rewrite Y. fold (leapFlag y).
    rewrite MakeDay_in_year by exact M.
    destruct (leapFlag_cases y) as [(E & _)|(E & _)]; rewrite E in *;
      month_cases m Hm; cbn [DaysBeforeMonth DaysInMonth] in *; month_rows; lia. }
  split; [exact Mo|].
  unfold DateFromDay, DayWithinYear, InLeapYear. rewrite Mo, Y. fold (leapFlag y).
  rewrite MakeDay_in_year by exact M. lia.
Qed.

(** ** Lower-casing and trimming *)

Ltac each_char c := destruct c as [[] [] [] [] [] [] [] []].

Lemma isWhiteSpace_lowerChar c : isWhiteSpace (lowerChar c) = isWhiteSpace c.
Proof. each_char c; reflexivity. Qed.

Lemma toLowerCase_app a b : toLowerCase (a ++ b) = toLowerCase a ++ toLowerCase b.
Proof. induction a as [|c a IH]; simpl; [reflexivity|]. now rewrite IH. Qed.

Lemma blank_toLowerCase s : blank (toLowerCase s) = blank s.
Proof.
  induction s as [|c s IH]; simpl; [reflexivity|].
  now rewrite isWhiteSpace_lowerChar, IH.
Qed.

Lemma caseVariant_toLowerCase s t :
  caseVariant s t = true -> toLowerCase s = toLowerCase t.
Proof.
  revert t. induction s as [|a s IH]; intros [|b t] H; simpl in *; try discriminate.
  - reflexivity.
  - apply andb_true_iff in H as [Hc Hs].
    apply Ascii.eqb_eq in Hc. rewrite Hc. f_equal. now apply IH.
Qed.

Lemma trimStart_blank s : blank s = true -> trimStart s = "".
Proof.
  induction s as [|c s IH]; simpl; [reflexivity|].
  intros H. apply andb_true_iff in H as [Hc Hs]. rewrite Hc. now apply IH.
Qed.

Lemma trimStart_app_blank a s : blank a = true -> trimStart (a ++ s) = trimStart s.
Proof.
  induction a as [|c a IH]; simpl; [reflexivity|].
  intros H. apply andb_true_iff in H as [Hc Ha]. rewrite Hc. now apply IH.
Qed.

Lemma trimEnd_blank s : blank s = true -> trimEnd s = "".
Proof.
  induction s as [|c s IH]; simpl; [reflexivity|].
  intros H. apply andb_true_iff in H as [Hc Hs]. rewrite (IH Hs), Hc. reflexivity.
Qed.

Lemma trimEnd_app_blank s b : blank b = true -> trimEnd (s ++ b) = trimEnd s.
Proof.
  intros Hb. induction s as [|c s IH]; simpl.
  - now apply trimEnd_blank.
  - now rewrite IH.
Qed.

(** Trailing blanks do not survive [trim], whatever comes first. *)
Lemma trimEnd_trimStart_app_blank s b :
  blank b = true -> trimEnd (trimStart (s ++ b)) = trimEnd (trimStart s).
Proof.
  intros Hb. induction s as [|c s IH]; simpl.
  - rewrite (trimStart_blank b Hb). reflexivity.
  - destruct (isWhiteSpace c); [exact IH|].
    change (String c (s ++ b)) with (String c s ++ b).
    now apply trimEnd_app_blank.
Qed.

Lemma trim_padding pre s post :
  blank pre = true -> blank post = true -> trim (pre ++ s ++ post) = trim s.
Proof.
  intros Hpre Hpost. unfold trim.
  rewrite trimStart_app_blank by exact Hpre.
  now apply trimEnd_trimStart_app_blank.
Qed.

(** The matching input of line 9 ignores letter case and padding. *)
Lemma input_normal_form pre s s' post :
  blank pre = true -> blank post = true -> caseVariant s s' = true ->
  trim (toLowerCase (pre ++ s' ++ post)) = trim (toLowerCase s).
Proof.
  intros Hpre Hpost Hv.
  rewrite !toLowerCase_app, <- (caseVariant_toLowerCase _ _ Hv).
  apply trim_padding; now rewrite blank_toLowerCase.
Qed.

(** ** The matcher: where a result comes from *)

Lemma lowerChar_canonicalize c : lowerChar (canonicalize c) = lowerChar c.
Proof. each_char c; reflexivity. Qed.

Lemma sameChar_lowerChar a c :
  sameChar true a c = true -> lowerChar a = lowerChar c.
Proof.
  unfold sameChar. intros H. apply Ascii.eqb_eq in H.
  now rewrite <- (lowerChar_canonicalize a), H, lowerChar_canonicalize.
Qed.

(** A literal matched under the [i] flag: the matched text is the
    literal up to letter case. *)
Lemma eat_ignoreCase w s t rest :
  eat true w s = Some (t, rest) -> toLowerCase t = toLowerCase w.
Proof.
  revert s t rest. induction w as [|a w IH]; intros s t rest H; cbn [eat] in H.
  - now injection H as <- _.
  - destruct s as [|c s]; [discriminate|].
    destruct (sameChar true a c) eqn:E; [|discriminate].
    destruct (eat true w s) as [[t' r']|] eqn:E'; [|discriminate].
    injection H as <- _. simpl.
    now rewrite (IH _ _ _ E'), (sameChar_lowerChar _ _ E).
Qed.

Section Origin.
Context {A : Type}.
Implicit Types (k : string -> string -> option A).

Lemma star_origin p s : forall k r,
  star p s k = Some r -> exists t s', k t s' = Some r.
Proof.
  induction s as [|c s IH]; simpl; intros k r H; [eauto|].
  destruct (p c); [|eauto].
  destruct (star p s _) eqn:E; [|eauto].
  injection H as ->. apply IH in E as (t & s' & E). eauto.
Qed.

Lemma plus_origin p s k r :
  plus p s k = Some r -> exists t s', k t s' = Some r.
Proof.
  destruct s as [|c s]; simpl; [discriminate|].
  destruct (p c); [|discriminate].
  intros H. apply star_origin in H as (t & s' & H). eauto.
Qed.

(** [p{1,2}] matches a non-empty text that starts with a [p]. *)
Lemma upto2_origin p s k r :
  upto2 p s k = Some r ->
  exists c q s', p c = true /\ k (String c q) s' = Some r.
Proof.
  destruct s as [|c s]; simpl; [discriminate|].
  destruct (p c) eqn:Pc; [|discriminate].
  destruct s as [|c2 s]; [eauto|].
  destruct (p c2); [|eauto].
  destruct (k _ s) eqn:E; [|eauto].
  intros H. injection H as ->. eauto.
Qed.
End Origin.

Lemma words_origin ic ws s m k res :
  run ic (words ws) s m k = Some res ->
  exists w t rest, In w ws /\ eat ic w s = Some (t, rest) /\ k t rest m = Some res.
Proof.
  induction ws as [|w ws IH]; simpl; [discriminate|].
  destruct (eat ic w s) as [[t rest]|] eqn:E.
  - destruct (k t rest m) eqn:K.
    + intros H. injection H as ->. exists w, t, rest. auto.
    + intros H. destruct (IH H) as (w' & t' & rest' & ? & ? & ?).
      exists w', t', rest'. auto.
  - intros H. destruct (IH H) as (w' & t' & rest' & ? & ? & ?).
    exists w', t', rest'. auto.
Qed.

(** Every result of the matcher is a result of its continuation. *)
Lemma run_origin ic r : forall s m k res,
  run ic r s m k = Some res -> exists t s' m', k t s' m' = Some res.
Proof.
  induction r as [w|p|p|p|a IHa b IHb|a IHa b IHb|a IHa|i a IHa| |];
    intros s m k res H; simpl in H.
  - destruct (eat ic w s) as [[t rest]|]; [eauto|discriminate].
  - destruct s as [|c s]; [discriminate|]. destruct (p c); [eauto|discriminate].
  - apply plus_origin in H as (t & s' & H). eauto.
  - apply upto2_origin in H as (c & q & s' & _ & H). eauto.
  - destruct (run ic a s m k) eqn:E.
    + injection H as ->. eapply IHa; eassumption.
    + eapply IHb; eassumption.
  - apply IHa in H as (t1 & s1 & m1 & H). apply IHb in H as (t2 & s2 & m2 & H). eauto.
  - destruct (run ic a s m k) eqn:E.
    + injection H as ->. eapply IHa; eassumption.
    + eauto.
  - apply IHa in H as (t1 & s1 & m1 & H). eauto.
  - destruct s; [eauto|discriminate].
  - discriminate.
Qed.

(** ** The matcher: a more permissive continuation keeps a match *)

Section Mono.
Context {A : Type}.
Implicit Types (k : string -> string -> option A).

Lemma star_mono p s : forall k k',
  (forall t u, k t u <> None -> k' t u <> None) ->
  star p s k <> None -> star p s k' <> None.
Proof.
  induction s as [|c s IH]; simpl; intros k k' Hk; [apply Hk|].
  destruct (p c); [|apply Hk].
  destruct (star p s (fun t rest => k (String c t) rest)) eqn:E.
  - intros _. destruct (star p s (fun t rest => k' (String c t) rest)) eqn:E';
      [discriminate|].
    exfalso. revert E'. apply (IH (fun t rest => k (String c t) rest)).
    + intros t u. apply Hk.
    + now rewrite E.
  - intros H. destruct (star p s (fun t rest => k' (String c t) rest));
      [discriminate|]. now apply Hk.
Qed.

Lemma plus_mono p s k k' :
  (forall t u, k t u <> None -> k' t u <> None) ->
  plus p s k <> None -> plus p s k' <> None.
Proof.
  intros Hk. destruct s as [|c s]; simpl; [auto|].
  destruct (p c); [|auto]. apply star_mono. intros t u. apply Hk.
Qed.

Lemma upto2_mono p s k k' :
  (forall t u, k t u <> None -> k' t u <> None) ->
  upto2 p s k <> None -> upto2 p s k' <> None.
Proof.
  intros Hk. destruct s as [|c s]; simpl; [auto|].
  destruct (p c); [|auto].
  destruct s as [|c2 s]; [apply Hk|].
  destruct (p c2); [|apply Hk].
  destruct (k _ s) eqn:E.
  - intros _. destruct (k' _ s) eqn:E'; [discriminate|].
    exfalso. revert E'. apply Hk. now rewrite E.
  - intros H. destruct (k' _ s); [discriminate|]. now apply Hk.
Qed.
End Mono.

Lemma run_mono ic r : forall s m k k',
  (forall t u n, k t u n <> None -> k' t u n <> None) ->
  run ic r s m k <> None -> run ic r s m k' <> None.
Proof.
  induction r as [w|p|p|p|a IHa b IHb|a IHa b IHb|a IHa|i a IHa| |];
    intros s m k k' Hk; simpl.
  - destruct (eat ic w s) as [[t rest]|]; [apply Hk|auto].
  - destruct s as [|c s]; [auto|]. destruct (p c); [apply Hk|auto].
  - apply plus_mono. intros t u. apply Hk.
  - apply upto2_mono. intros t u. apply Hk.
  - destruct (run ic a s m k) eqn:E.
    + intros _. destruct (run ic a s m k') eqn:E'; [discriminate|].
      exfalso. apply (IHa s m k k' Hk); [now rewrite E|exact E'].
    + intros H. destruct (run ic a s m k'); [discriminate|]. now apply (IHb s m k k').
  - apply IHa. intros t u n. apply IHb. intros t' u' n'. apply Hk.
  - destruct (run ic a s m k) eqn:E.
    + intros _. destruct (run ic a s m k') eqn:E'; [discriminate|].
      exfalso. apply (IHa s m k k' Hk); [now rewrite E|exact E'].
    + intros H. destruct (run ic a s m k'); [discriminate|]. now apply Hk.
  - apply IHa. intros t u n. apply Hk.
  - destruct s; [apply Hk|auto].
  - auto.
Qed.

Lemma search_origin R s m :
  search R s = Some m -> exists t, matchAt R t = Some m.
Proof.
  induction s as [|c s IH]; simpl.
  - destruct (matchAt R "") eqn:E; [|discriminate]. intros H. injection H as ->. eauto.
  - destruct (matchAt R (String c s)) eqn:E.
    + intros H. injection H as ->. eauto.
    + exact IH.
Qed.

Lemma search_found R s : matchAt R s <> None -> search R s <> None.
Proof.
  destruct s; simpl; destruct (matchAt R _); congruence.
Qed.

Lemma search_at_start R s m : matchAt R s = Some m -> search R s = Some m.
Proof. intros H. destruct s; simpl; now rewrite H. Qed.

(** ** Inversion of the pattern shapes used by the source *)

Lemma run_Cat ic a b s m k :
  run ic (Cat a b) s m k =
  run ic a s m (fun t1 s1 m1 => run ic b s1 m1 (fun t2 s2 m2 => k (t1 ++ t2) s2 m2)).
Proof. reflexivity. Qed.

Lemma run_Cat_Plus ic p b s m k res :
  run ic (Cat (Plus p) b) s m k = Some res ->
  exists t1 s', run ic b s' m (fun t2 s2 m2 => k (t1 ++ t2) s2 m2) = Some res.
Proof. cbn [run]. intros H. apply plus_origin in H as (t & s' & H). eauto. Qed.

Lemma run_Cat_Cap_Upto2 ic i p b s m k res :
  run ic (Cat (Cap i (Upto2 p)) b) s m k = Some res ->
  exists c q s', p c = true /\
    run ic b s' ((i, String c q) :: m)
        (fun t2 s2 m2 => k (String c q ++ t2) s2 m2) = Some res.
Proof.
  cbn [run]. intros H.
  apply upto2_origin in H as (c & q & s' & Pc & H). eauto.
Qed.

Lemma run_Cat_Cap_words ic i ws b s m k res :
  run ic (Cat (Cap i (words ws)) b) s m k = Some res ->
  exists w t rest, In w ws /\ eat ic w s = Some (t, rest) /\
    run ic b rest ((i, t) :: m) (fun t2 s2 m2 => k (t ++ t2) s2 m2) = Some res.
Proof. cbn [run]. intros H. now apply words_origin in H. Qed.

Lemma run_Cap_words ic i ws s m k res :
  run ic (Cap i (words ws)) s m k = Some res ->
  exists w t rest, In w ws /\ eat ic w s = Some (t, rest) /\
                   k t rest ((i, t) :: m) = Some res.
Proof. cbn [run]. intros H. now apply words_origin in H. Qed.

Lemma run_Cat_OneOf ic p b s m k res :
  run ic (Cat (OneOf p) b) s m k = Some res ->
  exists t1 s', run ic b s' m (fun t2 s2 m2 => k (t1 ++ t2) s2 m2) = Some res.
Proof.
  cbn [run]. destruct s as [|c s]; [discriminate|].
  destruct (p c); [eauto|discriminate].
Qed.

Lemma accept_accepting : accepting accept.
Proof. intros t s m. reflexivity. Qed.

Lemma accepting_after k t1 :
  accepting k -> accepting (fun t2 s2 m2 => k (t1 ++ t2) s2 m2).
Proof. intros H t s m. apply H. Qed.

Lemma run_Eos ic s m k res :
  accepting k -> run ic Eos s m k = Some res -> s = "" /\ res = m.
Proof.
  intros Hk. cbn [run]. destruct s; [|discriminate].
  rewrite Hk. intros H. now injection H as <-.
Qed.

Lemma run_optional_suffix ic i ws s m k res :
  accepting k ->
  run ic (Cat (Opt (Cap i (words ws))) Eos) s m k = Some res ->
  res = m \/ exists t, res = (i, t) :: m.
Proof.
  intros Hk. rewrite run_Cat. cbn [run].
  destruct (run ic (words ws) s m _) eqn:E.
  - intros H. injection H as ->.
    apply words_origin in E as (w & t & r & _ & _ & E).
    destruct r; [|discriminate]. rewrite Hk in E. injection E as <-. right. eauto.
  - destruct s; [|discriminate]. rewrite Hk. intros H. injection H as <-. now left.
Qed.

(** Breaks a membership in a literal list into its cases. *)
Ltac each_word H :=
  repeat (destruct H as [H|H]; [subst|]); [..|destruct H].

Lemma weekdayWords_index w :
  In w weekdayWords ->
  exists i, indexOf days (toLowerCase w) = i /\ (0 <= i <= 6)%Z /\
            nth_error days (Z.to_nat i) = Some w.
Proof.
  intros H. unfold weekdayWords in H.
  each_word H; eexists; (split; [vm_compute; reflexivity|split; [lia|reflexivity]]).
Qed.

Lemma monthWords_property w :
  In w monthWords ->
  exists i, property months (toLowerCase w) = Num i /\ (0 <= i <= 11)%Z.
Proof.
  intros H. unfold monthWords in H.
  each_word H; eexists; (split; [vm_compute; reflexivity|lia]).
Qed.

(** ** Dates held by [today] and moved by [setDate] *)

Lemma todayOf_clock clock : todayOf (DateAt clock) = DateAt (referenceDay clock).
Proof. reflexivity. Qed.

Lemma setDate_add z k :
  setDate (DateAt z) (add (getDate (DateAt z)) (Num k)) = DateAt (z + k).
Proof. cbn [setDate getDate add]. f_equal. apply MakeDay_fields. Qed.

Lemma daysAhead_plain t c :
  0 <= t <= 6 -> 0 <= c <= 6 ->
  1 <= daysAhead false t c <= 7 /\ (t = c -> daysAhead false t c = 7).
Proof.
  intros Ht Hc. unfold daysAhead. rewrite orb_false_r. cbn [andb].
  destruct (Z.leb_spec (t - c) 0); lia.
Qed.

Lemma daysAhead_next t c :
  0 <= t <= 6 -> 0 <= c <= 6 -> daysAhead true t c = daysAhead false t c + 7.
Proof.
  intros Ht Hc. unfold daysAhead. rewrite orb_true_r, orb_false_r. cbn [andb].
  destruct (Z.leb_spec (t - c + 7) 7); destruct (Z.leb_spec (t - c) 0); lia.
Qed.

Lemma daysAheadThis_range t c :
  0 <= t <= 6 -> 0 <= c <= 6 ->
  0 <= daysAheadThis t c <= 6 /\ (t = c -> daysAheadThis t c = 0).
Proof.
  intros Ht Hc. unfold daysAheadThis. destruct (Z.ltb_spec (t - c) 0); lia.
Qed.

Lemma WeekDay_shift z k t :
  0 <= t <= 6 -> (k - (t - WeekDay z)) mod 7 = 0 -> WeekDay (z + k) = t.
Proof.
  unfold WeekDay. intros Ht H. Z.div_mod_to_equations. lia.
Qed.

Lemma WeekDay_daysAhead isNext z t :
  0 <= t <= 6 -> WeekDay (z + daysAhead isNext t (WeekDay z)) = t.
Proof.
  intros Ht. pose proof (WeekDay_range z) as Hc.
  apply WeekDay_shift; [exact Ht|].
  unfold daysAhead.
  destruct isNext; rewrite ?orb_true_r, ?orb_false_r; cbn [andb];
    repeat match goal with |- context [(?a <=? ?b)%Z] => destruct (Z.leb_spec a b) end;
    match goal with |- ?e mod 7 = 0 =>
      first [ replace e with 0 by lia | replace e with (1 * 7) by lia
            | replace e with (2 * 7) by lia ] end; reflexivity.
Qed.

Lemma WeekDay_daysAheadThis z t :
  0 <= t <= 6 -> WeekDay (z + daysAheadThis t (WeekDay z)) = t.
Proof.
  intros Ht. pose proof (WeekDay_range z) as Hc.
  apply WeekDay_shift; [exact Ht|].
  unfold daysAheadThis. destruct (Z.ltb_spec (t - WeekDay z) 0);
    match goal with |- ?e mod 7 = 0 =>
      first [ replace e with 0 by lia | replace e with (1 * 7) by lia ] end; reflexivity.
Qed.

(** ** Lines 19-38 on any input that passes the test *)

Lemma accept_total t u n : accept t u n <> None.
Proof. discriminate. Qed.

(** When the anchored pattern of line 19 matches, so does the pattern of
    line 21, and its second group holds a weekday word. *)
Lemma nextWeekday_match input :
  test reNextWeekdayTest input = true ->
  exists m g w, exec reNextWeekday input = Some m /\ group m 2 = Some g /\
                In w weekdayWords /\ toLowerCase g = toLowerCase w.
Proof.
  intros T.
  assert (F : search reNextWeekday input <> None).
  { apply search_found. unfold test, exec in T. cbn [fromStart reNextWeekdayTest] in T.
    unfold matchAt in *. cbn [body ignoreCase reNextWeekdayTest reNextWeekday] in *.
    destruct (run true _ input [] accept) eqn:E in T; [|discriminate].
    assert (E' : run true (Cat (Opt (Cap 1 (Cat (Lit "next") (Plus isWhiteSpace))))
                   (Cat (Cap 2 (words weekdayWords)) Eos)) input [] accept <> None)
      by (rewrite E; discriminate).
    revert E'. rewrite !run_Cat. apply run_mono. intros t u n.
    rewrite run_Cat. apply run_mono. intros t' u' n' _. apply accept_total. }
  unfold exec. cbn [fromStart reNextWeekday].
  destruct (search reNextWeekday input) as [m|] eqn:S; [clear F|congruence].
  apply search_origin in S as (x & S).
  unfold matchAt in S. cbn [body ignoreCase reNextWeekday] in S.
  rewrite run_Cat in S.
  apply run_origin in S as (t1 & s' & m' & S).
  apply run_Cap_words in S as (w & t & rest & Hw & He & S).
  injection S as <-.
  exists ((2%nat, t) :: m'), t, w.
  repeat split; [exact Hw|exact (eat_ignoreCase _ _ _ _ He)].
Qed.

Lemma thisWeekday_match input :
  test reThisWeekdayTest input = true ->
  exists m g w, exec reThisWeekday input = Some m /\ group m 1 = Some g /\
                In w weekdayWords /\ toLowerCase g = toLowerCase w.
Proof.
  intros T.
  assert (F : search reThisWeekday input <> None).
  { apply search_found. unfold test, exec in T. cbn [fromStart reThisWeekdayTest] in T.
    unfold matchAt in *. cbn [body ignoreCase reThisWeekdayTest reThisWeekday] in *.
    destruct (run true _ input [] accept) eqn:E in T; [|discriminate].
    assert (E' : run true (Cat (Lit "this") (Cat (Plus isWhiteSpace)
                   (Cat (Cap 1 (words weekdayWords)) Eos))) input [] accept <> None)
      by (rewrite E; discriminate).
    revert E'. rewrite !run_Cat. apply run_mono. intros t1 u1 n1.
    rewrite !run_Cat. apply run_mono. intros t2 u2 n2.
    rewrite run_Cat. apply run_mono. intros t3 u3 n3 _. apply accept_total. }
  unfold exec. cbn [fromStart reThisWeekday].
  destruct (search reThisWeekday input) as [m|] eqn:S; [clear F|congruence].
  apply search_origin in S as (x & S).
  unfold matchAt in S. cbn [body ignoreCase reThisWeekday] in S.
  rewrite run_Cat in S.
  apply run_origin in S as (t1 & s1 & m1 & S).
  apply run_Cat_Plus in S as (t2 & s2 & S).
  apply run_Cap_words in S as (w & t & rest & Hw & He & S).
  injection S as <-.
  exists ((1%nat, t) :: m1), t, w.
  repeat split; [exact Hw|exact (eat_ignoreCase _ _ _ _ He)].
Qed.

Lemma nextWeekdayBranch_eval z input m g :
  exec reNextWeekday input = Some m -> group m 2 = Some g ->
  nextWeekdayBranch (DateAt z) input =
  Returned (DateAt (z + daysAhead (truthy (group m 1))
                                  (indexOf days (toLowerCase g)) (WeekDay z))).
Proof.
  intros Hm Hg.
  unfold nextWeekdayBranch. rewrite Hm. cbn [deref bind]. rewrite Hg. cbn [deref bind].
  cbn [getDay sub le add]. unfold daysAhead.
  destruct ((_ <=? 0)%Z || truthy (group m 1)); cbn [le add];
    destruct (truthy (group m 1) && _); apply f_equal, setDate_add.
Qed.

Lemma thisWeekdayBranch_eval z input m g :
  exec reThisWeekday input = Some m -> group m 1 = Some g ->
  thisWeekdayBranch (DateAt z) input =
  Returned (DateAt (z + daysAheadThis (indexOf days (toLowerCase g)) (WeekDay z))).
Proof.
  intros Hm Hg.
  unfold thisWeekdayBranch. rewrite Hm. cbn [deref bind]. rewrite Hg. cbn [deref bind].
  cbn [getDay sub less add]. unfold daysAheadThis.
  destruct (_ <? 0)%Z; apply f_equal, setDate_add.
Qed.

Lemma nextWeekdayBranch_any z input :
  test reNextWeekdayTest input = true ->
  exists isNext t, 0 <= t <= 6 /\
    nextWeekdayBranch (DateAt z) input =
    Returned (DateAt (z + daysAhead isNext t (WeekDay z))).
Proof.
  intros T.
  destruct (nextWeekday_match input T) as (m & g & w & Hm & Hg & Hw & Hl).
  destruct (weekdayWords_index w Hw) as (t & Ht & Hr & _).
  exists (truthy (group m 1)), t. split; [exact Hr|].
  now rewrite (nextWeekdayBranch_eval z input m g Hm Hg), Hl, Ht.
Qed.

Lemma thisWeekdayBranch_any z input :
  test reThisWeekdayTest input = true ->
  exists t, 0 <= t <= 6 /\
    thisWeekdayBranch (DateAt z) input =
    Returned (DateAt (z + daysAheadThis t (WeekDay z))).
Proof.
  intros T.
  destruct (thisWeekday_match input T) as (m & g & w & Hm & Hg & Hw & Hl).
  destruct (weekdayWords_index w Hw) as (t & Ht & Hr & _).
  exists t. split; [exact Hr|].
  now rewrite (thisWeekdayBranch_eval z input m g Hm Hg), Hl, Ht.
Qed.

(** ** Lines 40-54 on any input *)

Lemma reMonthDay_groups input m :
  exec reMonthDay input = Some m ->
  exists g w c q, group m 1 = Some g /\ In w monthWords /\
                  toLowerCase g = toLowerCase w /\
                  group m 2 = Some (String c q) /\ isDigit c = true.
Proof.
  unfold exec. cbn [fromStart reMonthDay]. unfold matchAt.
  cbn [body ignoreCase reMonthDay]. intros H.
  apply run_Cat_Cap_words in H as (w & t & rest & Hw & He & H).
  apply run_Cat_Plus in H as (t2 & s2 & H).
  apply run_Cat_Cap_Upto2 in H as (c & q & s3 & Pc & H).
  exists t, w, c, q.
  apply run_optional_suffix in H as [->|(x & ->)];
    [cbn [group Nat.eqb]; repeat split;
       [exact Hw|exact (eat_ignoreCase _ _ _ _ He)|exact Pc]..|].
  repeat apply accepting_after. apply accept_accepting.
Qed.

Lemma reNumeric_groups input m :
  exec reNumeric input = Some m ->
  exists c1 q1 c2 q2, group m 1 = Some (String c1 q1) /\ isDigit c1 = true /\
                      group m 2 = Some (String c2 q2) /\ isDigit c2 = true.
Proof.
  unfold exec. cbn [fromStart reNumeric]. unfold matchAt.
  cbn [body ignoreCase reNumeric]. intros H.
  apply run_Cat_Cap_Upto2 in H as (c1 & q1 & s1 & P1 & H).
  apply run_Cat_OneOf in H as (t2 & s2 & H).
  apply run_Cat_Cap_Upto2 in H as (c2 & q2 & s3 & P2 & H).
  apply run_Eos in H as (_ & ->);
    [|repeat apply accepting_after; apply accept_accepting].
  exists c1, q1, c2, q2. cbn [group Nat.eqb]. auto.
Qed.

Lemma parseInt_digit c q :
  isDigit c = true -> parseInt (Some (String c q)) = Num (leadingDigits (String c q) 0).
Proof. intros H. unfold parseInt. now rewrite H. Qed.

Lemma rollForward_valid today t :
  isDateAt t = true -> isDateAt (rollForward today t) = true.
Proof.
  destruct t as [d|]; [intros _|discriminate].
  unfold rollForward. destruct (lt _ _); reflexivity.
Qed.

(** The month-and-day branch never throws, never builds an Invalid Date,
    and assigns [targetDate] exactly when one of its two patterns
    matches. *)
Lemma monthDayBranch_any clock today input :
  exists o, monthDayBranch (DateAt clock) today input = Returned o /\
    match o with
    | None => exec reMonthDay input = None /\ exec reNumeric input = None
    | Some t => isDateAt t = true /\
                (exec reMonthDay input <> None \/ exec reNumeric input <> None)
    end.
Proof.
  unfold monthDayBranch.
  destruct (exec reNumeric input) as [m2|] eqn:E2.
  - destruct (reNumeric_groups _ _ E2) as (c1 & q1 & c2 & q2 & G1 & P1 & G2 & P2).
    rewrite G1, G2, !parseInt_digit by assumption.
    destruct (exec reMonthDay input) as [m1|] eqn:E1.
    + destruct (reMonthDay_groups _ _ E1) as (g & w & c & q & H1 & Hw & Hl & H2 & Pc).
      rewrite H1. cbn [deref bind].
      eexists. split; [reflexivity|]. split; [|right; discriminate].
      now apply rollForward_valid.
    + cbn [bind]. eexists. split; [reflexivity|]. split; [|right; discriminate].
      now apply rollForward_valid.
  - destruct (exec reMonthDay input) as [m1|] eqn:E1.
    + destruct (reMonthDay_groups _ _ E1) as (g & w & c & q & H1 & Hw & Hl & H2 & Pc).
      rewrite H1, H2. cbn [deref bind]. rewrite Hl, parseInt_digit by assumption.
      destruct (monthWords_property w Hw) as (i & -> & _).
      eexists. split; [reflexivity|]. split; [|left; discriminate].
      now apply rollForward_valid.
    + cbn [bind]. eexists. split; [reflexivity|]. cbn. auto.
Qed.

(** ** The whole chain on any input *)

Lemma targetOf_any clock input :
  exists o, targetOf (DateAt clock) (todayOf (DateAt clock)) input = Returned o /\
    match o with
    | None => recognized input = false
    | Some t => isDateAt t = true /\ recognized input = true
    end.
Proof.
  rewrite todayOf_clock. unfold targetOf, recognized.
  destruct (input =? "today"); [eexists; split; [reflexivity|now split]|].
  destruct (input =? "tomorrow").
  { rewrite setDate_add. eexists; split; [reflexivity|now split]. }
  destruct (input =? "day after tomorrow").
  { rewrite setDate_add. eexists; split; [reflexivity|now split]. }
  destruct (test reNextWeekdayTest input) eqn:T1.
  { destruct (nextWeekdayBranch_any (referenceDay clock) input T1) as (n & t & _ & ->).
    eexists; split; [reflexivity|now split]. }
  destruct (test reThisWeekdayTest input) eqn:T2.
  { destruct (thisWeekdayBranch_any (referenceDay clock) input T2) as (t & _ & ->).
    eexists; split; [reflexivity|now split]. }
  destruct (monthDayBranch_any clock (DateAt (referenceDay clock)) input) as (o & -> & Ho).
  exists o. split; [reflexivity|]. unfold test. cbn [orb].
  destruct o as [t|].
  - destruct Ho as (V & [H|H]); (split; [exact V|]).
    + destruct (exec reMonthDay input); [reflexivity|congruence].
    + destruct (exec reNumeric input); [apply orb_true_r|congruence].
  - destruct Ho as (-> & ->). reflexivity.
Qed.

Lemma item_dayNames d : exists n, item dayNames (Num (WeekDay d)) = Some n.
Proof.
  pose proof (WeekDay_range d) as R.
  assert (H : WeekDay d = 0 \/ WeekDay d = 1 \/ WeekDay d = 2 \/ WeekDay d = 3 \/
              WeekDay d = 4 \/ WeekDay d = 5 \/ WeekDay d = 6) by lia.
  repeat destruct H as [H|H]; rewrite H; eexists; reflexivity.
Qed.

(** C2.  For every input string the call returns a record whose
    [original] is the input and in which [isValid] is true exactly when
    both [date] and [dayOfWeek] are present; and when [isValid] is
    false, [formatted] is the input string itself and [date] and
    [dayOfWeek] are both absent. *)
Theorem resolved_date_invariant (clock : Z) (dateInput : string) :
  exists r, parseReservationDate clock dateInput = Returned r /\
    original r = dateInput /\
    (isValid r = true <-> date r <> None /\ dayOfWeek r <> None) /\
    (isValid r = false ->
     formatted r = dateInput /\ date r = None /\ dayOfWeek r = None).
Proof.
  unfold parseReservationDate.
  destruct (targetOf_any clock (trim (toLowerCase dateInput))) as (o & -> & Ho).
  cbn [bind]. eexists. split; [reflexivity|].
  destruct o as [[d|]|]; [|destruct Ho; discriminate|].
  - cbn [describe getDay isValid date dayOfWeek original].
    destruct (item_dayNames d) as (n & ->).
    split; [reflexivity|].
    split; [split; [intros _; split; discriminate|reflexivity]|discriminate].
  - cbn [describe isValid date dayOfWeek formatted original].
    split; [reflexivity|].
    split; [split; [discriminate|intros [H _]; now elim H]|auto].
Qed.

(** C3.  The call is total: for every input string and every clock
    reading it returns a record and throws nothing; the record is valid
    exactly when one of the phrase classes takes the input, and an
    input that none takes, the empty string among them, gives the
    fallback record with [isValid = false]. *)
Theorem parse_total (clock : Z) (dateInput : string) :
  (exists r, parseReservationDate clock dateInput = Returned r /\
     isValid r = recognized (trim (toLowerCase dateInput)) /\
     (recognized (trim (toLowerCase dateInput)) = false -> r = fallback dateInput)) /\
  parseReservationDate clock "" = Returned (fallback "").
Proof.
  split; [|reflexivity].
  unfold parseReservationDate.
  destruct (targetOf_any clock (trim (toLowerCase dateInput))) as (o & -> & Ho).
  cbn [bind]. eexists. split; [reflexivity|].
  destruct o as [t|].
  - destruct Ho as (_ & ->). cbn [describe isValid]. split; [reflexivity|discriminate].
  - rewrite Ho. cbn [describe isValid]. split; reflexivity.
Qed.

(** ** The literal phrases of lines 11-18 *)

(** For a clock outside the years 0-99 the reference day is the day the
    clock shows. *)
Lemma referenceDay_clock clock :
  YearFromDay clock < 0 \/ 99 < YearFromDay clock -> referenceDay clock = clock.
Proof.
  intros H. unfold referenceDay.
  replace ((0 <=? YearFromDay clock)%Z && (YearFromDay clock <=? 99)%Z) with false.
  - rewrite <- (Z.add_0_r (DateFromDay clock)), MakeDay_fields. lia.
  - symmetry. apply andb_false_iff.
    destruct H; [left; now apply Z.leb_gt|right; now apply Z.leb_gt].
Qed.

Lemma parse_unfold clock dateInput :
  parseReservationDate clock dateInput =
  (targetDate <- targetOf (DateAt clock) (DateAt (referenceDay clock))
                   (trim (toLowerCase dateInput)) ;;
   Returned (describe dateInput targetDate)).
Proof. reflexivity. Qed.

(** C7.  With the clock on 2024-03-15, a Friday, "today" gives that day
    with [dayOfWeek] "Friday" and [formatted] "Friday, March 15th", and
    "tomorrow" gives Saturday 2024-03-16, "Saturday, March 16th".  For
    every clock reading, "today" resolves to the reference day,
    "tomorrow" to the day after it and "day after tomorrow" to two days
    after it. *)
Theorem literal_phrases (clock : Z) :
  parseReservationDate (civil 2024 3 15) "today" =
    Returned (mkResolved "today" "Friday, March 15th"
                (Some (DateAt (civil 2024 3 15))) (Some "Friday") true) /\
  parseReservationDate (civil 2024 3 15) "tomorrow" =
    Returned (mkResolved "tomorrow" "Saturday, March 16th"
                (Some (DateAt (civil 2024 3 16))) (Some "Saturday") true) /\
  WeekDay (civil 2024 3 15) = 5 /\
  referenceDay (civil 2024 3 15) = civil 2024 3 15 /\
  parseReservationDate clock "today" =
    Returned (describe "today" (Some (DateAt (referenceDay clock)))) /\
  parseReservationDate clock "tomorrow" =
    Returned (describe "tomorrow" (Some (DateAt (referenceDay clock + 1)))) /\
  parseReservationDate clock "day after tomorrow" =
    Returned (describe "day after tomorrow" (Some (DateAt (referenceDay clock + 2)))).
Proof.
  split; [vm_compute; reflexivity|]. split; [vm_compute; reflexivity|].
  split; [vm_compute; reflexivity|]. split; [vm_compute; reflexivity|].
  split; [reflexivity|]. split.
  - rewrite parse_unfold.
    change (trim (toLowerCase "tomorrow")) with "tomorrow".
    unfold targetOf. cbn [String.eqb Ascii.eqb Bool.eqb].
    now rewrite setDate_add.
  - rewrite parse_unfold.
    change (trim (toLowerCase "day after tomorrow")) with "day after tomorrow".
    unfold targetOf. cbn [String.eqb Ascii.eqb Bool.eqb].
    now rewrite setDate_add.
Qed.

(** ** Letter case and padding *)

(** C8.  Matching ignores letter case and surrounding white space: for
    every input [s], every case variant [s'] of it and any blank padding
    around [s'], the two calls return records that agree on [date],
    [dayOfWeek] and [isValid], and on [formatted] when valid; each
    [original] is the input as given. *)
Theorem case_and_padding_invariance (clock : Z) (s s' pre post : string) :
  blank pre = true -> blank post = true -> caseVariant s s' = true ->
  exists r r',
    parseReservationDate clock s = Returned r /\
    parseReservationDate clock (pre ++ s' ++ post) = Returned r' /\
    date r = date r' /\ dayOfWeek r = dayOfWeek r' /\ isValid r = isValid r' /\
    (isValid r = true -> formatted r = formatted r') /\
    original r = s /\ original r' = pre ++ s' ++ post.
Proof.
  intros Hpre Hpost Hv.
  rewrite !parse_unfold, (input_normal_form pre s s' post Hpre Hpost Hv).
  rewrite <- todayOf_clock.
  destruct (targetOf_any clock (trim (toLowerCase s))) as (o & -> & _).
  cbn [bind]. do 2 eexists. split; [reflexivity|]. split; [reflexivity|].
  destruct o as [t|]; cbn [describe date dayOfWeek isValid formatted original].
  - repeat split.
  - repeat split. discriminate.
Qed.

Lemma case_and_padding_invariance_witness :
  blank "  " = true /\ blank " " = true /\
  caseVariant "next friday" "NEXT Friday" = true /\
  exists r r',
    parseReservationDate 19797 "next friday" = Returned r /\
    parseReservationDate 19797 ("  " ++ "NEXT Friday" ++ " ") = Returned r' /\
    date r = date r' /\ dayOfWeek r = dayOfWeek r' /\ isValid r = isValid r' /\
    (isValid r = true -> formatted r = formatted r') /\
    original r = "next friday" /\ original r' = "  " ++ "NEXT Friday" ++ " ".
Proof.
  split; [reflexivity|]. split; [reflexivity|]. split; [reflexivity|].
  apply (case_and_padding_invariance 19797 "next friday" "NEXT Friday" "  " " ");
    reflexivity.
Defined.

(** ** Ordinal suffixes and the formatted string *)

Lemma ordinal_days_checked :
  forallb (fun k => ordinalChecked (Z.of_nat k)) (seq 1 31) = true.
Proof. vm_compute. reflexivity. Qed.

Lemma getOrdinal_day n :
  1 <= n <= 31 -> getOrdinal (Num n) = decimal n ++ englishSuffix n.
Proof.
  intros H. apply String.eqb_eq.
  pose proof ordinal_days_checked as C. rewrite forallb_forall in C.
  specialize (C (Z.to_nat n)). rewrite Z2Nat.id in C by lia.
  apply C, in_seq. lia.
Qed.

Lemma item_monthNames d : exists n, item monthNames (Num (MonthFromDay d)) = Some n.
Proof.
  pose proof (MonthFromDay_range d) as R.
  set (m := MonthFromDay d) in *. clearbody m.
  month_cases m H; eexists; reflexivity.
Qed.

Lemma item_englishDay d : item dayNames (Num (WeekDay d)) = Some (englishDay (WeekDay d)).
Proof.
  pose proof (WeekDay_range d) as R.
  assert (H : WeekDay d = 0 \/ WeekDay d = 1 \/ WeekDay d = 2 \/ WeekDay d = 3 \/
              WeekDay d = 4 \/ WeekDay d = 5 \/ WeekDay d = 6) by lia.
  repeat destruct H as [H|H]; rewrite H; reflexivity.
Qed.

Lemma item_englishMonth d :
  item monthNames (Num (MonthFromDay d)) = Some (englishMonth (MonthFromDay d)).
Proof.
  pose proof (MonthFromDay_range d) as R.
  set (m := MonthFromDay d) in *. clearbody m.
  month_cases m H; reflexivity.
Qed.

(** C6.  For every day number from 1 to 31 the ordinal is the decimal
    number followed by the suffix of the English rule, in particular
    1st, 2nd, 3rd, 4th, 11th, 12th, 13th, 21st, 22nd, 23rd, with "th"
    after a last digit 0 or 4 to 9.  Every input that a phrase class
    takes gives a valid result, and the formatted string of every valid
    result is the full English weekday name of its date, a comma, the
    full English month name and the day of the month with that suffix;
    with the clock on 2024-03-15, "march 21" gives "Thursday, March
    21st". *)
Theorem ordinal_and_format (n : Z) (clock : Z) (dateInput : string) :
  1 <= n <= 31 ->
  getOrdinal (Num n) = decimal n ++ englishSuffix n /\
  map (fun k => getOrdinal (Num k)) [1; 2; 3; 4; 11; 12; 13; 21; 22; 23] =
    ["1st"; "2nd"; "3rd"; "4th"; "11th"; "12th"; "13th"; "21st"; "22nd"; "23rd"] /\
  map englishSuffix [10; 20; 30; 4; 5; 6; 7; 8; 9; 14; 24; 25; 26; 27; 28; 29] =
    repeat "th" 16 /\
  (exists r, parseReservationDate clock dateInput = Returned r /\
     (recognized (trim (toLowerCase dateInput)) = true -> isValid r = true) /\
     (isValid r = true ->
      exists d,
        date r = Some (DateAt d) /\
        dayOfWeek r = Some (englishDay (WeekDay d)) /\
        nth_error dayNames (Z.to_nat (WeekDay d)) = Some (englishDay (WeekDay d)) /\
        nth_error monthNames (Z.to_nat (MonthFromDay d)) =
          Some (englishMonth (MonthFromDay d)) /\
        1 <= DateFromDay d <= 31 /\
        formatted r = englishDay (WeekDay d) ++ ", " ++ englishMonth (MonthFromDay d) ++
                      " " ++ decimal (DateFromDay d) ++ englishSuffix (DateFromDay d))) /\
  parseReservationDate (civil 2024 3 15) "march 21" =
    Returned (mkResolved "march 21" "Thursday, March 21st"
                (Some (DateAt (civil 2024 3 21))) (Some "Thursday") true).
Proof.
  intros Hn. split; [now apply getOrdinal_day|].
  split; [reflexivity|]. split; [reflexivity|].
  split; [|vm_compute; reflexivity].
  rewrite parse_unfold, <- todayOf_clock.
  destruct (targetOf_any clock (trim (toLowerCase dateInput))) as (o & -> & Ho).
  cbn [bind]. eexists. split; [reflexivity|].
  destruct o as [[d|]|]; cbn [describe date isValid formatted dayOfWeek].
  - split; [reflexivity|]. intros _.
    pose proof (DateFromDay_range d) as Rd.
    pose proof (WeekDay_range d) as Rw. pose proof (MonthFromDay_range d) as Rm.
    pose proof (item_englishDay d) as Hwd. pose proof (item_englishMonth d) as Hmo.
    exists d. cbn [getDay getMonth getDate].
    rewrite Hwd, Hmo, getOrdinal_day by exact Rd.
    unfold item in Hwd, Hmo.
    destruct (Z.ltb_spec (WeekDay d) 0); [lia|].
    destruct (Z.ltb_spec (MonthFromDay d) 0); [lia|].
    repeat split; try assumption; lia.
  - destruct Ho; discriminate.
  - split; [intros R; rewrite Ho in R; discriminate R|discriminate].
Qed.

Lemma ordinal_and_format_witness :
  1 <= 21 <= 31 /\
  getOrdinal (Num 21) = decimal 21 ++ englishSuffix 21 /\
  map (fun k => getOrdinal (Num k)) [1; 2; 3; 4; 11; 12; 13; 21; 22; 23] =
    ["1st"; "2nd"; "3rd"; "4th"; "11th"; "12th"; "13th"; "21st"; "22nd"; "23rd"] /\
  map englishSuffix [10; 20; 30; 4; 5; 6; 7; 8; 9; 14; 24; 25; 26; 27; 28; 29] =
    repeat "th" 16 /\
  (exists r, parseReservationDate 19797 "March 21" = Returned r /\
     (recognized (trim (toLowerCase "March 21")) = true -> isValid r = true) /\
     (isValid r = true ->
      exists d,
        date r = Some (DateAt d) /\
        dayOfWeek r = Some (englishDay (WeekDay d)) /\
        nth_error dayNames (Z.to_nat (WeekDay d)) = Some (englishDay (WeekDay d)) /\
        nth_error monthNames (Z.to_nat (MonthFromDay d)) =
          Some (englishMonth (MonthFromDay d)) /\
        1 <= DateFromDay d <= 31 /\
        formatted r = englishDay (WeekDay d) ++ ", " ++ englishMonth (MonthFromDay d) ++
                      " " ++ decimal (DateFromDay d) ++ englishSuffix (DateFromDay d))) /\
  parseReservationDate (civil 2024 3 15) "march 21" =
    Returned (mkResolved "march 21" "Thursday, March 21st"
                (Some (DateAt (civil 2024 3 21))) (Some "Thursday") true).
Proof.
  split; [lia|]. apply (ordinal_and_format 21 19797 "March 21"). lia.
Defined.

(** ** Phrases as the user writes them *)

Lemma app_assoc3 (a b c : string) : (a ++ b) ++ c = a ++ b ++ c.
Proof. induction a as [|x a IH]; simpl; [reflexivity|]. now rewrite IH. Qed.

Lemma trimEnd_keeps a b : trimEnd b = b -> b <> "" -> trimEnd (a ++ b) = a ++ b.
Proof.
  intros Hb Hn. induction a as [|c a IH]; simpl; [exact Hb|].
  rewrite IH. destruct (a ++ b) eqn:E; [|reflexivity].
  destruct a; simpl in E; [now elim Hn|discriminate].
Qed.

Lemma trimStart_keeps c s : isWhiteSpace c = false -> trimStart (String c s) = String c s.
Proof. intros H. simpl. now rewrite H. Qed.

Lemma input_oneWord word s :
  oneWord word s -> trim (toLowerCase s) = trim (toLowerCase word).
Proof.
  intros (pre & a & post & -> & Hpre & Hpost & Hv).
  rewrite !toLowerCase_app, (caseVariant_toLowerCase _ _ Hv).
  apply trim_padding; now rewrite blank_toLowerCase.
Qed.

Lemma input_twoWords first second s :
  twoWords first second s ->
  exists gap, blank gap = true /\ gap <> "" /\
    trim (toLowerCase s) = trim (toLowerCase first ++ gap ++ toLowerCase second).
Proof.
  intros (pre & a & gap & b & post & -> & Hpre & Hpost & Hgap & Hne & Ha & Hb).
  exists (toLowerCase gap). split; [now rewrite blank_toLowerCase|].
  split; [destruct gap; [now elim Hne|discriminate]|].
  rewrite !toLowerCase_app, (caseVariant_toLowerCase _ _ Ha),
    (caseVariant_toLowerCase _ _ Hb).
  rewrite <- (app_assoc3 (toLowerCase gap)), <- (app_assoc3 (toLowerCase first)).
  apply trim_padding; now rewrite blank_toLowerCase.
Qed.

Lemma dayWord_cases t w :
  dayWord t w ->
  (t = 0 /\ w = "sunday") \/ (t = 1 /\ w = "monday") \/ (t = 2 /\ w = "tuesday") \/
  (t = 3 /\ w = "wednesday") \/ (t = 4 /\ w = "thursday") \/
  (t = 5 /\ w = "friday") \/ (t = 6 /\ w = "saturday").
Proof.
  intros (R & H).
  assert (C : t = 0 \/ t = 1 \/ t = 2 \/ t = 3 \/ t = 4 \/ t = 5 \/ t = 6) by lia.
  repeat destruct C as [C|C]; subst t; cbn in H; injection H as <-; tauto.
Qed.

Ltac each_day H :=
  apply dayWord_cases in H;
  repeat destruct H as [H|H]; destruct H as [-> ->].

(** ** The matcher on a run of white space *)

Lemma app_nil_right (s : string) : s ++ "" = s.
Proof. induction s as [|c s IH]; simpl; [reflexivity|]. now rewrite IH. Qed.

Lemma star_blank {A : Type} gap rest : forall (k : string -> string -> option A) r,
  blank gap = true -> startsSolid rest -> k gap rest = Some r ->
  star isWhiteSpace (gap ++ rest) k = Some r.
Proof.
  induction gap as [|c gap IH]; intros k r Hg Hs Hk.
  - destruct rest as [|x rest]; simpl; [exact Hk|].
    simpl in Hs. now rewrite Hs.
  - simpl in Hg. apply andb_true_iff in Hg as [Hc Hg].
    simpl. rewrite Hc.
    now rewrite (IH (fun t u => k (String c t) u) r Hg Hs Hk).
Qed.

Lemma plus_blank {A : Type} gap rest (k : string -> string -> option A) r :
  blank gap = true -> gap <> "" -> startsSolid rest -> k gap rest = Some r ->
  plus isWhiteSpace (gap ++ rest) k = Some r.
Proof.
  intros Hg Hn Hs Hk. destruct gap as [|c gap]; [now elim Hn|].
  simpl in Hg. apply andb_true_iff in Hg as [Hc Hg].
  simpl. rewrite Hc.
  now apply (star_blank gap rest (fun t u => k (String c t) u)).
Qed.

(** The group [(next\s+)?] on an input that starts with "next" and a
    run of white space. *)
Lemma run_next_group gap rest m k res :
  blank gap = true -> gap <> "" -> startsSolid rest ->
  k ("next" ++ gap) rest ((1%nat, "next" ++ gap) :: m) = Some res ->
  run true (Opt (Cap 1 (Cat (Lit "next") (Plus isWhiteSpace))))
      ("next" ++ gap ++ rest) m k = Some res.
Proof.
  intros Hg Hn Hs Hk. cbn [run].
  change (eat true "next" ("next" ++ gap ++ rest)) with (Some ("next", gap ++ rest)).
  cbv beta iota.
  now rewrite (plus_blank gap rest _ res Hg Hn Hs Hk).
Qed.

(** The prefix [this\s+] likewise. *)
Lemma run_this_prefix gap rest b m k res :
  blank gap = true -> gap <> "" -> startsSolid rest ->
  run true b rest m (fun t2 s2 m2 => k ("this" ++ gap ++ t2) s2 m2) = Some res ->
  run true (Cat (Lit "this") (Cat (Plus isWhiteSpace) b))
      ("this" ++ gap ++ rest) m k = Some res.
Proof.
  intros Hg Hn Hs Hk. cbn [run].
  change (eat true "this" ("this" ++ gap ++ rest)) with (Some ("this", gap ++ rest)).
  cbv beta iota.
  now rewrite (plus_blank gap rest _ res Hg Hn Hs Hk).
Qed.

(** ** The three weekday phrases, on their matching input *)

Lemma targetOf_weekday now z t w :
  dayWord t w ->
  trim (toLowerCase w) = w /\
  targetOf now (DateAt z) w =
  Returned (Some (DateAt (z + daysAhead false t (WeekDay z)))).
Proof.
  intros H. each_day H; (split; [reflexivity|]);
    unfold targetOf; cbn [String.eqb Ascii.eqb Bool.eqb];
    match goal with |- context [test reNextWeekdayTest ?w] =>
      change (test reNextWeekdayTest w) with true;
      rewrite (nextWeekdayBranch_eval z w [(2%nat, w)] w eq_refl eq_refl)
    end; reflexivity.
Qed.

Lemma targetOf_next_weekday now z t w gap :
  dayWord t w -> blank gap = true -> gap <> "" ->
  trim ("next" ++ gap ++ w) = "next" ++ gap ++ w /\
  targetOf now (DateAt z) ("next" ++ gap ++ w) =
  Returned (Some (DateAt (z + daysAhead true t (WeekDay z)))).
Proof.
  intros H Hg Hn.
  assert (T : test reNextWeekdayTest ("next" ++ gap ++ w) = true).
  { unfold test, exec. cbn [fromStart reNextWeekdayTest]. unfold matchAt.
    cbn [body ignoreCase reNextWeekdayTest]. rewrite run_Cat.
    rewrite (run_next_group gap w [] _ [(2%nat, w); (1%nat, "next" ++ gap)] Hg Hn);
      [reflexivity| |]; each_day H; reflexivity. }
  assert (E : exec reNextWeekday ("next" ++ gap ++ w) =
              Some [(2%nat, w); (1%nat, "next" ++ gap)]).
  { unfold exec. cbn [fromStart reNextWeekday]. apply search_at_start.
    unfold matchAt. cbn [body ignoreCase reNextWeekday]. rewrite run_Cat.
    apply run_next_group; [exact Hg|exact Hn| |]; each_day H; reflexivity. }
  split.
  - unfold trim.
    change (trimStart ("next" ++ gap ++ w)) with (("next" ++ gap) ++ w).
    change ("next" ++ gap ++ w) with (("next" ++ gap) ++ w).
    apply trimEnd_keeps; each_day H; (reflexivity || discriminate).
  - unfold targetOf.
    change ("next" ++ gap ++ w =? "today") with false.
    change ("next" ++ gap ++ w =? "tomorrow") with false.
    change ("next" ++ gap ++ w =? "day after tomorrow") with false.
    cbv iota. rewrite T.
    rewrite (nextWeekdayBranch_eval z _ _ w E eq_refl). cbn [bind group Nat.eqb truthy].
    replace (indexOf days (toLowerCase w)) with t by (each_day H; reflexivity).
    reflexivity.
Qed.

Lemma targetOf_this_weekday now z t w gap :
  dayWord t w -> blank gap = true -> gap <> "" ->
  trim ("this" ++ gap ++ w) = "this" ++ gap ++ w /\
  targetOf now (DateAt z) ("this" ++ gap ++ w) =
  Returned (Some (DateAt (z + daysAheadThis t (WeekDay z)))).
Proof.
  intros H Hg Hn.
  assert (T : test reThisWeekdayTest ("this" ++ gap ++ w) = true).
  { unfold test, exec. cbn [fromStart reThisWeekdayTest]. unfold matchAt.
    cbn [body ignoreCase reThisWeekdayTest].
    rewrite (run_this_prefix gap w _ [] _ [(1%nat, w)] Hg Hn);
      [reflexivity| |]; each_day H; reflexivity. }
  assert (E : exec reThisWeekday ("this" ++ gap ++ w) = Some [(1%nat, w)]).
  { unfold exec. cbn [fromStart reThisWeekday]. apply search_at_start.
    unfold matchAt. cbn [body ignoreCase reThisWeekday].
    apply run_this_prefix; [exact Hg|exact Hn| |]; each_day H; reflexivity. }
  split.
  - unfold trim.
    change (trimStart ("this" ++ gap ++ w)) with (("this" ++ gap) ++ w).
    change ("this" ++ gap ++ w) with (("this" ++ gap) ++ w).
    apply trimEnd_keeps; each_day H; (reflexivity || discriminate).
  - unfold targetOf.
    change ("this" ++ gap ++ w =? "today") with false.
    change ("this" ++ gap ++ w =? "tomorrow") with false.
    change ("this" ++ gap ++ w =? "day after tomorrow") with false.
    change (test reNextWeekdayTest ("this" ++ gap ++ w)) with false.
    cbv iota. rewrite T.
    rewrite (thisWeekdayBranch_eval z _ _ w E eq_refl). cbn [bind].
    replace (indexOf days (toLowerCase w)) with t by (each_day H; reflexivity).
    reflexivity.
Qed.

(** ** The three weekday phrases, as the user writes them *)

Lemma dayWord_lower t w : dayWord t w -> toLowerCase w = w.
Proof. intros H. each_day H; reflexivity. Qed.

Lemma parse_weekday clock t w s :
  dayWord t w -> oneWord w s ->
  parseReservationDate clock s =
  Returned (describe s (Some (DateAt
    (referenceDay clock + daysAhead false t (WeekDay (referenceDay clock)))))).
Proof.
  intros Hw Hs. rewrite parse_unfold, (input_oneWord w s Hs).
  destruct (targetOf_weekday (DateAt clock) (referenceDay clock) t w Hw) as (-> & ->).
  reflexivity.
Qed.

Lemma parse_next_weekday clock t w s :
  dayWord t w -> twoWords "next" w s ->
  parseReservationDate clock s =
  Returned (describe s (Some (DateAt
    (referenceDay clock + daysAhead true t (WeekDay (referenceDay clock)))))).
Proof.
  intros Hw Hs. rewrite parse_unfold.
  destruct (input_twoWords "next" w s Hs) as (gap & Hg & Hn & ->).
  rewrite (dayWord_lower t w Hw). change (toLowerCase "next") with "next".
  destruct (targetOf_next_weekday (DateAt clock) (referenceDay clock) t w gap Hw Hg Hn)
    as (-> & ->).
  reflexivity.
Qed.

Lemma parse_this_weekday clock t w s :
  dayWord t w -> twoWords "this" w s ->
  parseReservationDate clock s =
  Returned (describe s (Some (DateAt
    (referenceDay clock + daysAheadThis t (WeekDay (referenceDay clock)))))).
Proof.
  intros Hw Hs. rewrite parse_unfold.
  destruct (input_twoWords "this" w s Hs) as (gap & Hg & Hn & ->).
  rewrite (dayWord_lower t w Hw). change (toLowerCase "this") with "this".
  destruct (targetOf_this_weekday (DateAt clock) (referenceDay clock) t w gap Hw Hg Hn)
    as (-> & ->).
  reflexivity.
Qed.

Lemma describe_day s d :
  isValid (describe s (Some (DateAt d))) = true /\
  date (describe s (Some (DateAt d))) = Some (DateAt d) /\
  dayOfWeek (describe s (Some (DateAt d))) = nth_error dayNames (Z.to_nat (WeekDay d)).
Proof.
  cbn [describe isValid date dayOfWeek getDay item].
  pose proof (WeekDay_range d). destruct (Z.ltb_spec (WeekDay d) 0); [lia|auto].
Qed.

(** C1.  For every clock reading, weekday and input of the form
    "<weekday>" or "next <weekday>" in any letter case: the resolved
    date falls on the requested weekday, strictly after the reference
    day; it is at least a week ahead when the reference day is that
    weekday or "next" is given; and with "next" it is strictly after
    (a week after) the date of the plain phrase, hence at least 7 days
    out. *)
Theorem weekday_phrase_resolution (clock t : Z) (w s : string) (isNext : bool) :
  dayWord t w ->
  (if isNext then twoWords "next" w s else oneWord w s) ->
  exists r d,
    parseReservationDate clock s = Returned r /\ isValid r = true /\
    date r = Some (DateAt d) /\
    WeekDay d = t /\ dayOfWeek r = nth_error dayNames (Z.to_nat t) /\
    referenceDay clock < d /\
    (WeekDay (referenceDay clock) = t \/ isNext = true -> referenceDay clock + 7 <= d) /\
    (isNext = true ->
     forall s0, oneWord w s0 ->
     exists r0 d0, parseReservationDate clock s0 = Returned r0 /\
                   date r0 = Some (DateAt d0) /\ d0 < d /\ d = d0 + 7).
Proof.
  intros Hw Hs.
  pose proof Hw as [Ht _].
  pose proof (WeekDay_range (referenceDay clock)) as Hc.
  pose proof (daysAhead_plain t _ Ht Hc) as [Hp Hsame].
  pose proof (daysAhead_next t _ Ht Hc) as Hnext.
  pose proof (WeekDay_daysAhead isNext (referenceDay clock) t Ht) as Hday.
  set (d := referenceDay clock + daysAhead isNext t (WeekDay (referenceDay clock))) in *.
  exists (describe s (Some (DateAt d))), d.
  destruct (describe_day s d) as (V & D & N). rewrite Hday in N.
  split.
  { subst d. destruct isNext;
      [exact (parse_next_weekday clock t w s Hw Hs)|exact (parse_weekday clock t w s Hw Hs)]. }
  repeat (split; [assumption|]).
  split; [subst d; destruct isNext; lia|].
  split; [intros [E| ->]; subst d; [destruct isNext|]; lia|].
  intros -> s0 Hs0. do 2 eexists.
  split; [apply (parse_weekday clock t w s0 Hw Hs0)|].
  destruct (describe_day s0
    (referenceDay clock + daysAhead false t (WeekDay (referenceDay clock)))) as (_ & -> & _).
  split; [reflexivity|]. subst d. lia.
Qed.

Lemma weekday_phrase_resolution_witness :
  dayWord 2 "tuesday" /\ twoWords "next" "tuesday" "Next Tuesday" /\
  exists r d,
    parseReservationDate 19797 "Next Tuesday" = Returned r /\ isValid r = true /\
    date r = Some (DateAt d) /\
    WeekDay d = 2 /\ dayOfWeek r = nth_error dayNames (Z.to_nat 2) /\
    referenceDay 19797 < d /\
    (WeekDay (referenceDay 19797) = 2 \/ true = true -> referenceDay 19797 + 7 <= d) /\
    (true = true ->
     forall s0, oneWord "tuesday" s0 ->
     exists r0 d0, parseReservationDate 19797 s0 = Returned r0 /\
                   date r0 = Some (DateAt d0) /\ d0 < d /\ d = d0 + 7).
Proof.
  assert (W : dayWord 2 "tuesday") by (split; [lia|reflexivity]).
  assert (P : twoWords "next" "tuesday" "Next Tuesday").
  { exists "", "Next", " ", "Tuesday", "".
    repeat split; (reflexivity || discriminate). }
  split; [exact W|]. split; [exact P|].
  exact (weekday_phrase_resolution 19797 2 "tuesday" "Next Tuesday" true W P).
Defined.

Lemma dayNames_english t :
  0 <= t <= 6 -> nth_error dayNames (Z.to_nat t) = Some (englishDay t).
Proof.
  intros R.
  assert (C : t = 0 \/ t = 1 \/ t = 2 \/ t = 3 \/ t = 4 \/ t = 5 \/ t = 6) by lia.
  repeat destruct C as [C|C]; subst t; reflexivity.
Qed.

Lemma dayWord_english t w : dayWord t w -> toLowerCase (englishDay t) = w.
Proof. intros H. each_day H; reflexivity. Qed.

(** C5.  For every clock reading, weekday and input of the form
    "this <weekday>" in any letter case: the resolved date falls on the
    requested weekday and the weekday name of the result is the full
    English name of that weekday, which is the requested word up to
    letter case; the date is on or after the reference day and never
    before it; when the reference day is that weekday, it is the
    reference day itself. *)
Theorem this_weekday_resolution (clock t : Z) (w s : string) :
  dayWord t w -> twoWords "this" w s ->
  exists r d,
    parseReservationDate clock s = Returned r /\ isValid r = true /\
    date r = Some (DateAt d) /\
    WeekDay d = t /\ dayOfWeek r = nth_error dayNames (Z.to_nat t) /\
    dayOfWeek r = Some (englishDay t) /\ toLowerCase (englishDay t) = w /\
    referenceDay clock <= d /\
    (WeekDay (referenceDay clock) = t -> d = referenceDay clock).
Proof.
  intros Hw Hs.
  pose proof Hw as [Ht _].
  pose proof (WeekDay_range (referenceDay clock)) as Hc.
  pose proof (daysAheadThis_range t _ Ht Hc) as [Hr Hsame].
  pose proof (WeekDay_daysAheadThis (referenceDay clock) t Ht) as Hday.
  set (d := referenceDay clock + daysAheadThis t (WeekDay (referenceDay clock))) in *.
  exists (describe s (Some (DateAt d))), d.
  destruct (describe_day s d) as (V & D & N). rewrite Hday in N.
  split; [exact (parse_this_weekday clock t w s Hw Hs)|].
  repeat (split; [assumption|]).
  split; [rewrite N; exact (dayNames_english t Ht)|].
  split; [exact (dayWord_english t w Hw)|].
  split; [subst d; lia|].
  intros E. subst d. symmetry in E. rewrite (Hsame E). lia.
Qed.

Lemma this_weekday_resolution_witness :
  dayWord 5 "friday" /\ twoWords "this" "friday" "this Friday" /\
  exists r d,
    parseReservationDate 19797 "this Friday" = Returned r /\ isValid r = true /\
    date r = Some (DateAt d) /\
    WeekDay d = 5 /\ dayOfWeek r = nth_error dayNames (Z.to_nat 5) /\
    dayOfWeek r = Some "Friday" /\ toLowerCase "Friday" = "friday" /\
    referenceDay 19797 <= d /\
    (WeekDay (referenceDay 19797) = 5 -> d = referenceDay 19797).
Proof.
  assert (W : dayWord 5 "friday") by (split; [lia|reflexivity]).
  assert (P : twoWords "this" "friday" "this Friday").
  { exists "", "this", " ", "Friday", "".
    repeat split; (reflexivity || discriminate). }
  split; [exact W|]. split; [exact P|].
  exact (this_weekday_resolution 19797 5 "friday" "this Friday" W P).
Defined.

Lemma not_literal_when_weekday input :
  test reNextWeekdayTest input || test reThisWeekdayTest input = true ->
  (input =? "today") = false /\ (input =? "tomorrow") = false /\
  (input =? "day after tomorrow") = false.
Proof.
  intros H.
  repeat split;
    match goal with |- (input =? ?lit) = false =>
      destruct (String.eqb_spec input lit) as [E|]; [|reflexivity];
      rewrite E in H; discriminate H
    end.
Qed.

(** C10.  Every recognized weekday phrase resolves at most 14 days after
    the reference day: "this <weekday>" 0 to 6 days, a plain "<weekday>"
    1 to 7 days and "next <weekday>" 8 to 14 days after it, for every
    clock reading and every weekday; and so does any input that passes
    the test of line 19 or of line 30. *)
Theorem weekday_offsets (clock t : Z) (w : string) :
  dayWord t w ->
  (forall s, twoWords "this" w s ->
     exists k, 0 <= k <= 6 /\ resolvesAhead clock s k) /\
  (forall s, oneWord w s ->
     exists k, 1 <= k <= 7 /\ resolvesAhead clock s k) /\
  (forall s, twoWords "next" w s ->
     exists k, 8 <= k <= 14 /\ resolvesAhead clock s k) /\
  (forall s,
     test reNextWeekdayTest (trim (toLowerCase s))
     || test reThisWeekdayTest (trim (toLowerCase s)) = true ->
     exists k, 0 <= k <= 14 /\ resolvesAhead clock s k).
Proof.
  intros Hw. pose proof Hw as [Ht _].
  pose proof (WeekDay_range (referenceDay clock)) as Hc.
  pose proof (daysAhead_plain t _ Ht Hc) as [Hp _].
  pose proof (daysAhead_next t _ Ht Hc) as Hnext.
  pose proof (daysAheadThis_range t _ Ht Hc) as [Hr _].
  assert (R : forall s k, parseReservationDate clock s =
                Returned (describe s (Some (DateAt (referenceDay clock + k)))) ->
              resolvesAhead clock s k).
  { intros s k E. eexists. split; [exact E|].
    destruct (describe_day s (referenceDay clock + k)) as (V & D & _).
    split; [exact V|exact D]. }
  split; [|split; [|split]].
  - intros s Hs. eexists. split; [exact Hr|].
    apply R, (parse_this_weekday clock t w s Hw Hs).
  - intros s Hs. eexists. split; [exact Hp|].
    apply R, (parse_weekday clock t w s Hw Hs).
  - intros s Hs. exists (daysAhead true t (WeekDay (referenceDay clock))).
    split; [lia|]. apply R, (parse_next_weekday clock t w s Hw Hs).
  - intros s T. destruct (not_literal_when_weekday _ T) as (E1 & E2 & E3).
    assert (P : parseReservationDate clock s =
                (targetDate <- targetOf (DateAt clock) (DateAt (referenceDay clock))
                                 (trim (toLowerCase s)) ;;
                 Returned (describe s targetDate))) by apply parse_unfold.
    unfold targetOf in P. rewrite E1, E2, E3 in P.
    destruct (test reNextWeekdayTest (trim (toLowerCase s))) eqn:T1.
    + destruct (nextWeekdayBranch_any (referenceDay clock) _ T1) as (n & u & Hu & B).
      rewrite B in P. cbn [bind] in P.
      pose proof (daysAhead_plain u _ Hu Hc) as [Hp' _].
      pose proof (daysAhead_next u _ Hu Hc) as Hn'.
      eexists. split; [|apply R, P]. destruct n; lia.
    + cbn [orb] in T. rewrite T in P.
      destruct (thisWeekdayBranch_any (referenceDay clock) _ T) as (u & Hu & B).
      rewrite B in P. cbn [bind] in P.
      pose proof (daysAheadThis_range u _ Hu Hc) as [Hr' _].
      eexists. split; [|apply R, P]. lia.
Qed.

Lemma weekday_offsets_witness :
  dayWord 1 "monday" /\
  exists k, 8 <= k <= 14 /\ resolvesAhead 19797 "next  MONDAY " k.
Proof.
  assert (W : dayWord 1 "monday") by (split; [lia|reflexivity]).
  split; [exact W|].
  apply (weekday_offsets 19797 1 "monday" W).
  exists "", "next", "  ", "MONDAY", " ".
  repeat split; (reflexivity || discriminate).
Defined.

(** ** Digits *)

Lemma digit_cases c :
  isDigit c = true ->
  c = "0"%char \/ c = "1"%char \/ c = "2"%char \/ c = "3"%char \/ c = "4"%char \/
  c = "5"%char \/ c = "6"%char \/ c = "7"%char \/ c = "8"%char \/ c = "9"%char.
Proof. each_char c; intros H; try discriminate H; tauto. Qed.

Ltac each_digit c H :=
  apply digit_cases in H; repeat destruct H as [H|H]; subst c.

Lemma digit_facts c :
  isDigit c = true ->
  lowerChar c = c /\ isWhiteSpace c = false /\ 0 <= digitValue c <= 9.
Proof. intros H. each_digit c H; repeat split; (reflexivity || discriminate). Qed.

Lemma digits12_cases ds :
  digits12 ds = true ->
  (exists a, ds = String a "" /\ isDigit a = true) \/
  (exists a b, ds = String a (String b "") /\ isDigit a = true /\ isDigit b = true).
Proof.
  destruct ds as [|a [|b [|c r]]]; simpl; try discriminate.
  - intros H. left. eauto.
  - intros H. apply andb_true_iff in H as [Ha Hb]. right. eauto.
Qed.

Lemma digits12_facts ds :
  digits12 ds = true ->
  toLowerCase ds = ds /\ trimEnd ds = ds /\ ds <> "" /\ startsSolid ds /\
  parseInt (Some ds) = Num (numeral ds) /\ 0 <= numeral ds <= 99.
Proof.
  intros H. destruct (digits12_cases ds H) as [(a & -> & Ha)|(a & b & -> & Ha & Hb)].
  - destruct (digit_facts a Ha) as (La & Wa & Va).
    unfold numeral. cbn [toLowerCase trimEnd startsSolid parseInt leadingDigits].
    rewrite La, Wa, Ha.
    repeat split; try reflexivity; try discriminate; lia.
  - destruct (digit_facts a Ha) as (La & Wa & Va).
    destruct (digit_facts b Hb) as (Lb & Wb & Vb).
    unfold numeral. cbn [toLowerCase trimEnd startsSolid parseInt leadingDigits].
    rewrite La, Lb, Wb, Ha, Hb.
    repeat split; try reflexivity; try discriminate; try assumption; lia.
Qed.

(** [\d{1,2}] on a digit text followed by something else. *)
Lemma upto2_digits {A : Type} ds rest (k : string -> string -> option A) r :
  digits12 ds = true -> startsNonDigit rest -> k ds rest = Some r ->
  upto2 isDigit (ds ++ rest) k = Some r.
Proof.
  intros H Hs Hk.
  destruct (digits12_cases ds H) as [(a & -> & Ha)|(a & b & -> & Ha & Hb)]; simpl.
  - rewrite Ha. destruct rest as [|x rest]; [exact Hk|].
    simpl in Hs. now rewrite Hs.
  - now rewrite Ha, Hb, Hk.
Qed.

(** ** The numeric shape of line 48, on its matching input *)

Lemma reNumeric_match ms sep ds :
  digits12 ms = true -> isSlashOrDash sep = true -> digits12 ds = true ->
  exec reNumeric (ms ++ String sep ds) = Some [(2%nat, ds); (1%nat, ms)].
Proof.
  intros Hm Hsep Hd.
  unfold exec. cbn [fromStart reNumeric]. unfold matchAt.
  cbn [body ignoreCase reNumeric run].
  apply upto2_digits; [exact Hm| |].
  - simpl. unfold isSlashOrDash in Hsep.
    destruct (isDigit sep) eqn:E; [|reflexivity].
    each_digit sep E; discriminate Hsep.
  - rewrite Hsep. rewrite <- (app_nil_right ds) at 1.
    now apply upto2_digits.
Qed.

Lemma startsWithDigit_not_word ms rest :
  digits12 ms = true ->
  (ms ++ rest =? "today") = false /\ (ms ++ rest =? "tomorrow") = false /\
  (ms ++ rest =? "day after tomorrow") = false /\
  test reNextWeekdayTest (ms ++ rest) = false /\
  test reThisWeekdayTest (ms ++ rest) = false /\
  exec reMonthDay (ms ++ rest) = None.
Proof.
  intros H.
  destruct (digits12_cases ms H) as [(a & -> & Ha)|(a & b & -> & Ha & _)];
    each_digit a Ha; repeat split; reflexivity.
Qed.

Lemma targetOf_numeric clock today ms sep ds :
  digits12 ms = true -> isSlashOrDash sep = true -> digits12 ds = true ->
  trim (toLowerCase (ms ++ String sep ds)) = ms ++ String sep ds /\
  targetOf (DateAt clock) today (ms ++ String sep ds) =
  Returned (Some (rollForward today
    (newDate (Num (YearFromDay clock)) (Num (numeral ms - 1)) (Num (numeral ds))))).
Proof.
  intros Hm Hsep Hd.
  destruct (digits12_facts ms Hm) as (Lm & _ & Nm & Sm & Pm & _).
  destruct (digits12_facts ds Hd) as (Ld & Td & Nd & _ & Pd & _).
  split.
  - rewrite toLowerCase_app. cbn [toLowerCase]. rewrite Lm, Ld.
    replace (lowerChar sep) with sep
      by (unfold isSlashOrDash in Hsep; apply orb_true_iff in Hsep as [E|E];
          apply Ascii.eqb_eq in E; subst sep; reflexivity).
    unfold trim.
    replace (trimStart (ms ++ String sep ds)) with (ms ++ String sep ds)
      by (destruct ms as [|a r]; [now elim Nm|]; simpl in *; now rewrite Sm).
    change (String sep ds) with (String sep "" ++ ds).
    rewrite <- app_assoc3. now apply trimEnd_keeps.
  - destruct (startsWithDigit_not_word ms (String sep ds) Hm)
      as (E1 & E2 & E3 & T1 & T2 & M).
    unfold targetOf. rewrite E1, E2, E3, T1, T2.
    unfold monthDayBranch. rewrite M, (reNumeric_match ms sep ds Hm Hsep Hd).
    cbn [bind group Nat.eqb getFullYear]. rewrite Pm, Pd. reflexivity.
Qed.

(** ** The month-name shape of line 41, on its matching input *)

Lemma whiteSpace_cases c :
  isWhiteSpace c = true ->
  c = "009"%char \/ c = "010"%char \/ c = "011"%char \/ c = "012"%char \/
  c = "013"%char \/ c = " "%char \/ c = "160"%char.
Proof. each_char c; intros H; try discriminate H; tauto. Qed.

(** Group 1 of line 41 on a month word followed by white space.  Only
    "sept" needs the fall-back of the continuation: "sep" comes first in
    the alternation and is given up when no white space follows it. *)
Lemma run_month_word mw c tail m k res :
  In mw monthWords -> isWhiteSpace c = true ->
  (forall t x y n, isWhiteSpace x = false -> k t (String x y) n = None) ->
  k mw (String c tail) ((1%nat, mw) :: m) = Some res ->
  run true (Cap 1 (words monthWords)) (mw ++ String c tail) m k = Some res.
Proof.
  intros H Hc Hfail Hk. unfold monthWords in H.
  apply whiteSpace_cases in Hc.
  each_word H; repeat destruct Hc as [Hc|Hc]; subst c;
    vm_compute; rewrite ?Hfail by reflexivity; rewrite Hk; reflexivity.
Qed.

Lemma run_day_tail gap ds suf m t1 :
  blank gap = true -> gap <> "" -> digits12 ds = true -> In suf suffixWords ->
  run true
    (Cat (Plus isWhiteSpace)
       (Cat (Cap 2 (Upto2 isDigit))
          (Cat (Opt (Cap 3 (words ["st"; "nd"; "rd"; "th"]))) Eos)))
    (gap ++ ds ++ suf) m (fun t2 s2 m2 => accept (t1 ++ t2) s2 m2)
  = Some ((suffixCapture suf ++ [(2%nat, ds)]) ++ m)%list.
Proof.
  intros Hg Hn Hd Hsuf.
  destruct (digits12_facts ds Hd) as (_ & _ & Nd & Sd & _ & _).
  cbn [run]. apply plus_blank; [exact Hg|exact Hn| |].
  - destruct ds as [|a r]; [now elim Nd|exact Sd].
  - apply upto2_digits; [exact Hd| |];
      unfold suffixWords in Hsuf; each_word Hsuf; reflexivity.
Qed.

Lemma reMonthDay_match mw gap ds suf :
  In mw monthWords -> blank gap = true -> gap <> "" ->
  digits12 ds = true -> In suf suffixWords ->
  exec reMonthDay (mw ++ gap ++ ds ++ suf) =
  Some (suffixCapture suf ++ [(2%nat, ds); (1%nat, mw)])%list.
Proof.
  intros Hmw Hg Hn Hd Hsuf.
  unfold exec. cbn [fromStart reMonthDay]. unfold matchAt.
  cbn [body ignoreCase reMonthDay]. rewrite run_Cat.
  destruct gap as [|c gap]; [now elim Hn|].
  pose proof Hg as Hg'. simpl in Hg'. apply andb_true_iff in Hg' as [Hc _].
  apply run_month_word; [exact Hmw|exact Hc| |].
  - intros t x y n Hx. cbn [run plus]. now rewrite Hx.
  - rewrite (run_day_tail (String c gap) ds suf _ mw Hg Hn Hd Hsuf).
    now rewrite <- app_assoc.
Qed.

Lemma startsWithMonth_not_other mw rest :
  In mw monthWords ->
  (mw ++ rest =? "today") = false /\ (mw ++ rest =? "tomorrow") = false /\
  (mw ++ rest =? "day after tomorrow") = false /\
  test reNextWeekdayTest (mw ++ rest) = false /\
  test reThisWeekdayTest (mw ++ rest) = false /\
  exec reNumeric (mw ++ rest) = None.
Proof.
  intros H. unfold monthWords in H.
  each_word H; repeat split; reflexivity.
Qed.

Lemma monthWord_lower i mw : monthWord i mw -> toLowerCase mw = mw.
Proof. intros [H _]. unfold monthWords in H. each_word H; reflexivity. Qed.

Lemma suffixWords_lower suf : In suf suffixWords -> toLowerCase suf = suf.
Proof. intros H. unfold suffixWords in H. each_word H; reflexivity. Qed.

Lemma targetOf_month_day clock today i mw gap ds suf :
  monthWord i mw -> blank gap = true -> gap <> "" ->
  digits12 ds = true -> In suf suffixWords ->
  trim (mw ++ gap ++ ds ++ suf) = mw ++ gap ++ ds ++ suf /\
  targetOf (DateAt clock) today (mw ++ gap ++ ds ++ suf) =
  Returned (Some (rollForward today
    (newDate (Num (YearFromDay clock)) (Num i) (Num (numeral ds))))).
Proof.
  intros [Hmw Hi] Hg Hn Hd Hsuf.
  destruct (digits12_facts ds Hd) as (_ & Td & Nd & _ & Pd & _).
  split.
  - unfold trim.
    replace (trimStart (mw ++ gap ++ ds ++ suf)) with (mw ++ gap ++ ds ++ suf)
      by (unfold monthWords in Hmw; each_word Hmw; reflexivity).
    rewrite <- (app_assoc3 mw gap (ds ++ suf)).
    apply trimEnd_keeps.
    + unfold suffixWords in Hsuf. each_word Hsuf;
        [now rewrite app_nil_right|apply trimEnd_keeps; (reflexivity || discriminate)..].
    + destruct ds; [now elim Nd|discriminate].
  - destruct (startsWithMonth_not_other mw (gap ++ ds ++ suf) Hmw)
      as (E1 & E2 & E3 & T1 & T2 & M).
    unfold targetOf. rewrite E1, E2, E3, T1, T2.
    unfold monthDayBranch.
    rewrite M, (reMonthDay_match mw gap ds suf Hmw Hg Hn Hd Hsuf).
    replace (group (suffixCapture suf ++ [(2%nat, ds); (1%nat, mw)])%list 1)
      with (Some mw)
      by (unfold suffixWords in Hsuf; each_word Hsuf; reflexivity).
    replace (group (suffixCapture suf ++ [(2%nat, ds); (1%nat, mw)])%list 2)
      with (Some ds)
      by (unfold suffixWords in Hsuf; each_word Hsuf; reflexivity).
    cbn [deref bind getFullYear].
    rewrite (monthWord_lower i mw (conj Hmw Hi)), Hi, Pd. reflexivity.
Qed.

(** ** Date phrases as the user writes them *)

Lemma referenceDay_year clock :
  YearFromDay (referenceDay clock) =
  if (0 <=? YearFromDay clock)%Z && (YearFromDay clock <=? 99)%Z
  then 1900 + YearFromDay clock else YearFromDay clock.
Proof.
  unfold referenceDay. apply YearFromDay_MakeDay.
  - apply MonthFromDay_range.
  - apply DateFromDay_range.
Qed.

Lemma rollForward_day clock m d :
  rollForward (DateAt (referenceDay clock))
    (newDate (Num (YearFromDay clock)) (Num m) (Num d)) =
  DateAt (rolledDay (referenceDay clock) (targetDay clock m d)).
Proof.
  unfold rollForward, newDate, targetDay, rolledDay.
  rewrite referenceDay_year. cbn [lt getFullYear add setFullYear].
  destruct (_ <? _)%Z; reflexivity.
Qed.

Lemma parse_datePhrase clock m d s :
  datePhrase m d s ->
  parseReservationDate clock s =
  Returned (describe s (Some (DateAt
    (rolledDay (referenceDay clock) (targetDay clock m d))))).
Proof.
  intros H. rewrite parse_unfold, <- rollForward_day.
  destruct H as [i mw ds suf s Hmw Hd Hsuf P|ms sep ds s Hm Hsep Hd P].
  - destruct P as (pre & a & gap & sf & post & -> & Hpre & Hpost & Hg & Hn & Ha & Hsf).
    destruct (digits12_facts ds Hd) as (Ld & _).
    assert (N : trim (toLowerCase (pre ++ a ++ gap ++ ds ++ sf ++ post)) =
                mw ++ toLowerCase gap ++ ds ++ suf).
    { rewrite !toLowerCase_app, (caseVariant_toLowerCase _ _ Ha),
        (caseVariant_toLowerCase _ _ Hsf), Ld,
        (monthWord_lower i mw Hmw), (suffixWords_lower suf Hsuf).
      replace (mw ++ toLowerCase gap ++ ds ++ suf ++ toLowerCase post)
        with ((mw ++ toLowerCase gap ++ ds ++ suf) ++ toLowerCase post)
        by (now rewrite !app_assoc3).
      rewrite trim_padding by now rewrite blank_toLowerCase.
      apply (targetOf_month_day clock (DateAt 0) i mw); try assumption.
      - now rewrite blank_toLowerCase.
      - destruct gap; [now elim Hn|discriminate]. }
    rewrite N.
    destruct (targetOf_month_day clock (DateAt (referenceDay clock)) i mw
                (toLowerCase gap) ds suf Hmw) as (_ & ->); try assumption.
    + now rewrite blank_toLowerCase.
    + destruct gap; [now elim Hn|discriminate].
    + reflexivity.
  - destruct P as (pre & post & -> & Hpre & Hpost).
    destruct (targetOf_numeric clock (DateAt (referenceDay clock)) ms sep ds Hm Hsep Hd)
      as (N & T).
    assert (N' : trim (toLowerCase (pre ++ ms ++ String sep ds ++ post)) =
                 ms ++ String sep ds).
    { replace (pre ++ ms ++ String sep ds ++ post)
        with (pre ++ (ms ++ String sep ds) ++ post) by (now rewrite app_assoc3).
      rewrite (toLowerCase_app pre), (toLowerCase_app (ms ++ String sep ds)).
      rewrite trim_padding by now rewrite blank_toLowerCase.
      exact N. }
    rewrite N', T. reflexivity.
Qed.

(** ** Overflow in [Date] construction *)

Lemma DaysBeforeMonth_next l m :
  0 <= m <= 10 -> DaysBeforeMonth l (m + 1) = DaysBeforeMonth l m + DaysInMonth l m.
Proof.
  intros M.
  assert (H : m = 0 \/ m = 1 \/ m = 2 \/ m = 3 \/ m = 4 \/ m = 5 \/ m = 6 \/
              m = 7 \/ m = 8 \/ m = 9 \/ m = 10) by lia.
  repeat destruct H as [H|H]; subst m;
    match goal with |- context [DaysBeforeMonth l (?a + 1)] =>
      let b := eval compute in (a + 1) in change (a + 1) with b end;
    cbn [DaysBeforeMonth DaysInMonth]; lia.
Qed.

(** Excess days carry into the following month (and from December into
    January of the following year). *)
Lemma MakeDay_day_overflow y m e :
  MakeDay y m (DaysInMonth (leapFlag (y + m / 12)) (m mod 12) + e) = MakeDay y (m + 1) e.
Proof.
  unfold MakeDay. fold (leapFlag (y + m / 12)). fold (leapFlag (y + (m + 1) / 12)).
  pose proof (Z.mod_pos_bound m 12 ltac:(lia)) as B.
  destruct (Z.eq_dec (m mod 12) 11) as [E|E].
  - assert (Q : (m + 1) / 12 = m / 12 + 1) by (Z.div_mod_to_equations; lia).
    assert (R : (m + 1) mod 12 = 0) by (Z.div_mod_to_equations; lia).
    rewrite Q, R, E.
    replace (y + (m / 12 + 1)) with (y + m / 12 + 1) by lia.
    rewrite DayFromYear_succ.
    destruct (leapFlag_cases (y + m / 12)) as [(F & G)|(F & G)]; rewrite F, G;
      cbn [DaysBeforeMonth DaysInMonth]; lia.
  - assert (Q : (m + 1) / 12 = m / 12) by (Z.div_mod_to_equations; lia).
    assert (R : (m + 1) mod 12 = m mod 12 + 1) by (Z.div_mod_to_equations; lia).
    rewrite Q, R, DaysBeforeMonth_next by lia. lia.
Qed.

(** Excess months carry into the following year. *)
Lemma MakeDay_month_overflow y m d : MakeDay y (m + 12) d = MakeDay (y + 1) m d.
Proof.
  unfold MakeDay.
  assert (Q : (m + 12) / 12 = m / 12 + 1) by (Z.div_mod_to_equations; lia).
  assert (R : (m + 12) mod 12 = m mod 12) by (Z.div_mod_to_equations; lia).
  rewrite Q, R. replace (y + (m / 12 + 1)) with (y + 1 + m / 12) by lia. reflexivity.
Qed.

(** C9.  Every input of the month-name or numeric shape resolves, also
    when its month and day are not a real calendar date (day 30 of
    February, month 13): the result is valid, not the fallback, and its
    date is the one [Date] construction gives by overflow, where excess
    days carry into the following month and excess months into the
    following year. *)
Theorem overflowing_dates_resolve (clock m d : Z) (s : string) :
  datePhrase m d s ->
  exists r t,
    parseReservationDate clock s = Returned r /\ isValid r = true /\
    r <> fallback s /\ date r = Some (DateAt t) /\
    t = rolledDay (referenceDay clock) (MakeDay (YearFromDay (referenceDay clock)) m d) /\
    (forall y e, MakeDay y m (DaysInMonth (leapFlag (y + m / 12)) (m mod 12) + e)
                 = MakeDay y (m + 1) e) /\
    (forall y, MakeDay y (m + 12) d = MakeDay (y + 1) m d) /\
    parseReservationDate (civil 2024 3 15) "feb 30" =
      Returned (mkResolved "feb 30" "Saturday, March 1st"
                  (Some (DateAt (civil 2025 3 1))) (Some "Saturday") true) /\
    parseReservationDate (civil 2024 3 15) "13/5" =
      Returned (mkResolved "13/5" "Sunday, January 5th"
                  (Some (DateAt (civil 2025 1 5))) (Some "Sunday") true).
Proof.
  intros H. do 2 eexists.
  split; [exact (parse_datePhrase clock m d s H)|].
  destruct (describe_day s (rolledDay (referenceDay clock) (targetDay clock m d)))
    as (V & D & _).
  split; [exact V|]. split; [intros E; rewrite E in V; discriminate V|].
  split; [exact D|]. split; [reflexivity|].
  split; [intros y e; apply MakeDay_day_overflow|].
  split; [intros y; apply MakeDay_month_overflow|].
  split; vm_compute; reflexivity.
Qed.

Lemma overflowing_dates_resolve_witness :
  datePhrase 1 30 "Feb 30th" /\
  exists r t,
    parseReservationDate 19797 "Feb 30th" = Returned r /\ isValid r = true /\
    r <> fallback "Feb 30th" /\ date r = Some (DateAt t) /\
    t = rolledDay (referenceDay 19797) (MakeDay (YearFromDay (referenceDay 19797)) 1 30).
Proof.
  assert (P : datePhrase 1 30 "Feb 30th").
  { apply (MonthNamePhrase 1 "feb" "30" "th").
    - split; [unfold monthWords; simpl; tauto|reflexivity].
    - reflexivity.
    - unfold suffixWords; simpl; tauto.
    - exists "", "Feb", " ", "th", "". repeat split; (reflexivity || discriminate). }
  split; [exact P|].
  destruct (overflowing_dates_resolve 19797 1 30 "Feb 30th" P)
    as (r & t & H1 & H2 & H3 & H4 & H5 & _).
  exists r, t. auto.
Defined.

(** ** Real calendar dates and the year roll-over *)

Lemma leapFlag_next y : leapFlag y = 1 -> leapFlag (y + 1) = 0.
Proof.
  intros H.
  destruct (DaysInYear_cases y) as [(E & A & _)|(E & _)];
    [|unfold leapFlag in H; rewrite E in H; discriminate H].
  destruct (leapFlag_cases (y + 1)) as [(F & G)|(F & _)]; [|exact F].
  destruct (DaysInYear_cases (y + 1)) as [(_ & B & _)|(E' & _)]; [|lia].
  exfalso. Z.div_mod_to_equations. lia.
Qed.

(** Against C4 as it is worded: with the clock on 2024-03-15, "2/29"
    names 29 February 2024, which is before the reference day; the
    roll-over gives 1 March 2025, not a 29 February. *)
Lemma leap_day_rolls_to_march :
  datePhrase 1 29 "2/29" /\
  parseReservationDate (civil 2024 3 15) "2/29" =
    Returned (mkResolved "2/29" "Saturday, March 1st"
                (Some (DateAt (civil 2025 3 1))) (Some "Saturday") true) /\
  ~ sameMonthDay (civil 2024 3 15) 1 29 "2/29".
Proof.
  split.
  { apply (NumericPhrase "2" "/" "29"); try reflexivity.
    exists "", "". repeat split. }
  split; [vm_compute; reflexivity|].
  intros (r & t & P & D & M & _).
  vm_compute in P. injection P as <-.
  cbn [date] in D. injection D as <-.
  vm_compute in M. discriminate M.
Qed.

(** C4, in the form that holds.  For every input of the month-name or
    numeric shape the result is the date [Date] builds for that month
    and day in the reference day's year, with its year advanced by one
    when it is strictly before the reference day; a date equal to the
    reference day is not rolled forward.  When the input names a real calendar
    date of that year, the date built is that month and day of the year,
    and the roll-over gives the same month and day of the next year,
    except that 29 February becomes 1 March.  With the clock on
    2024-03-15, "3/4" gives 4 March 2025. *)
Theorem month_day_resolution (clock m d : Z) (s : string) :
  datePhrase m d s ->
  exists r t,
    parseReservationDate clock s = Returned r /\ isValid r = true /\
    date r = Some (DateAt t) /\
    (referenceDay clock <= targetDay clock m d -> t = targetDay clock m d) /\
    (targetDay clock m d < referenceDay clock ->
     t = MakeDay (YearFromDay (targetDay clock m d) + 1)
                 (MonthFromDay (targetDay clock m d))
                 (DateFromDay (targetDay clock m d))) /\
    (0 <= m <= 11 ->
     1 <= d <= DaysInMonth (leapFlag (YearFromDay (referenceDay clock))) m ->
     YearFromDay (targetDay clock m d) = YearFromDay (referenceDay clock) /\
     MonthFromDay (targetDay clock m d) = m /\
     DateFromDay (targetDay clock m d) = d /\
     (targetDay clock m d < referenceDay clock ->
      YearFromDay t = YearFromDay (referenceDay clock) + 1 /\
      if (m =? 1)%Z && (d =? 29)%Z
      then MonthFromDay t = 2 /\ DateFromDay t = 1
      else MonthFromDay t = m /\ DateFromDay t = d)) /\
    parseReservationDate (civil 2024 3 15) "3/4" =
      Returned (mkResolved "3/4" "Tuesday, March 4th"
                  (Some (DateAt (civil 2025 3 4))) (Some "Tuesday") true).
Proof.
  intros H.
  do 2 eexists.
  split; [exact (parse_datePhrase clock m d s H)|].
  destruct (describe_day s (rolledDay (referenceDay clock) (targetDay clock m d)))
    as (V & D & _).
  split; [exact V|]. split; [exact D|].
  assert (Keep : referenceDay clock <= targetDay clock m d ->
                 rolledDay (referenceDay clock) (targetDay clock m d) = targetDay clock m d).
  { intros L. unfold rolledDay.
    destruct (Z.ltb_spec (targetDay clock m d) (referenceDay clock)); [lia|reflexivity]. }
  assert (Roll : targetDay clock m d < referenceDay clock ->
                 rolledDay (referenceDay clock) (targetDay clock m d) =
                 MakeDay (YearFromDay (targetDay clock m d) + 1)
                         (MonthFromDay (targetDay clock m d))
                         (DateFromDay (targetDay clock m d))).
  { intros L. unfold rolledDay.
    destruct (Z.ltb_spec (targetDay clock m d) (referenceDay clock)); [reflexivity|lia]. }
  split; [exact Keep|]. split; [exact Roll|].
  split; [|vm_compute; reflexivity].
  intros Hm Hd.
  assert (T : YearFromDay (targetDay clock m d) = YearFromDay (referenceDay clock) /\
              MonthFromDay (targetDay clock m d) = m /\
              DateFromDay (targetDay clock m d) = d)
    by (unfold targetDay; now apply civil_of_MakeDay).
  destruct T as (Ty & Tm & Td).
  split; [exact Ty|]. split; [exact Tm|]. split; [exact Td|].
  intros L. rewrite (Roll L), Ty, Tm, Td.
  remember (YearFromDay (referenceDay clock)) as y eqn:Ey.
  destruct ((m =? 1)%Z && (d =? 29)%Z) eqn:Leap.
  - apply andb_true_iff in Leap as [Em Ed].
    apply Z.eqb_eq in Em, Ed. subst m d.
    assert (F : leapFlag y = 1).
    { cbn [DaysInMonth] in Hd. destruct (leapFlag_cases y) as [(F & _)|(F & _)]; lia. }
    pose proof (leapFlag_next y F) as F'.
    assert (E : MakeDay (y + 1) 1 29 = MakeDay (y + 1) 2 1).
    { rewrite !MakeDay_in_year by lia. rewrite F'. cbn [DaysBeforeMonth]. lia. }
    rewrite E.
    destruct (civil_of_MakeDay (y + 1) 2 1) as (A & B & C);
      [lia|cbn [DaysInMonth]; lia|]. auto.
  - assert (Hd' : 1 <= d <= DaysInMonth (leapFlag (y + 1)) m).
    { apply andb_false_iff in Leap.
      destruct (leapFlag_cases y) as [(F & _)|(F & _)];
        destruct (leapFlag_cases (y + 1)) as [(F' & _)|(F' & _)];
        rewrite F in Hd; rewrite F';
        month_cases m Hc; cbn [DaysInMonth] in *; try lia;
        destruct Leap as [Leap|Leap];
        try (apply Z.eqb_neq in Leap; lia). }
    destruct (civil_of_MakeDay (y + 1) m d Hm Hd') as (A & B & C). auto.
Qed.

Lemma month_day_resolution_witness :
  datePhrase 0 5 "January 5" /\
  exists r t,
    parseReservationDate 19797 "January 5" = Returned r /\ isValid r = true /\
    date r = Some (DateAt t) /\
    (referenceDay 19797 <= targetDay 19797 0 5 -> t = targetDay 19797 0 5) /\
    (targetDay 19797 0 5 < referenceDay 19797 ->
     t = MakeDay (YearFromDay (targetDay 19797 0 5) + 1)
                 (MonthFromDay (targetDay 19797 0 5))
                 (DateFromDay (targetDay 19797 0 5))).
Proof.
  assert (P : datePhrase 0 5 "January 5").
  { apply (MonthNamePhrase 0 "january" "5" "").
    - split; [unfold monthWords; simpl; tauto|reflexivity].
    - reflexivity.
    - unfold suffixWords; simpl; tauto.
    - exists "", "January", " ", "", "". repeat split; (reflexivity || discriminate). }
  split; [exact P|].
  destruct (month_day_resolution 19797 0 5 "January 5" P)
    as (r & t & H1 & H2 & H3 & H4 & H5 & _).
  exists r, t. auto.
Defined.

(** ** restaurant-lookup.mjs: [formatPhoneForCalling] *)

Import Lookup.

Lemma keep_allOf p s : allOf p (keep p s) = true.
Proof.
  induction s as [|c s IH]; simpl; [reflexivity|].
  destruct (p c) eqn:E; simpl; [now rewrite E|exact IH].
Qed.

Lemma keep_id p s : allOf p s = true -> keep p s = s.
Proof.
  induction s as [|c s IH]; simpl; [reflexivity|].
  intros H. apply andb_true_iff in H as [Hc Hs]. now rewrite Hc, IH.
Qed.

Lemma keep_narrow (p q : ascii -> bool) s :
  (forall c, q c = true -> p c = true) -> keep q (keep p s) = keep q s.
Proof.
  intros Hpq. induction s as [|c s IH]; simpl; [reflexivity|].
  destruct (p c) eqn:Pc; simpl.
  - destruct (q c); [now rewrite IH|exact IH].
  - destruct (q c) eqn:Qc; [|exact IH]. rewrite (Hpq c Qc) in Pc. discriminate.
Qed.

Lemma allOf_app p a b : allOf p (a ++ b) = allOf p a && allOf p b.
Proof. induction a as [|c a IH]; simpl; [reflexivity|]. now rewrite IH, andb_assoc. Qed.

Lemma strlen_app (a b : string) :
  String.length (a ++ b) = (String.length a + String.length b)%nat.
Proof. induction a as [|c a IH]; simpl; [reflexivity|]. now rewrite IH. Qed.

Lemma len_app a b : len (a ++ b) = len a + len b.
Proof. unfold len. rewrite strlen_app. lia. Qed.

Lemma formatPhoneForCalling_cases p r :
  formatPhoneForCalling p = Normal r ->
  exists s cleaned,
    p = Some s /\ s <> "" /\ cleaned = keep isDigitOrPlus s /\
    ((startsWith cleaned "+" = true /\ r = cleaned) \/
     (startsWith cleaned "+" = false /\ len cleaned = 10 /\ r = "+1" ++ cleaned) \/
     (startsWith cleaned "+" = false /\ len cleaned = 11 /\
      startsWith cleaned "1" = true /\ r = "+" ++ cleaned)).
Proof.
  destruct p as [[|c s]|]; try discriminate.
  unfold formatPhoneForCalling.
  set (cleaned := keep isDigitOrPlus (String c s)).
  intros H. exists (String c s), cleaned.
  split; [reflexivity|]. split; [discriminate|]. split; [reflexivity|].
  destruct (startsWith cleaned "+") eqn:P; cbn [negb] in H.
  - injection H as <-. auto.
  - destruct (Z.eqb_spec (len cleaned) 10) as [L|L].
    + injection H as <-. auto.
    + destruct (Z.eqb_spec (len cleaned) 11) as [L'|L']; cbn [andb] in H; [|discriminate].
      destruct (startsWith cleaned "1") eqn:O; [|discriminate].
      injection H as <-. auto 10.
Qed.

Lemma returned_number_solid p r :
  formatPhoneForCalling p = Normal r ->
  startsWith r "+" = true /\ allOf isDigitOrPlus r = true.
Proof.
  intros H.
  destruct (formatPhoneForCalling_cases p r H) as (s & cleaned & _ & _ & C & K).
  pose proof (keep_allOf isDigitOrPlus s) as A. rewrite <- C in A.
  destruct K as [(P & ->)|[(_ & _ & ->)|(_ & _ & _ & ->)]].
  - auto.
  - split; [reflexivity|]. simpl. exact A.
  - split; [reflexivity|]. simpl. exact A.
Qed.

(** X1.  A number that [formatPhoneForCalling] returns starts with "+"
    and is made of "+" and decimal digits only.  It is the input with
    every other character removed when that text starts with "+";
    otherwise that text has ten characters and "+1" is put in front, or
    it has eleven characters, starts with "1", and "+" is put in
    front. *)
Theorem formatted_phone_shape (p : option string) (r : string) :
  formatPhoneForCalling p = Normal r ->
  startsWith r "+" = true /\ allOf isDigitOrPlus r = true /\
  exists s, p = Some s /\ s <> "" /\
    let cleaned := keep isDigitOrPlus s in
    if startsWith cleaned "+" then r = cleaned
    else (len cleaned = 10 /\ r = "+1" ++ cleaned) \/
         (len cleaned = 11 /\ startsWith cleaned "1" = true /\ r = "+" ++ cleaned).
Proof.
  intros H.
  destruct (returned_number_solid p r H) as (P & A).
  split; [exact P|]. split; [exact A|].
  destruct (formatPhoneForCalling_cases p r H) as (s & cleaned & -> & N & -> & K).
  exists s. split; [reflexivity|]. split; [exact N|]. cbv zeta.
  destruct K as [(-> & ->)|[(-> & L & ->)|(-> & L & O & ->)]]; auto.
Qed.

Lemma formatted_phone_shape_witness :
  formatPhoneForCalling (Some "+1 (832) 616-6714") = Normal "+18326166714" /\
  startsWith "+18326166714" "+" = true /\ allOf isDigitOrPlus "+18326166714" = true /\
  exists s, Some "+1 (832) 616-6714" = Some s /\ s <> "" /\
    let cleaned := keep isDigitOrPlus s in
    if startsWith cleaned "+" then "+18326166714" = cleaned
    else (len cleaned = 10 /\ "+18326166714" = "+1" ++ cleaned) \/
         (len cleaned = 11 /\ startsWith cleaned "1" = true /\
          "+18326166714" = "+" ++ cleaned).
Proof.
  split; [reflexivity|].
  apply (formatted_phone_shape (Some "+1 (832) 616-6714") "+18326166714"). reflexivity.
Defined.

(** X2.  [formatPhoneForCalling] is idempotent: given a number it has
    returned, it returns it unchanged. *)
Theorem formatted_phone_idempotent (p : option string) (r : string) :
  formatPhoneForCalling p = Normal r -> formatPhoneForCalling (Some r) = Normal r.
Proof.
  intros H. destruct (returned_number_solid p r H) as (P & A).
  destruct r as [|c r]; [discriminate P|].
  unfold formatPhoneForCalling. rewrite (keep_id _ _ A), P. reflexivity.
Qed.

Lemma formatted_phone_idempotent_witness :
  formatPhoneForCalling (Some "1-832-616-6714") = Normal "+18326166714" /\
  formatPhoneForCalling (Some "+18326166714") = Normal "+18326166714".
Proof.
  split; [reflexivity|].
  apply (formatted_phone_idempotent (Some "1-832-616-6714")). reflexivity.
Defined.

Lemma keep_without_plus s :
  count "+"%char s = O -> keep isDigitOrPlus s = keep isDigit s.
Proof.
  induction s as [|c s IH]; simpl; [reflexivity|].
  unfold isDigitOrPlus at 1.
  destruct (Ascii.eqb c "+"); [discriminate|].
  intros H. rewrite orb_false_r. now rewrite (IH H).
Qed.

Lemma digits_start_without_plus s : startsWith (keep isDigit s) "+" = false.
Proof.
  induction s as [|c s IH]; simpl; [reflexivity|].
  destruct (isDigit c) eqn:D; [|exact IH].
  simpl. each_digit c D; reflexivity.
Qed.

(** X3.  On a number written without any "+", only the digits count:
    ten digits get the prefix "+1", eleven digits that start with 1 get
    the prefix "+", and every other number of digits is refused with a
    message that quotes the input. *)
Theorem us_phone_by_digit_count (p : string) :
  p <> "" -> count "+"%char p = O ->
  formatPhoneForCalling (Some p) =
  let digits := keep isDigit p in
  if (len digits =? 10)%Z then Normal ("+1" ++ digits)
  else if (len digits =? 11)%Z && startsWith digits "1" then Normal ("+" ++ digits)
  else Throws ("Invalid phone number format: " ++ p).
Proof.
  intros Hp Hc. destruct p as [|c s]; [now elim Hp|].
  unfold formatPhoneForCalling.
  rewrite (keep_without_plus _ Hc), digits_start_without_plus. reflexivity.
Qed.

Lemma us_phone_by_digit_count_witness :
  "212.555.0100" <> "" /\ count "+"%char "212.555.0100" = O /\
  formatPhoneForCalling (Some "212.555.0100") = Normal "+12125550100".
Proof.
  split; [discriminate|]. split; [reflexivity|].
  rewrite (us_phone_by_digit_count "212.555.0100"); [reflexivity|discriminate|reflexivity].
Defined.

(** ** The E.164 pattern of index.ts *)

Lemma upTo_spec p n : forall s,
  upTo p n s isEmptyText = true <-> allOf p s = true /\ (String.length s <= n)%nat.
Proof.
  induction n as [|n IH]; intros s; simpl.
  - destruct s; simpl; split.
    + intros _. split; [reflexivity|lia].
    + reflexivity.
    + discriminate.
    + intros [_ H]. lia.
  - destruct s as [|c s]; simpl.
    + split; [intros _; split; [reflexivity|lia]|reflexivity].
    + destruct (p c); simpl.
      * rewrite orb_false_r, IH. split; intros [A L]; (split; [exact A|lia]).
      * split; [discriminate|intros [A _]; discriminate A].
Qed.

(** The pattern accepts a "+", a digit from 1 to 9 and one to fourteen
    further digits, and nothing else. *)
Lemma matchesE164_spec s :
  matchesE164 s = true <->
  exists c ds, s = String "+" (String c ds) /\ isNonZeroDigit c = true /\
               allOf isDigit ds = true /\ 1 <= len ds <= 14.
Proof.
  unfold matchesE164, len. split.
  - destruct s as [|a [|c [|d r]]]; try discriminate.
    intros H.
    apply andb_true_iff in H as [H U]. apply andb_true_iff in H as [H D].
    apply andb_true_iff in H as [P N]. apply Ascii.eqb_eq in P. subst a.
    apply upTo_spec in U as [A L].
    exists c, (String d r). simpl. rewrite D, A. repeat split; try reflexivity; try exact N; lia.
  - intros (c & ds & -> & N & A & L).
    destruct ds as [|d r]; [simpl in L; lia|].
    simpl in A. apply andb_true_iff in A as [D A].
    rewrite N, D, Ascii.eqb_refl. cbn [andb].
    apply upTo_spec. split; [exact A|]. simpl in L. lia.
Qed.

(** X4.  A number written without any "+" that [formatPhoneForCalling]
    returns always fits the E.164 pattern that the introduction agent
    checks before it dials. *)
Theorem us_phone_is_e164 (p r : string) :
  count "+"%char p = O -> formatPhoneForCalling (Some p) = Normal r ->
  matchesE164 r = true.
Proof.
  intros Hc H.
  destruct (formatPhoneForCalling_cases _ _ H) as (s & cleaned & E & _ & C & K).
  injection E as <-. rewrite (keep_without_plus _ Hc) in C.
  pose proof (keep_allOf isDigit p) as A. rewrite <- C in A.
  apply matchesE164_spec.
  destruct K as [(P & _)|[(_ & L & ->)|(_ & L & O & ->)]].
  - rewrite C, digits_start_without_plus in P. discriminate.
  - exists "1"%char, cleaned. repeat split; try reflexivity; try exact A; lia.
  - destruct cleaned as [|c r']; [discriminate O|].
    simpl in O. apply andb_true_iff in O as [O _]. apply Ascii.eqb_eq in O. subst c.
    simpl in A. exists "1"%char, r'.
    unfold len in *. simpl in L.
    repeat split; try reflexivity; try exact A; lia.
Qed.

Lemma us_phone_is_e164_witness :
  count "+"%char "(212) 555-0100" = O /\
  formatPhoneForCalling (Some "(212) 555-0100") = Normal "+12125550100" /\
  matchesE164 "+12125550100" = true.
Proof.
  split; [reflexivity|]. split; [reflexivity|].
  apply (us_phone_is_e164 "(212) 555-0100"); reflexivity.
Defined.

(** X5.  Characters other than digits and "+" never matter: two
    non-empty inputs with the same digits and "+" signs are both
    refused, or both give the same number. *)
Theorem phone_punctuation_ignored (p q : string) :
  p <> "" -> q <> "" -> keep isDigitOrPlus p = keep isDigitOrPlus q ->
  (exists r, formatPhoneForCalling (Some p) = Normal r /\
             formatPhoneForCalling (Some q) = Normal r) \/
  (formatPhoneForCalling (Some p) = Throws ("Invalid phone number format: " ++ p) /\
   formatPhoneForCalling (Some q) = Throws ("Invalid phone number format: " ++ q)).
Proof.
  intros Hp Hq E.
  destruct p as [|a p]; [now elim Hp|]. destruct q as [|b q]; [now elim Hq|].
  unfold formatPhoneForCalling. rewrite E.
  destruct (startsWith _ "+"); cbn [negb]; [eauto|].
  destruct (_ =? 10)%Z; [eauto|].
  destruct ((_ =? 11)%Z && _); [eauto|]. now right.
Qed.

Lemma phone_punctuation_ignored_witness :
  "832-616-6714" <> "" /\ "(832) 616 6714" <> "" /\
  keep isDigitOrPlus "832-616-6714" = keep isDigitOrPlus "(832) 616 6714" /\
  ((exists r, formatPhoneForCalling (Some "832-616-6714") = Normal r /\
              formatPhoneForCalling (Some "(832) 616 6714") = Normal r) \/
   (formatPhoneForCalling (Some "832-616-6714") =
      Throws ("Invalid phone number format: " ++ "832-616-6714") /\
    formatPhoneForCalling (Some "(832) 616 6714") =
      Throws ("Invalid phone number format: " ++ "(832) 616 6714"))).
Proof.
  split; [discriminate|]. split; [discriminate|]. split; [reflexivity|].
  apply (phone_punctuation_ignored "832-616-6714" "(832) 616 6714");
    (discriminate || reflexivity).
Defined.

(** ** prompts.ts: [formatPhoneForSpeech] and [formatEmailForSpeech] *)

Import Prompts.

Lemma join_splitChars_cons c d r :
  join ", " (splitChars (String c (String d r))) =
  String c (", " ++ join ", " (splitChars (String d r))).
Proof. reflexivity. Qed.

Lemma spoken_digits ds :
  allOf isDigit ds = true ->
  keep isDigit (join ", " (splitChars ds)) = ds /\
  allOf (fun c => isDigit c || Ascii.eqb c "," || Ascii.eqb c " ")
        (join ", " (splitChars ds)) = true /\
  len (join ", " (splitChars ds)) = Z.max 0 (3 * len ds - 2).
Proof.
  induction ds as [|c r IH]; [intros _; repeat split|].
  intros H. simpl in H. apply andb_true_iff in H as [D A].
  destruct r as [|d r].
  - simpl. rewrite D. repeat split.
  - rewrite join_splitChars_cons.
    destruct (IH A) as (K & S & L). clear IH.
    remember (join ", " (splitChars (String d r))) as t eqn:Et.
    split; [|split].
    + simpl. rewrite D. simpl in K. now rewrite K.
    + simpl. rewrite D. simpl in S. exact S.
    + unfold len in *. simpl String.length in *. lia.
Qed.

Lemma dropLeadingOne_allOf p s : allOf p s = true -> allOf p (dropLeadingOne s) = true.
Proof.
  destruct s as [|c r]; [auto|]. simpl.
  destruct (Ascii.eqb c "1"); [|auto].
  intros H. now apply andb_true_iff in H as [_ H].
Qed.

(** X6.  The spoken form of a phone number holds exactly the digits of
    the number, without a leading 1, in their order; it is made of
    digits, commas and spaces only, and n digits give 3n - 2
    characters. *)
Theorem spoken_phone_digits (phone : string) :
  let digits := dropLeadingOne (keep isDigit phone) in
  keep isDigit (formatPhoneForSpeech phone) = digits /\
  allOf (fun c => isDigit c || Ascii.eqb c "," || Ascii.eqb c " ")
        (formatPhoneForSpeech phone) = true /\
  len (formatPhoneForSpeech phone) = Z.max 0 (3 * len digits - 2).
Proof.
  intros digits. unfold formatPhoneForSpeech. fold digits.
  apply spoken_digits. apply dropLeadingOne_allOf, keep_allOf.
Qed.

Lemma count_app x a b : count x (a ++ b) = (count x a + count x b)%nat.
Proof.
  induction a as [|c a IH]; simpl; [reflexivity|].
  destruct (Ascii.eqb c x); simpl; now rewrite IH.
Qed.

Lemma replaceAll_count x by_ s :
  count x by_ = O -> count x (replaceAll x by_ s) = O.
Proof.
  intros H. induction s as [|c s IH]; simpl; [reflexivity|].
  destruct (Ascii.eqb c x) eqn:E.
  - now rewrite count_app, H, IH.
  - simpl. now rewrite E.
Qed.

Lemma replaceAll_count_other x y by_ s :
  Ascii.eqb x y = false -> count y by_ = O ->
  count y (replaceAll x by_ s) = count y s.
Proof.
  intros N H. induction s as [|c s IH]; simpl; [reflexivity|].
  destruct (Ascii.eqb c x) eqn:E.
  - apply Ascii.eqb_eq in E. subst c. now rewrite N, count_app, H, IH.
  - simpl. destruct (Ascii.eqb c y); now rewrite IH.
Qed.

Lemma replaceFirst_count x by_ s :
  count x by_ = O -> count x (replaceFirst x by_ s) = Nat.pred (count x s).
Proof.
  intros H. induction s as [|c s IH]; simpl; [reflexivity|].
  destruct (Ascii.eqb c x) eqn:E.
  - now rewrite count_app, H.
  - simpl. now rewrite E.
Qed.

Lemma replaceFirst_count_other x y by_ s :
  Ascii.eqb x y = false -> count y by_ = O ->
  count y (replaceFirst x by_ s) = count y s.
Proof.
  intros N H. induction s as [|c s IH]; simpl; [reflexivity|].
  destruct (Ascii.eqb c x) eqn:E.
  - apply Ascii.eqb_eq in E. subst c. now rewrite N, count_app, H.
  - simpl. destruct (Ascii.eqb c y); now rewrite IH.
Qed.

Lemma replaceAll_len x by_ s :
  len (replaceAll x by_ s) = len s + (len by_ - 1) * Z.of_nat (count x s).
Proof.
  induction s as [|c s IH]; [unfold len; simpl; lia|].
  simpl replaceAll. simpl count. destruct (Ascii.eqb c x).
  - rewrite len_app, IH. unfold len. simpl String.length. lia.
  - unfold len in *. simpl String.length. lia.
Qed.

Lemma replaceFirst_len x by_ s :
  len (replaceFirst x by_ s) =
  len s + (if Nat.eqb (count x s) 0 then 0 else len by_ - 1).
Proof.
  induction s as [|c s IH]; [reflexivity|].
  simpl replaceFirst. simpl count. destruct (Ascii.eqb c x).
  - rewrite len_app. cbn [Nat.eqb]. unfold len. simpl String.length. lia.
  - destruct (Nat.eqb (count x s) 0); unfold len in *; simpl String.length; lia.
Qed.

Lemma replaceAll_app x by_ a b :
  replaceAll x by_ (a ++ b) = replaceAll x by_ a ++ replaceAll x by_ b.
Proof.
  induction a as [|c a IH]; simpl; [reflexivity|].
  destruct (Ascii.eqb c x); rewrite IH; [now rewrite app_assoc3|reflexivity].
Qed.

Lemma replaceAll_absent x by_ s : count x s = O -> replaceAll x by_ s = s.
Proof.
  induction s as [|c s IH]; simpl; [reflexivity|].
  destruct (Ascii.eqb c x); [discriminate|]. intros H. now rewrite IH.
Qed.

Lemma replaceFirst_absent x by_ s : count x s = O -> replaceFirst x by_ s = s.
Proof.
  induction s as [|c s IH]; simpl; [reflexivity|].
  destruct (Ascii.eqb c x); [discriminate|]. intros H. now rewrite IH.
Qed.

Lemma replaceFirst_at x by_ a b :
  count x a = O -> replaceFirst x by_ (a ++ String x b) = a ++ by_ ++ b.
Proof.
  induction a as [|c a IH]; simpl.
  - intros _. now rewrite Ascii.eqb_refl.
  - destruct (Ascii.eqb c x); [discriminate|]. intros H. now rewrite IH.
Qed.

Lemma formatEmailForSpeech_at a b :
  count "@"%char a = O ->
  formatEmailForSpeech (a ++ String "@" b) =
  replaceAll "."%char " dot " a ++ " at " ++ replaceAll "."%char " dot " b.
Proof.
  intros H. unfold formatEmailForSpeech.
  rewrite (replaceFirst_at _ _ a b H), !replaceAll_app. reflexivity.
Qed.

(** X7.  The spoken form of an e-mail address has no "." left; the "@"
    that is replaced is the first one, by " at ", and every further "@"
    stays; each "." on either side is replaced by " dot "; and the text
    grows by four characters for each "." and by three for the "@".
    Without an "@" only the "." are replaced. *)
Theorem spoken_email_shape (email : string) :
  count "."%char (formatEmailForSpeech email) = O /\
  count "@"%char (formatEmailForSpeech email) = Nat.pred (count "@"%char email) /\
  len (formatEmailForSpeech email) =
    len email + 4 * Z.of_nat (count "."%char email) +
    (if Nat.eqb (count "@"%char email) 0 then 0 else 3) /\
  (forall a b, email = a ++ String "@" b -> count "@"%char a = O ->
     formatEmailForSpeech email =
     replaceAll "."%char " dot " a ++ " at " ++ replaceAll "."%char " dot " b) /\
  (forall a b, email = a ++ String "@" b -> count "@"%char a = O ->
     count "."%char a = O -> count "."%char b = O ->
     formatEmailForSpeech email = a ++ " at " ++ b) /\
  (forall a b, email = a ++ String "." b -> count "@"%char email = O ->
     count "."%char a = O ->
     formatEmailForSpeech email = a ++ " dot " ++ formatEmailForSpeech b) /\
  (count "@"%char email = O -> count "."%char email = O ->
   formatEmailForSpeech email = email) /\
  formatEmailForSpeech "a.b@c@d.e" = "a dot b at c@d dot e".
Proof.
  split; [|split; [|split; [|split; [|split; [|split; [|split]]]]]].
  - now apply replaceAll_count.
  - unfold formatEmailForSpeech.
    rewrite replaceAll_count_other by reflexivity. now apply replaceFirst_count.
  - unfold formatEmailForSpeech. rewrite replaceAll_len, replaceFirst_len.
    rewrite replaceFirst_count_other by reflexivity.
    change (len " dot " - 1) with 4. change (len " at " - 1) with 3. lia.
  - intros a b -> H. now apply formatEmailForSpeech_at.
  - intros a b -> H Da Db. rewrite (formatEmailForSpeech_at a b H).
    now rewrite !replaceAll_absent by assumption.
  - intros a b -> H Da. unfold formatEmailForSpeech.
    rewrite (replaceFirst_absent _ _ _ H).
    rewrite count_app in H. change (count "@" (String "." b)) with (count "@" b) in H.
    rewrite (replaceFirst_absent "@" " at " b) by lia.
    rewrite replaceAll_app, (replaceAll_absent _ _ a Da). reflexivity.
  - intros H D. unfold formatEmailForSpeech.
    rewrite (replaceFirst_absent _ _ email H). now apply replaceAll_absent.
  - reflexivity.
Qed.

(** ** config.ts, the constructor of [VapiClient], and index.ts *)

Import Config Plugin.

Lemma getVapiApiKey_cases env config :
  (exists key, orElse (vapiApiKey config) (VAPI_API_KEY env) = Some key /\ key <> "" /\
               getVapiApiKey env config = Normal key /\
               validateConfig env config = mkValidation true []) \/
  (truthy (orElse (vapiApiKey config) (VAPI_API_KEY env)) = false /\
   getVapiApiKey env config = Throws "VAPI API key not configured" /\
   validateConfig env config =
     mkValidation false ["Missing vapiApiKey or VAPI_API_KEY env var"]).
Proof.
  unfold getVapiApiKey, validateConfig.
  destruct (orElse (vapiApiKey config) (VAPI_API_KEY env)) as [[|c r]|].
  - right. repeat split.
  - left. exists (String c r). repeat split. discriminate.
  - right. repeat split.
Qed.

Lemma getPhoneNumberId_filled env config : getPhoneNumberId env config <> "".
Proof.
  unfold getPhoneNumberId.
  destruct (orElse _ _) as [[|c r]|]; discriminate.
Qed.

Lemma newVapiClient_key env config client :
  newVapiClient env config = Normal client -> apiKey client <> "".
Proof.
  unfold newVapiClient.
  destruct (getVapiApiKey_cases env config) as [(key & _ & N & -> & _)|(_ & -> & _)];
    cbn [andThen]; [|discriminate].
  intros H. injection H as <-. exact N.
Qed.

(** X8.  The client is handed out exactly when the plugin is enabled and
    an API key is configured, in the configuration first and in the
    environment second; its key and its phone-number id are then not
    empty.  Otherwise the error is the plugin's "disabled" message or
    the message of [validateConfig]: the constructor's own error cannot
    be raised from here. *)
Theorem getClient_outcomes (env : Env) (config : IntroductionAgentConfig) :
  match getClient env config (validateConfig env config) with
  | Normal client =>
      enabled config = true /\
      Some (apiKey client) = orElse (vapiApiKey config) (VAPI_API_KEY env) /\
      apiKey client <> "" /\ phoneNumberId client <> "" /\
      Config.config client = config
  | Throws message =>
      (enabled config = false /\ message = "Introduction agent is disabled") \/
      (enabled config = true /\
       truthy (orElse (vapiApiKey config) (VAPI_API_KEY env)) = false /\
       message = "Missing vapiApiKey or VAPI_API_KEY env var")
  end.
Proof.
  unfold getClient, newVapiClient.
  destruct (enabled config); cbn [negb]; [|left; now split].
  destruct (getVapiApiKey_cases env config) as [(key & K & N & -> & ->)|(F & -> & ->)];
    cbn [valid errors negb andThen join].
  - cbn [apiKey phoneNumberId Config.config].
    repeat split; try (now symmetry); try assumption.
    apply getPhoneNumberId_filled.
  - right. repeat split. exact F.
Qed.

Lemma initiate_unfold env config dial to recipient customMessage number :
  orElse to (defaultToNumber config) = Some number -> number <> "" ->
  initiateIntroductionCall env config dial to recipient customMessage =
  if negb (matchesE164 number)
  then Throws "Phone number must be in E.164 format (e.g., +15551234567)"
  else andThen (getClient env config (validateConfig env config)) (fun vapiClient =>
       Normal (dial vapiClient (mkParams number recipient customMessage))).
Proof.
  intros E N. unfold initiateIntroductionCall. rewrite E.
  destruct number; [now elim N|reflexivity].
Qed.




(** X10.  A disabled plugin never places a call, whatever the request
    and whatever the calling platform would answer: the gateway answers
    with the "disabled" error at once, and the tool answers with the
    error of the first check that fails, which is "Phone number is
    required" without a number, the E.164 error for a number not in
    that form, and the "disabled" error for a number in E.164 form. *)
Theorem disabled_never_dials (env : Env) (config : IntroductionAgentConfig)
    (dial : VapiClient -> InitiateCallParams -> InitiateCallResult)
    (to recipient customMessage : option string) :
  enabled config = false ->
  gatewayCall env config dial to recipient customMessage =
    (false, Failed (Some "Introduction agent is disabled")) /\
  (exists message,
     initiateIntroductionCall env config dial to recipient customMessage = Throws message /\
     toolCall env config dial to recipient customMessage = Failed (Some message) /\
     (message = "Introduction agent is disabled" <->
      exists number, orElse to (defaultToNumber config) = Some number /\
                     matchesE164 number = true) /\
     (truthy (orElse to (defaultToNumber config)) = false ->
      message = "Phone number is required (no default configured)") /\
     (forall number,
        orElse to (defaultToNumber config) = Some number -> number <> "" ->
        matchesE164 number = false ->
        message = "Phone number must be in E.164 format (e.g., +15551234567)") /\
     (forall number,
        orElse to (defaultToNumber config) = Some number ->
        matchesE164 number = true ->
        message = "Introduction agent is disabled")) /\
  forall dial' : VapiClient -> InitiateCallParams -> InitiateCallResult,
    initiateIntroductionCall env config dial' to recipient customMessage =
      initiateIntroductionCall env config dial to recipient customMessage /\
    toolCall env config dial' to recipient customMessage =
      toolCall env config dial to recipient customMessage /\
    gatewayCall env config dial' to recipient customMessage =
      gatewayCall env config dial to recipient customMessage.
Proof.
  intros E.
  assert (G : forall d, gatewayCall env config d to recipient customMessage =
                        (false, Failed (Some "Introduction agent is disabled")))
    by (intros d; unfold gatewayCall; now rewrite E).
  assert (I : exists message,
            (forall d, initiateIntroductionCall env config d to recipient customMessage =
                       Throws message) /\
            (message = "Introduction agent is disabled" <->
             exists number, orElse to (defaultToNumber config) = Some number /\
                            matchesE164 number = true) /\
            (truthy (orElse to (defaultToNumber config)) = false ->
             message = "Phone number is required (no default configured)") /\
            (forall number,
               orElse to (defaultToNumber config) = Some number -> number <> "" ->
               matchesE164 number = false ->
               message = "Phone number must be in E.164 format (e.g., +15551234567)") /\
            (forall number,
               orElse to (defaultToNumber config) = Some number ->
               matchesE164 number = true ->
               message = "Introduction agent is disabled")).
  { unfold initiateIntroductionCall, getClient.
    destruct (orElse to (defaultToNumber config)) as [[|c r]|].
    - eexists. split; [reflexivity|]. split; [|split; [|split]].
      + split; [discriminate|]. intros (n & [=<-] & M). discriminate M.
      + reflexivity.
      + intros n [=<-] N. now elim N.
      + intros n [=<-] M. discriminate M.
    - destruct (matchesE164 (String c r)) eqn:M; cbn [negb]; rewrite ?E; cbn [negb andThen].
      + eexists. split; [reflexivity|]. split; [|split; [|split]].
        * split; [|reflexivity]. intros _. now exists (String c r).
        * discriminate.
        * intros n [=<-] _ M'. congruence.
        * reflexivity.
      + eexists. split; [reflexivity|]. split; [|split; [|split]].
        * split; [discriminate|]. intros (n & [=<-] & M'). congruence.
        * discriminate.
        * reflexivity.
        * intros n [=<-] M'. congruence.
    - eexists. split; [reflexivity|]. split; [|split; [|split]].
      + split; [discriminate|]. intros (n & [=] & _).
      + reflexivity.
      + intros n [=].
      + intros n [=]. }
  destruct I as (message & T & Rest).
  split; [apply G|]. split.
  - exists message. split; [apply T|]. split; [|exact Rest].
    unfold toolCall. now rewrite T.
  - intros dial'. split; [now rewrite !T|]. split; [|now rewrite !G].
    unfold toolCall. now rewrite !T.
Qed.

Lemma disabled_never_dials_witness :
  enabled (mkConfig false (Some "key-1") None None) = false /\
  toolCall (mkEnv None None) (mkConfig false (Some "key-1") None None)
    (fun _ _ => mkResult true None None None) (Some "555") None None =
  Failed (Some "Phone number must be in E.164 format (e.g., +15551234567)") /\
  toolCall (mkEnv None None) (mkConfig false (Some "key-1") None None)
    (fun _ _ => mkResult true None None None) (Some "+15551234567") None None =
  Failed (Some "Introduction agent is disabled").
Proof.
  split; [reflexivity|].
  destruct (disabled_never_dials (mkEnv None None)
              (mkConfig false (Some "key-1") None None)
              (fun _ _ => mkResult true None None None)
              (Some "555") None None eq_refl) as (_ & (m & _ & T & _ & _ & B & _) & _).
  destruct (disabled_never_dials (mkEnv None None)
              (mkConfig false (Some "key-1") None None)
              (fun _ _ => mkResult true None None None)
              (Some "+15551234567") None None eq_refl)
    as (_ & (m' & _ & T' & _ & _ & _ & D) & _).
  split.
  - rewrite T. rewrite (B "555" eq_refl); [reflexivity|discriminate|reflexivity].
  - rewrite T'. rewrite (D "+15551234567" eq_refl eq_refl). reflexivity.
Defined.

(** *** Padding around the number: the gateway trims, the tool does not *)

Lemma allOf_weaken (p q : ascii -> bool) s :
  (forall c, p c = true -> q c = true) -> allOf p s = true -> allOf q s = true.
Proof.
  intros W. induction s as [|c s IH]; simpl; [reflexivity|].
  intros H. apply andb_true_iff in H as [C A]. now rewrite (W c C), (IH A).
Qed.

Lemma e164_solid n : matchesE164 n = true -> allOf isDigitOrPlus n = true.
Proof.
  intros H. apply matchesE164_spec in H as (c & ds & -> & N & A & _).
  assert (W : forall d, isDigit d = true -> isDigitOrPlus d = true)
    by (intros d D; unfold isDigitOrPlus; now rewrite D).
  assert (D : isDigit c = true)
    by (revert N; each_char c; intros N; (reflexivity || discriminate N)).
  cbn [allOf]. rewrite (W c D), (allOf_weaken _ _ ds W A). reflexivity.
Qed.

Lemma solid_not_space c : isDigitOrPlus c = true -> isWhiteSpace c = false.
Proof. each_char c; intros H; (reflexivity || discriminate H). Qed.

Lemma blank_solid_empty s : blank s = true -> allOf isDigitOrPlus s = true -> s = "".
Proof.
  destruct s as [|c r]; [reflexivity|]. simpl. intros B A.
  apply andb_true_iff in B as [B _]. apply andb_true_iff in A as [A _].
  rewrite (solid_not_space c A) in B. discriminate.
Qed.

Lemma trimEnd_solid s : allOf isDigitOrPlus s = true -> trimEnd s = s.
Proof.
  induction s as [|c r IH]; [reflexivity|]. simpl. intros A.
  apply andb_true_iff in A as [C A]. rewrite (IH A).
  destruct r; [now rewrite (solid_not_space c C)|reflexivity].
Qed.

Lemma trim_solid s : allOf isDigitOrPlus s = true -> trim s = s.
Proof.
  intros A. unfold trim.
  destruct s as [|c r]; [reflexivity|].
  pose proof A as A'. simpl in A'. apply andb_true_iff in A' as [C _].
  rewrite trimStart_keeps by now apply solid_not_space.
  now apply trimEnd_solid.
Qed.

Lemma padded_not_e164 pre n post :
  blank pre = true -> blank post = true -> pre ++ post <> "" ->
  matchesE164 (pre ++ n ++ post) = false.
Proof.
  intros Bpre Bpost N.
  destruct (matchesE164 (pre ++ n ++ post)) eqn:M; [|reflexivity].
  apply e164_solid in M. rewrite !allOf_app in M.
  apply andb_true_iff in M as [A M]. apply andb_true_iff in M as [_ C].
  rewrite (blank_solid_empty pre Bpre A), (blank_solid_empty post Bpost C) in N.
  now elim N.
Qed.

(** X11.  White space around a number in E.164 form makes no difference
    to the gateway method, which trims its parameters, while the tool
    passes the text on as it is and answers such a number with the
    E.164 error, even when a default number is configured. *)
Theorem gateway_trims_tool_does_not (env : Env) (config : IntroductionAgentConfig)
    (dial : VapiClient -> InitiateCallParams -> InitiateCallResult)
    (number pre post : string) (recipient customMessage : option string) :
  matchesE164 number = true -> blank pre = true -> blank post = true ->
  gatewayCall env config dial (Some (pre ++ number ++ post)) recipient customMessage =
  gatewayCall env config dial (Some number) recipient customMessage /\
  (pre ++ post <> "" ->
   toolCall env config dial (Some (pre ++ number ++ post)) recipient customMessage =
   Failed (Some "Phone number must be in E.164 format (e.g., +15551234567)")).
Proof.
  intros M Bpre Bpost.
  pose proof (trim_solid number (e164_solid number M)) as T.
  split.
  - unfold gatewayCall, trimmed. now rewrite trim_padding, T by assumption.
  - intros N. unfold toolCall.
    assert (F : pre ++ number ++ post <> "").
    { destruct pre; [|discriminate]. destruct number; [discriminate M|discriminate]. }
    rewrite (initiate_unfold env config dial _ recipient customMessage
               (pre ++ number ++ post)).
    + now rewrite (padded_not_e164 pre number post Bpre Bpost N).
    + unfold orElse. destruct (pre ++ number ++ post); [now elim F|reflexivity].
    + exact F.
Qed.

Lemma gateway_trims_tool_does_not_witness :
  matchesE164 "+15551234567" = true /\ blank " " = true /\ blank "" = true /\
  gatewayCall (mkEnv (Some "key-1") None) (mkConfig true None None None)
    (fun _ p => mkResult true (Some (toNumber p)) None None)
    (Some (" " ++ "+15551234567" ++ "")) None None =
  gatewayCall (mkEnv (Some "key-1") None) (mkConfig true None None None)
    (fun _ p => mkResult true (Some (toNumber p)) None None)
    (Some "+15551234567") None None /\
  (" " ++ "" <> "" ->
   toolCall (mkEnv (Some "key-1") None) (mkConfig true None None None)
     (fun _ p => mkResult true (Some (toNumber p)) None None)
     (Some (" " ++ "+15551234567" ++ "")) None None =
   Failed (Some "Phone number must be in E.164 format (e.g., +15551234567)")).
Proof.
  split; [reflexivity|]. split; [reflexivity|]. split; [reflexivity|].
  apply (gateway_trims_tool_does_not (mkEnv (Some "key-1") None)
           (mkConfig true None None None)
           (fun _ p => mkResult true (Some (toNumber p)) None None)
           "+15551234567" " " "" None None); reflexivity.
Defined.

(** X12.  A number made of white space only counts as no number for the
    gateway method, which then calls the configured default; the tool
    takes the same text for a number and answers with the E.164
    error. *)
Theorem blank_number_falls_back (env : Env) (config : IntroductionAgentConfig)
    (dial : VapiClient -> InitiateCallParams -> InitiateCallResult)
    (to : string) (recipient customMessage : option string) :
  blank to = true ->
  gatewayCall env config dial (Some to) recipient customMessage =
  gatewayCall env config dial None recipient customMessage /\
  (to <> "" ->
   toolCall env config dial (Some to) recipient customMessage =
   Failed (Some "Phone number must be in E.164 format (e.g., +15551234567)")).
Proof.
  intros B. split.
  - unfold gatewayCall, trimmed, initiateIntroductionCall, trim.
    now rewrite (trimStart_blank to B).
  - intros N. unfold toolCall.
    rewrite (initiate_unfold env config dial _ recipient customMessage to).
    + replace to with (to ++ "" ++ "") by (now rewrite !app_nil_right).
      rewrite (padded_not_e164 to "" "" B eq_refl); [reflexivity|].
      now rewrite app_nil_right.
    + unfold orElse. destruct to; [now elim N|reflexivity].
    + exact N.
Qed.

Lemma blank_number_falls_back_witness :
  blank "  " = true /\
  gatewayCall (mkEnv (Some "key-1") None) (mkConfig true None None (Some "+15551234567"))
    (fun _ p => mkResult true (Some (toNumber p)) None None) (Some "  ") None None =
  gatewayCall (mkEnv (Some "key-1") None) (mkConfig true None None (Some "+15551234567"))
    (fun _ p => mkResult true (Some (toNumber p)) None None) None None None /\
  ("  " <> "" ->
   toolCall (mkEnv (Some "key-1") None) (mkConfig true None None (Some "+15551234567"))
     (fun _ p => mkResult true (Some (toNumber p)) None None) (Some "  ") None None =
   Failed (Some "Phone number must be in E.164 format (e.g., +15551234567)")).
Proof.
  split; [reflexivity|].
  apply (blank_number_falls_back (mkEnv (Some "key-1") None)
           (mkConfig true None None (Some "+15551234567"))
           (fun _ p => mkResult true (Some (toNumber p)) None None)
           "  " None None); reflexivity.
Defined.

(** ** make-reservation.mjs: the arguments of [main] *)

Lemma parseArgs_render items tail : forall options,
  Forall plainWord items ->
  exists options',
    Cli.parseArgs (render items ++ tail)%list options = Cli.parseArgs tail options' /\
    forall key, Cli.get options' key =
                match lastValue key items with
                | Some v => Some v
                | None => Cli.get options key
                end.
Proof.
  induction items as [|it items IH]; intros options F.
  - exists options. split; reflexivity.
  - inversion F as [|? ? P F']; subst.
    destruct it as [k v|w].
    + destruct (IH ((k, Some v) :: options) F') as (o & E & G).
      exists o. split; [exact E|].
      intros key. rewrite G. cbn [lastValue Cli.get].
      destruct (lastValue key items); [reflexivity|].
      destruct (String.eqb k key); reflexivity.
    + destruct (IH options F') as (o & E & G).
      exists o. split; [|exact G].
      change (render (Word w :: items) ++ tail)%list
        with (w :: render items ++ tail)%list.
      cbn [Cli.parseArgs]. unfold plainWord in P. rewrite P. exact E.
Qed.

Lemma parseArgs_get items key :
  Forall plainWord items ->
  Cli.get (Cli.parseArgs (render items) []) key = lastValue key items.
Proof.
  intros F. destruct (parseArgs_render items [] [] F) as (o & E & G).
  rewrite app_nil_r in E. rewrite E. cbn [Cli.parseArgs]. rewrite G.
  now destruct (lastValue key items).
Qed.

(** X13.  Reading the arguments: each flag takes the argument after it
    as its value, whatever that argument looks like, and the last value
    given for a flag wins; words outside a flag-value pair are skipped.
    A flag left as the last argument has no value, also when the flag
    was given a value before, and leaves the other flags as they are.
    (For flags whose name is not one that objects inherit.) *)
Theorem last_flag_value_wins (items : list Item) (key : string) :
  Forall plainWord items -> Cli.isInherited key = false ->
  Cli.get (Cli.parseArgs (render items) []) key = lastValue key items /\
  Cli.get (Cli.parseArgs (render items ++ [("--" ++ key)%string])%list []) key = None /\
  forall other, other <> key -> Cli.isInherited other = false ->
    Cli.get (Cli.parseArgs (render items ++ [("--" ++ key)%string])%list []) other =
    lastValue other items.
Proof.
  intros F _. split; [|split].
  - now apply parseArgs_get.
  - destruct (parseArgs_render items ["--" ++ key] [] F) as (o & E & G).
    rewrite E. cbn [Cli.parseArgs]. simpl. now rewrite String.eqb_refl.
  - intros other N _.
    destruct (parseArgs_render items ["--" ++ key] [] F) as (o & E & G).
    rewrite E. cbn [Cli.parseArgs]. simpl.
    destruct (String.eqb_spec key other) as [->|_]; [now elim N|].
    rewrite G. now destruct (lastValue other items).
Qed.

Lemma last_flag_value_wins_witness :
  Forall plainWord [Pair "date" "friday"; Word "please"; Pair "date" "--time"] /\
  Cli.isInherited "date" = false /\
  Cli.get (Cli.parseArgs
             (render [Pair "date" "friday"; Word "please"; Pair "date" "--time"]) [])
          "date" = Some "--time".
Proof.
  assert (F : Forall plainWord
                [Pair "date" "friday"; Word "please"; Pair "date" "--time"])
    by (repeat constructor).
  split; [exact F|]. split; [reflexivity|].
  destruct (last_flag_value_wins
              [Pair "date" "friday"; Word "please"; Pair "date" "--time"] "date" F
              eq_refl)
    as (G & _).
  rewrite G. reflexivity.
Defined.



Lemma render_first items :
  Forall plainWord items -> (forall v rest, items <> Pair "help" v :: rest) ->
  items <> [] ->
  exists first rest, render items = first :: rest /\ String.eqb first "--help" = false.
Proof.
  intros F H N. destruct items as [|[k v|w] items]; [now elim N| |].
  - exists ("--" ++ k), (v :: render items). split; [reflexivity|].
    apply String.eqb_neq. intros E. injection E as ->. now elim (H v items).
  - exists w, (render items). split; [reflexivity|].
    inversion F as [|? ? P _]; subst. unfold plainWord in P.
    apply String.eqb_neq. intros ->. discriminate P.
Qed.

(** [parseInt] on some party texts: digits after white space, no digit,
    a negative zero, a hexadecimal text, and the last integer that a
    double holds exactly with the first one beyond it. *)
Lemma parseIntText_samples :
  Cli.parseIntText (Some " 4 people") = Cli.Integer 4 /\
  Cli.parseIntText (Some "two") = Cli.NotANumber /\
  Cli.parseIntText (Some "-0") = Cli.NegativeZero /\
  Cli.parseIntText (Some "-12") = Cli.Integer (-12) /\
  Cli.parseIntText (Some "0x1f") = Cli.Integer 31 /\
  Cli.parseIntText (Some "0x") = Cli.NotANumber /\
  Cli.parseIntText (Some "9007199254740992") = Cli.Integer 9007199254740992 /\
  Cli.parseIntText (Some "9007199254740993") = Cli.Beyond false /\
  Cli.parseIntText None = Cli.NotANumber.
Proof. repeat split. Qed.

(** X15.  A command line that gives each required option a non-empty
    value, does not ask for a status and does not start with "--help"
    leads to a reservation request that carries the last value given
    for each option, "near me" for a location that is missing or empty,
    and as party size what [parseInt] makes of the text of "--party",
    which need not be a number. *)
Theorem complete_request_reserves (items : list Item) :
  Forall plainWord items ->
  (forall v rest, items <> Pair "help" v :: rest) ->
  truthy (lastValue "status" items) = false ->
  (forall key, In key Cli.required -> truthy (lastValue key items) = true) ->
  Cli.main (render items) =
  Cli.Reserve (Cli.mkReservation
    (lastValue "restaurant" items)
    (match lastValue "location" items with
     | Some (String c r) => String c r
     | _ => "near me"
     end)
    (lastValue "date" items)
    (lastValue "time" items)
    (Cli.parseIntText (lastValue "party" items))
    (lastValue "name" items)
    (lastValue "phone" items)).
Proof.
  intros F H S R.
  assert (N : items <> []).
  { intros ->. specialize (R "restaurant" (or_introl eq_refl)). discriminate R. }
  destruct (render_first items F H N) as (first & rest & E & Hf).
  unfold Cli.main. rewrite E, Hf, <- E, !parseArgs_get by exact F.
  destruct (lastValue "status" items) as [[|c r]|]; try discriminate S.
  all: cbn [filter Cli.required];
    rewrite !parseArgs_get by exact F;
    rewrite (R "restaurant"), (R "date"), (R "time"), (R "party"), (R "name"),
      (R "phone") by (cbn; tauto);
    reflexivity.
Qed.

Lemma complete_request_reserves_witness :
  Cli.main (render [Pair "restaurant" "Nobu"; Pair "date" "tomorrow";
                    Pair "time" "7 PM"; Pair "party" "two"; Pair "name" "Ada";
                    Pair "phone" "+15551234567"]) =
  Cli.Reserve (Cli.mkReservation (Some "Nobu") "near me" (Some "tomorrow")
                 (Some "7 PM") Cli.NotANumber (Some "Ada") (Some "+15551234567")).
Proof.
  rewrite (complete_request_reserves
             [Pair "restaurant" "Nobu"; Pair "date" "tomorrow"; Pair "time" "7 PM";
              Pair "party" "two"; Pair "name" "Ada"; Pair "phone" "+15551234567"]).
  - reflexivity.
  - repeat constructor.
  - intros v rest; discriminate.
  - reflexivity.
  - intros key I. cbn in I.
    repeat (destruct I as [<-|I]; [reflexivity|]). destruct I.
Defined.

(** ** vapi-caller.mjs: the date that [makeReservationCall] passes on *)

(** X16.  The date put into the call's prompt and into
    [reservationDetails] is always the [formatted] field of the
    resolved date: the test of [isValid] on line 70 changes nothing,
    since an unresolved date has the input as its [formatted].  The
    original text is reported next to it, and for an input that no
    phrase class takes both are the input and there is no weekday. *)
Theorem call_date_is_formatted (clock : Z) (dateInput : string) :
  exists r,
    parseReservationDate clock dateInput = Returned r /\
    Caller.dateDetails clock dateInput =
      Returned (Caller.mkDateDetails (formatted r) dateInput (dayOfWeek r)) /\
    (recognized (trim (toLowerCase dateInput)) = false ->
     Caller.dateDetails clock dateInput =
       Returned (Caller.mkDateDetails dateInput dateInput None)).
Proof.
  unfold Caller.dateDetails, parseReservationDate.
  destruct (targetOf_any clock (trim (toLowerCase dateInput))) as (o & -> & Ho).
  cbn [bind]. eexists. split; [reflexivity|].
  destruct o as [t|].
  - destruct Ho as (_ & ->). split; [reflexivity|discriminate].
  - split; reflexivity.
Qed.

(** ** Real calendar dates are never resolved into the past *)

Lemma real_date_in_year y m d :
  0 <= m <= 11 -> 1 <= d <= DaysInMonth (leapFlag y) m ->
  DayFromYear y <= MakeDay y m d < DayFromYear (y + 1).
Proof.
  intros M D. rewrite MakeDay_in_year by exact M. rewrite DayFromYear_succ.
  destruct (leapFlag_cases y) as [(E & F)|(E & F)]; rewrite E in *; rewrite F;
    month_cases m Hm; cbn [DaysBeforeMonth DaysInMonth] in *; lia.
Qed.

Lemma next_year_distance y m d :
  0 <= m <= 11 -> 1 <= d ->
  DayFromYear (y + 1) <= MakeDay (y + 1) m d <= MakeDay y m d + 366.
Proof.
  intros M D. rewrite !MakeDay_in_year by exact M. rewrite DayFromYear_succ.
  destruct (leapFlag_cases y) as [(E & F)|(E & F)].
  - rewrite (leapFlag_next y E), E, F.
    month_cases m Hm; cbn [DaysBeforeMonth]; lia.
  - rewrite E, F.
    destruct (leapFlag_cases (y + 1)) as [(E' & _)|(E' & _)]; rewrite E';
      month_cases m Hm; cbn [DaysBeforeMonth]; lia.
Qed.

Lemma rolledDay_window today m d :
  0 <= m <= 11 -> 1 <= d <= DaysInMonth (leapFlag (YearFromDay today)) m ->
  today <= rolledDay today (MakeDay (YearFromDay today) m d) <= today + 365.
Proof.
  intros M D.
  pose proof (YearFromDay_spec today) as T.
  pose proof (real_date_in_year _ m d M D) as R.
  rewrite DayFromYear_succ in T, R.
  assert (L : DaysInYear (YearFromDay today) <= 366)
    by (destruct (DaysInYear_cases (YearFromDay today)) as [(E & _)|(E & _)]; lia).
  unfold rolledDay.
  destruct (Z.ltb_spec (MakeDay (YearFromDay today) m d) today) as [B|B]; [|lia].
  destruct (civil_of_MakeDay _ m d M D) as (-> & -> & ->).
  pose proof (next_year_distance (YearFromDay today) m d M ltac:(lia)) as N.
  rewrite DayFromYear_succ in N. lia.
Qed.

(** X17.  An input of the month-name or numeric shape that names a real
    calendar date of the reference day's year is valid and resolves to
    a day that is not before the reference day and at most 365 days
    after it. *)
Theorem real_date_within_a_year (clock m d : Z) (s : string) :
  datePhrase m d s ->
  0 <= m <= 11 ->
  1 <= d <= DaysInMonth (leapFlag (YearFromDay (referenceDay clock))) m ->
  exists r t,
    parseReservationDate clock s = Returned r /\ isValid r = true /\
    date r = Some (DateAt t) /\
    referenceDay clock <= t <= referenceDay clock + 365.
Proof.
  intros P M D.
  do 2 eexists.
  split; [exact (parse_datePhrase clock m d s P)|].
  destruct (describe_day s (rolledDay (referenceDay clock) (targetDay clock m d)))
    as (V & E & _).
  split; [exact V|]. split; [exact E|].
  unfold targetDay. now apply rolledDay_window.
Qed.

Lemma real_date_within_a_year_witness :
  datePhrase 1 29 "2/29" /\ 0 <= 1 <= 11 /\
  1 <= 29 <= DaysInMonth (leapFlag (YearFromDay (referenceDay (civil 2024 3 15)))) 1 /\
  exists r t,
    parseReservationDate (civil 2024 3 15) "2/29" = Returned r /\ isValid r = true /\
    date r = Some (DateAt t) /\
    referenceDay (civil 2024 3 15) <= t <= referenceDay (civil 2024 3 15) + 365.
Proof.
  assert (P : datePhrase 1 29 "2/29").
  { apply (NumericPhrase "2" "/"%char "29" "2/29"); try reflexivity.
    exists "", "". repeat split. }
  split; [exact P|]. split; [lia|].
  assert (D : 1 <= 29 <=
              DaysInMonth (leapFlag (YearFromDay (referenceDay (civil 2024 3 15)))) 1)
    by (vm_compute; split; discriminate).
  split; [exact D|].
  apply (real_date_within_a_year (civil 2024 3 15) 1 29 "2/29" P); [lia|exact D].
Defined.

(** ** make-reservation.mjs: [makeReservation] *)

Lemma formatPhoneForCalling_throws p e :
  formatPhoneForCalling (Some p) = Throws e -> p <> "" ->
  e = "Invalid phone number format: " ++ p.
Proof.
  destruct p as [|c r]; [intros _ N; now elim N|]. intros H _. revert H.
  unfold formatPhoneForCalling.
  destruct (negb _); [|discriminate].
  destruct (_ =? 10)%Z; [discriminate|].
  destruct ((_ =? 11)%Z && _); [discriminate|].
  intros H. now injection H as <-.
Qed.

(** X18.  Every way [makeReservation] can end.  When it returns, the
    restaurant had a phone number, [formatPhoneForCalling] accepted it,
    and the call was asked for the formatted number, which starts with
    "+" and holds digits and "+" only.  When it throws, the error is the
    lookup's, or "Restaurant phone number not available" for a missing
    or empty number, or the "Invalid phone number format" error that
    quotes the number, or the error of the call; the formatter's "No
    phone number provided" is never raised here. *)
Theorem makeReservation_outcomes (found : completion Orchestrator.Restaurant)
    (call : string -> option string -> completion Orchestrator.CallResult) :
  match Orchestrator.makeReservation found call with
  | Normal made =>
      exists restaurant phone callResult,
        found = Normal restaurant /\
        Orchestrator.phoneNumber restaurant = Some phone /\
        formatPhoneForCalling (Some phone) = Normal (Orchestrator.dialled made) /\
        startsWith (Orchestrator.dialled made) "+" = true /\
        allOf isDigitOrPlus (Orchestrator.dialled made) = true /\
        call (Orchestrator.dialled made) (Orchestrator.name restaurant) =
          Normal callResult /\
        Orchestrator.madeCallId made = Orchestrator.callId callResult /\
        Orchestrator.madeStatus made = Orchestrator.status callResult /\
        Orchestrator.restaurantPhone made = Some phone
  | Throws e =>
      found = Throws e \/
      exists restaurant,
        found = Normal restaurant /\
        ((truthy (Orchestrator.phoneNumber restaurant) = false /\
          e = "Restaurant phone number not available") \/
         exists phone,
           Orchestrator.phoneNumber restaurant = Some phone /\
           ((formatPhoneForCalling (Some phone) = Throws e /\
             e = "Invalid phone number format: " ++ phone) \/
            exists number,
              formatPhoneForCalling (Some phone) = Normal number /\
              call number (Orchestrator.name restaurant) = Throws e))
  end.
Proof.
  unfold Orchestrator.makeReservation.
  destruct found as [restaurant|e]; cbn [andThen]; [|now left].
  destruct (Orchestrator.phoneNumber restaurant) as [phone|] eqn:Ph.
  2: { right. exists restaurant. split; [reflexivity|]. left. now rewrite Ph. }
  destruct phone as [|c r].
  { right. exists restaurant. split; [reflexivity|]. left. now rewrite Ph. }
  cbn [truthy negb]. set (phone := String c r) in *.
  assert (N : phone <> "") by discriminate.
  destruct (formatPhoneForCalling (Some phone)) as [number|e] eqn:F; cbn [andThen].
  - destruct (call number (Orchestrator.name restaurant)) as [callResult|e] eqn:C;
      cbn [andThen].
    + exists restaurant, phone, callResult.
      cbn [Orchestrator.dialled Orchestrator.madeCallId Orchestrator.madeStatus
           Orchestrator.restaurantPhone].
      destruct (returned_number_solid _ _ F) as (P & A).
      repeat split; assumption.
    + right. exists restaurant. split; [reflexivity|]. right. exists phone.
      split; [exact Ph|]. right. now exists number.
  - right. exists restaurant. split; [reflexivity|]. right. exists phone.
    split; [exact Ph|]. left. split; [exact F|].
    now apply formatPhoneForCalling_throws.
Qed.

(** X19.  The call is asked for no other number than one that starts
    with "+" and holds digits and "+" only: two call services that agree
    on those numbers give the same outcome of [makeReservation]. *)
Theorem call_sees_formatted_numbers_only (found : completion Orchestrator.Restaurant)
    (call call' : string -> option string -> completion Orchestrator.CallResult) :
  (forall number name,
     startsWith number "+" = true -> allOf isDigitOrPlus number = true ->
     call number name = call' number name) ->
  Orchestrator.makeReservation found call = Orchestrator.makeReservation found call'.
Proof.
  intros H. unfold Orchestrator.makeReservation.
  destruct found as [restaurant|e]; cbn [andThen]; [|reflexivity].
  destruct (negb _); [reflexivity|].
  destruct (formatPhoneForCalling (Orchestrator.phoneNumber restaurant))
    as [number|e] eqn:F; cbn [andThen]; [|reflexivity].
  destruct (returned_number_solid _ _ F) as (P & A).
  now rewrite (H number (Orchestrator.name restaurant) P A).
Qed.

Lemma call_sees_formatted_numbers_only_witness :
  Orchestrator.makeReservation
    (Normal (Orchestrator.mkRestaurant (Some "Nobu") (Some "(212) 555-0100")))
    (fun number _ => Normal (Orchestrator.mkCallResult (Some number) None)) =
  Orchestrator.makeReservation
    (Normal (Orchestrator.mkRestaurant (Some "Nobu") (Some "(212) 555-0100")))
    (fun number _ =>
       if startsWith number "+" && allOf isDigitOrPlus number
       then Normal (Orchestrator.mkCallResult (Some number) None)
       else Throws "not dialled").
Proof.
  apply (call_sees_formatted_numbers_only
           (Normal (Orchestrator.mkRestaurant (Some "Nobu") (Some "(212) 555-0100")))
           (fun number _ => Normal (Orchestrator.mkCallResult (Some number) None))
           (fun number _ =>
              if startsWith number "+" && allOf isDigitOrPlus number
              then Normal (Orchestrator.mkCallResult (Some number) None)
              else Throws "not dialled")).
  intros number name P A. rewrite P, A. reflexivity.
Defined.
